(** * Auth service: credentials, account lockout and security tokens

    A shallow embedding of the auth service of the platform
    (models/User.js, models/PasswordReset.js, models/RefreshToken.js,
    routes/auth.js, @platform/errors) and the properties of its
    lockout state machine and of its single-use tokens.

    Modelling conventions.
    - A [Date] and a [TIMESTAMP WITH TIME ZONE] are the number of
      milliseconds since the epoch, in [Z].  The process runs in a zone
      with a fixed offset, so [setMinutes], [setHours] and [setDate] add
      a fixed number of milliseconds.  The clock does not move while one
      request is served.
    - A table is the list of its rows in storage order; [rows[0]] of a
      query is the first matching row.
    - Every SQL statement goes through [query]: it is recorded in the
      trace, it may raise (the fault schedule of the world says which
      statements do), and an autocommitted statement that succeeded stays
      committed when a later statement raises.
    - [crypto.randomBytes] reads the entropy of the world.
    - bcrypt and the JWT signer are external: they are fields of [Env].
    - An id is held as the text in which the store prints a [uuid].
      The store compares a parameter with a [uuid] column by value; the
      tables compare text, which agrees for a parameter in that text
      form.
    - The INTEGER range of the store and the range of [Date] are not
      modelled. *)

From Stdlib Require Import ZArith NArith List String Ascii Bool Lia.
From Stdlib Require Import DecimalString.
From Stdlib.Strings Require Import Byte.
Import ListNotations.
Local Open Scope string_scope.
Local Open Scope Z_scope.

(* ================================================================== *)
(** ** JavaScript values the service relies on *)

Definition Date := Z.

Definition msPerMinute : Z := 60000.
Definition msPerHour : Z := 3600000.
Definition msPerDay : Z := 86400000.

(** [d.setMinutes(d.getMinutes() + m)] *)
Definition addMinutes (d : Date) (m : Z) : Date := d + m * msPerMinute.
(** [d.setHours(d.getHours() + h)] *)
Definition addHours (d : Date) (h : Z) : Date := d + h * msPerHour.
(** [d.setDate(d.getDate() + n)] *)
Definition addDays (d : Date) (n : Z) : Date := d + n * msPerDay.

(** [new Date(v)] for a column that may be NULL: [new Date(null)] is the
    epoch. *)
Definition newDate (v : option Date) : Date :=
  match v with Some d => d | None => 0 end.

(** [Math.ceil(a / b)] for integers [a] and positive [b]. *)
Definition ceilDiv (a b : Z) : Z := (a + b - 1) / b.

(** [String(n)] for an integer [n], as a template literal prints it. *)
Definition numberToString (n : Z) : string :=
  NilEmpty.string_of_int (Z.to_int n).

(** [parseInt(process.env.X) || d]: an unset or unparsable variable and
    the value 0 all give the default. *)
Definition parseIntOr (v : option Z) (d : Z) : Z :=
  match v with
  | None => d
  | Some n => if n =? 0 then d else n
  end.

Definition lowerAscii (c : ascii) : ascii :=
  let n := N_of_ascii c in
  if ((65 <=? n) && (n <=? 90))%N then ascii_of_N (n + 32) else c.

(** [s.toLowerCase()], on ASCII text. *)
Fixpoint toLowerCase (s : string) : string :=
  match s with
  | EmptyString => EmptyString
  | String c r => String (lowerAscii c) (toLowerCase r)
  end.

(* ================================================================== *)
(** ** Random tokens *)

Definition hexDigit (n : N) : ascii :=
  (if n <? 10 then ascii_of_N (48 + n) else ascii_of_N (87 + n))%N.

Definition hexByte (b : byte) : list ascii :=
  let n := Byte.to_N b in [hexDigit (n / 16); hexDigit (n mod 16)]%N.

(** [buf.toString('hex')] *)
Definition toHex (bs : list byte) : string :=
  string_of_list_ascii (flat_map hexByte bs).

Definition isHexDigit (c : ascii) : bool :=
  let n := N_of_ascii c in
  (((48 <=? n) && (n <=? 57)) || ((97 <=? n) && (n <=? 102)))%N.

Fixpoint allChars (p : ascii -> bool) (s : string) : bool :=
  match s with
  | EmptyString => true
  | String c r => p c && allChars p r
  end.

(** An opaque 256-bit token: 64 lower-case hexadecimal digits. *)
Definition isHex256 (s : string) : bool :=
  (Nat.eqb (String.length s) 64) && allChars isHexDigit s.

Definition byteOfN (n : N) : byte :=
  match Byte.of_N (n mod 256) with Some b => b | None => x00 end.

(** [rnds[i] = f(rnds[i])] *)
Fixpoint updateAt (i : nat) (f : byte -> byte) (bs : list byte) : list byte :=
  match bs, i with
  | [], _ => []
  | b :: r, O => f b :: r
  | b :: r, S j => b :: updateAt j f r
  end.

(** The uuid package, [v4()]: sixteen random bytes with the version and
    the variant written over them,
    [rnds[6] = (rnds[6] & 0x0f) | 0x40; rnds[8] = (rnds[8] & 0x3f) | 0x80],
    printed as 8-4-4-4-12 hexadecimal digits. *)
Definition uuidStamp (rnds : list byte) : list byte :=
  updateAt 8 (fun b => byteOfN (N.lor (N.land (Byte.to_N b) 63) 128))
    (updateAt 6 (fun b => byteOfN (N.lor (N.land (Byte.to_N b) 15) 64)) rnds).

Definition uuidStringify (bs : list byte) : string :=
  toHex (firstn 4 bs) ++ "-" ++
  toHex (firstn 2 (skipn 4 bs)) ++ "-" ++
  toHex (firstn 2 (skipn 6 bs)) ++ "-" ++
  toHex (firstn 2 (skipn 8 bs)) ++ "-" ++
  toHex (firstn 6 (skipn 10 bs)).

(* ================================================================== *)
(** ** @platform/errors *)

Inductive Error : Type :=
| PgError (code : string)
| JsError (message : string)
| TypeError (message : string)
| ApplicationError (name : string) (message : string) (statusCode : Z).

Definition BadRequestError (m : string) := ApplicationError "BadRequestError" m 400.
Definition UnauthorizedError (m : string) := ApplicationError "UnauthorizedError" m 401.
Definition ConflictError (m : string) := ApplicationError "ConflictError" m 409.

(** Modelled from the spec: [TooManyRequestsError] is imported by the
    routes from @platform/errors, whose source declares no such class;
    the error taxonomy and the service README give it status 429. *)
Definition TooManyRequestsError (m : string) :=
  ApplicationError "TooManyRequestsError" m 429.

Definition errorName (e : Error) : string :=
  match e with
  | PgError _ => "error"
  | JsError _ => "Error"
  | TypeError _ => "TypeError"
  | ApplicationError n _ _ => n
  end.

Definition errorMessage (e : Error) : string :=
  match e with
  | PgError c => c
  | JsError m => m
  | TypeError m => m
  | ApplicationError _ m _ => m
  end.

(** [err.statusCode || 500] *)
Definition errorStatus (e : Error) : Z :=
  match e with
  | ApplicationError _ _ s => if s =? 0 then 500 else s
  | _ => 500
  end.

(** SQLSTATE codes of the store. *)
Definition connection_failure : string := "08006".
Definition unique_violation : string := "23505".
Definition foreign_key_violation : string := "23503".

(* ================================================================== *)
(** ** Persisted schema (config/database.js) *)

Record auth_user : Type := mkUser {
  id : string;
  email : string;
  password_hash : string;
  email_verified : bool;
  email_verification_token : option string;
  email_verification_expires : option Date;
  failed_login_attempts : option Z;
  locked_until : option Date;
  created_at : Date;
  updated_at : Date
}.

Record refresh_token : Type := mkRefresh {
  rt_id : string;
  rt_user_id : string;
  rt_token : string;
  rt_expires_at : Date;
  rt_created_at : Date;
  rt_revoked : bool
}.

Record password_reset : Type := mkReset {
  pr_id : string;
  pr_user_id : string;
  pr_token : string;
  pr_expires_at : Date;
  pr_created_at : Date;
  pr_used : bool
}.

Record Database : Type := mkDb {
  auth_users : list auth_user;
  auth_refresh_tokens : list refresh_token;
  auth_password_resets : list password_reset
}.

Definition emptyDb : Database := mkDb [] [] [].

Definition with_users (d : Database) (us : list auth_user) : Database :=
  mkDb us (auth_refresh_tokens d) (auth_password_resets d).
Definition with_refresh (d : Database) (ts : list refresh_token) : Database :=
  mkDb (auth_users d) ts (auth_password_resets d).
Definition with_resets (d : Database) (rs : list password_reset) : Database :=
  mkDb (auth_users d) (auth_refresh_tokens d) rs.

(** [UPDATE t SET ... WHERE p]: every row satisfying [p] is rewritten. *)
Definition updateWhere {A : Type} (p : A -> bool) (f : A -> A) (t : list A) : list A :=
  map (fun r => if p r then f r else r) t.

(** [rowCount] of an UPDATE or DELETE on the rows satisfying [p]. *)
Definition rowCount {A : Type} (p : A -> bool) (t : list A) : Z :=
  Z.of_nat (List.length (filter p t)).

(** [WHERE id = $1] *)
Definition hasId (uid : string) (u : auth_user) : bool := (id u =? uid)%string.

Definition userById (uid : string) (d : Database) : option auth_user :=
  find (hasId uid) (auth_users d).

Definition userByEmail (e : string) (d : Database) : option auth_user :=
  find (fun u => email u =? e)%string (auth_users d).

Definition resetByToken (t : string) (d : Database) : option password_reset :=
  find (fun r => pr_token r =? t)%string (auth_password_resets d).

Definition refreshByToken (t : string) (d : Database) : option refresh_token :=
  find (fun r => rt_token r =? t)%string (auth_refresh_tokens d).

(* ================================================================== *)
(** ** The world a request runs in *)

(** The SQL statements of the three models, one constructor per query
    text. *)
Inductive Statement : Type :=
| InsertUser
| DeleteUser
| SelectUserByEmail
| UpdatePasswordHash
| UpdateVerificationToken
| SelectUserByVerificationToken
| UpdateEmailVerified
| SelectEmailVerified
| SelectLockedUntil
| UpdateIncrementFailedAttempts
| UpdateLockedUntil
| UpdateResetFailedAttempts
| InsertPasswordReset
| SelectPasswordResetByToken
| UpdateResetUsedByToken
| UpdateResetUsedByUser
| DeleteExpiredPasswordResets
| CountRecentPasswordResets
| InsertRefreshToken
| SelectRefreshTokenByToken
| UpdateRevokedByToken
| UpdateRevokedByUser
| DeleteExpiredRefreshTokens.

Inductive Event : Type :=
| Sql (s : Statement)
| BcryptHash
| BcryptCompare
| Mail (subject : string) (to : string).

(** [trace] lists the events most recent first. *)
Record World : Type := mkWorld {
  db : Database;
  now : Date;
  faults : list bool;
  entropy : list byte;
  pg_entropy : list byte;
  trace : list Event
}.

Definition set_db (w : World) (d : Database) : World :=
  mkWorld d (now w) (faults w) (entropy w) (pg_entropy w) (trace w).

Definition emit (e : Event) (w : World) : World :=
  mkWorld (db w) (now w) (faults w) (entropy w) (pg_entropy w) (e :: trace w).

(** The external collaborators and the process environment. *)
Record Env : Type := mkEnv {
  env_BCRYPT_ROUNDS : option Z;
  env_MAX_LOGIN_ATTEMPTS : option Z;
  env_LOCKOUT_DURATION_MINUTES : option Z;
  env_EMAIL_VERIFICATION_EXPIRY_HOURS : option Z;
  env_PASSWORD_RESET_EXPIRY_HOURS : option Z;
  env_JWT_EXPIRES_IN : option string;
  bcrypt_hash : string -> Z -> list byte -> string;
  bcrypt_compare : string -> string -> bool;
  jwt_sign : string -> string -> Date -> string
}.

Definition BCRYPT_ROUNDS (E : Env) : Z := parseIntOr (env_BCRYPT_ROUNDS E) 10.
Definition MAX_LOGIN_ATTEMPTS (E : Env) : Z := parseIntOr (env_MAX_LOGIN_ATTEMPTS E) 5.
Definition LOCKOUT_DURATION_MINUTES (E : Env) : Z :=
  parseIntOr (env_LOCKOUT_DURATION_MINUTES E) 15.
Definition EMAIL_VERIFICATION_EXPIRY_HOURS (E : Env) : Z :=
  parseIntOr (env_EMAIL_VERIFICATION_EXPIRY_HOURS E) 24.
Definition TOKEN_EXPIRY_HOURS (E : Env) : Z :=
  parseIntOr (env_PASSWORD_RESET_EXPIRY_HOURS E) 1.
(** [process.env.JWT_EXPIRES_IN || '7d'] *)
Definition JWT_EXPIRES_IN (E : Env) : string :=
  match env_JWT_EXPIRES_IN E with
  | Some EmptyString => "7d"
  | Some s => s
  | None => "7d"
  end.

(** *** Promises: a computation returns or throws, and changes the world *)

Inductive Result (A : Type) : Type :=
| Ok (a : A)
| Throw (e : Error).
Arguments Ok {A} a.
Arguments Throw {A} e.

Definition M (A : Type) : Type := World -> Result A * World.

Definition ret {A : Type} (a : A) : M A := fun w => (Ok a, w).

Definition throw {A : Type} (e : Error) : M A := fun w => (Throw e, w).

Definition bind {A B : Type} (m : M A) (k : A -> M B) : M B :=
  fun w =>
    match m w with
    | (Ok a, w') => k a w'
    | (Throw e, w') => (Throw e, w')
    end.

(** [try { m } catch (error) { h(error) }] *)
Definition catch {A : Type} (m : M A) (h : Error -> M A) : M A :=
  fun w =>
    match m w with
    | (Ok a, w') => (Ok a, w')
    | (Throw e, w') => h e w'
    end.

Declare Scope promise_scope.
Delimit Scope promise_scope with promise.
Notation "x <- m ;; k" := (bind m (fun x => k))
  (at level 61, m at next level, right associativity) : promise_scope.
Notation "m ;; k" := (bind m (fun _ => k))
  (at level 61, right associativity) : promise_scope.
Local Open Scope promise_scope.

(** [new Date()] *)
Definition newDateNow : M Date := fun w => (Ok (now w), w).

Definition event (e : Event) : M unit := fun w => (Ok tt, emit e w).

Definition takeBytes (n : nat) (src : list byte) : list byte :=
  firstn n (src ++ repeat x00 n).

(** [crypto.randomBytes(n)] *)
Definition randomBytes (n : nat) : M (list byte) :=
  fun w =>
    (Ok (takeBytes n (entropy w)),
     mkWorld (db w) (now w) (faults w) (skipn n (entropy w)) (pg_entropy w) (trace w)).

(** [uuidv4()] *)
Definition uuidv4 : M string :=
  rnds <- randomBytes 16 ;; ret (uuidStringify (uuidStamp rnds)).

(** [uuid_generate_v4()], the default of every [id] column, drawn by the
    store. *)
Definition uuid_generate_v4 : M string :=
  fun w =>
    (Ok (uuidStringify (uuidStamp (takeBytes 16 (pg_entropy w)))),
     mkWorld (db w) (now w) (faults w) (entropy w) (skipn 16 (pg_entropy w)) (trace w)).

(** [query(text, params)] of config/database.js.  [run] is the meaning of
    the statement: from [CURRENT_TIMESTAMP] and the tables, either the
    error the store raises or the result and the tables after it. *)
Definition query {A : Type} (s : Statement)
    (run : Date -> Database -> Error + (A * Database)) : M A :=
  fun w =>
    let w1 := mkWorld (db w) (now w) (tl (faults w)) (entropy w) (pg_entropy w)
                      (Sql s :: trace w) in
    if hd false (faults w) then (Throw (PgError connection_failure), w1)
    else match run (now w) (db w) with
         | inl e => (Throw e, w1)
         | inr (a, d) => (Ok a, set_db w1 d)
         end.

(** [COALESCE(v, d)] *)
Definition COALESCE (v : option Z) (d : Z) : Z :=
  match v with Some n => n | None => d end.

(* ================================================================== *)
(** ** models/User.js *)

Record VerifyEmailResult : Type := mkVerifyEmailResult {
  success : bool;
  ve_reason : option string;
  ve_userId : option string;
  ve_email : option string
}.

Record LockStatus : Type := mkLockStatus {
  locked : bool;
  lockedUntil : option Date;
  remainingMinutes : option Z
}.

Record AttemptResult : Type := mkAttemptResult {
  ar_locked : bool;
  ar_attemptsRemaining : option Z;
  ar_lockedUntil : option Date
}.

Module User.

(** [SET password_hash = $1, updated_at = CURRENT_TIMESTAMP] *)
Definition set_password (h : string) (t : Date) (u : auth_user) : auth_user :=
  mkUser (id u) (email u) h (email_verified u) (email_verification_token u)
         (email_verification_expires u) (failed_login_attempts u) (locked_until u)
         (created_at u) t.

(** [SET email_verification_token = $1, email_verification_expires = $2,
     updated_at = CURRENT_TIMESTAMP] *)
Definition set_verification (tok : option string) (ex : option Date) (t : Date)
    (u : auth_user) : auth_user :=
  mkUser (id u) (email u) (password_hash u) (email_verified u) tok ex
         (failed_login_attempts u) (locked_until u) (created_at u) t.

(** [SET email_verified = TRUE, email_verification_token = NULL,
     email_verification_expires = NULL, updated_at = CURRENT_TIMESTAMP] *)
Definition set_verified (t : Date) (u : auth_user) : auth_user :=
  mkUser (id u) (email u) (password_hash u) true None None
         (failed_login_attempts u) (locked_until u) (created_at u) t.

(** [SET failed_login_attempts = COALESCE(failed_login_attempts, 0) + 1,
     updated_at = CURRENT_TIMESTAMP] *)
Definition increment_attempts (t : Date) (u : auth_user) : auth_user :=
  mkUser (id u) (email u) (password_hash u) (email_verified u)
         (email_verification_token u) (email_verification_expires u)
         (Some (COALESCE (failed_login_attempts u) 0 + 1)) (locked_until u)
         (created_at u) t.

(** [SET locked_until = $1, updated_at = CURRENT_TIMESTAMP] *)
Definition set_locked_until (lu : Date) (t : Date) (u : auth_user) : auth_user :=
  mkUser (id u) (email u) (password_hash u) (email_verified u)
         (email_verification_token u) (email_verification_expires u)
         (failed_login_attempts u) (Some lu) (created_at u) t.

(** [SET failed_login_attempts = 0, locked_until = NULL,
     updated_at = CURRENT_TIMESTAMP] *)
Definition clear_lockout (t : Date) (u : auth_user) : auth_user :=
  mkUser (id u) (email u) (password_hash u) (email_verified u)
         (email_verification_token u) (email_verification_expires u)
         (Some 0) None (created_at u) t.

Definition hasVerificationToken (tok : string) (u : auth_user) : bool :=
  match email_verification_token u with
  | Some t => (t =? tok)%string
  | None => false
  end.

(** The INSERT obeys the primary key and the unique index on [email];
    the other columns take their defaults. *)
Definition insertUser (row : auth_user) (d : Database) : Error + (auth_user * Database) :=
  if existsb (fun u => hasId (id row) u || (email u =? email row)%string) (auth_users d)
  then inl (PgError unique_violation)
  else inr (row, with_users d (auth_users d ++ [row])).

Definition create (E : Env) (mail password : string) : M auth_user :=
  catch
    (salt <- randomBytes 16 ;;
     event BcryptHash ;;
     let passwordHash := bcrypt_hash E password (BCRYPT_ROUNDS E) salt in
     uid <- uuid_generate_v4 ;;
     query InsertUser
       (fun t d => insertUser (mkUser uid (toLowerCase mail) passwordHash false None None
                                      (Some 0) None t t) d))
    (fun error =>
       match error with
       | PgError code =>
           if (code =? unique_violation)%string then throw (JsError "Email already exists")
           else throw error
       | _ => throw error
       end).

(** [DELETE FROM auth_users WHERE id = $1], with [ON DELETE CASCADE] on
    both token tables. *)
Definition delete (userId : string) : M unit :=
  query DeleteUser
    (fun _ d => inr (tt,
       mkDb (filter (fun u => negb (hasId userId u)) (auth_users d))
            (filter (fun r => negb (rt_user_id r =? userId)%string) (auth_refresh_tokens d))
            (filter (fun r => negb (pr_user_id r =? userId)%string)
                    (auth_password_resets d)))).

Definition findByEmail (e : string) : M (option auth_user) :=
  rows <- query SelectUserByEmail
            (fun _ d => inr (filter (fun u => (email u =? toLowerCase e)%string)
                                    (auth_users d), d)) ;;
  ret (hd_error rows).

Definition verifyPassword (E : Env) (password passwordHash : string) : M bool :=
  event BcryptCompare ;;
  ret (bcrypt_compare E password passwordHash).

Definition updatePassword (E : Env) (userId newPassword : string) : M unit :=
  salt <- randomBytes 16 ;;
  event BcryptHash ;;
  let passwordHash := bcrypt_hash E newPassword (BCRYPT_ROUNDS E) salt in
  query UpdatePasswordHash
    (fun t d => inr (tt, with_users d
       (updateWhere (hasId userId) (set_password passwordHash t) (auth_users d)))).

Definition generateEmailVerificationToken (E : Env) (userId : string) : M string :=
  bytes <- randomBytes 32 ;;
  let token := toHex bytes in
  d0 <- newDateNow ;;
  let expiresAt := addHours d0 (EMAIL_VERIFICATION_EXPIRY_HOURS E) in
  query UpdateVerificationToken
    (fun t d => inr (tt, with_users d
       (updateWhere (hasId userId) (set_verification (Some token) (Some expiresAt) t)
                    (auth_users d)))) ;;
  ret token.

Definition verifyEmail (token : string) : M VerifyEmailResult :=
  rows <- query SelectUserByVerificationToken
            (fun _ d => inr (filter (hasVerificationToken token) (auth_users d), d)) ;;
  match rows with
  | [] => ret (mkVerifyEmailResult false (Some "Invalid verification token") None None)
  | user :: _ =>
      if email_verified user then
        ret (mkVerifyEmailResult false (Some "Email already verified") None None)
      else
        d0 <- newDateNow ;;
        if newDate (email_verification_expires user) <? d0 then
          ret (mkVerifyEmailResult false (Some "Verification token has expired") None None)
        else
          query UpdateEmailVerified
            (fun t d => inr (tt, with_users d
               (updateWhere (hasId (id user)) (set_verified t) (auth_users d)))) ;;
          ret (mkVerifyEmailResult true None (Some (id user)) (Some (email user)))
  end.

(** [result.rows[0]?.email_verified ?? false] *)
Definition isEmailVerified (userId : string) : M bool :=
  rows <- query SelectEmailVerified
            (fun _ d => inr (map email_verified (filter (hasId userId) (auth_users d)), d)) ;;
  ret (match rows with v :: _ => v | [] => false end).

Definition isAccountLocked (userId : string) : M LockStatus :=
  rows <- query SelectLockedUntil
            (fun _ d => inr (map locked_until (filter (hasId userId) (auth_users d)), d)) ;;
  match rows with
  | [] => ret (mkLockStatus false None None)
  | None :: _ => ret (mkLockStatus false None None)
  | Some lu :: _ =>
      d0 <- newDateNow ;;
      if lu >? d0 then
        ret (mkLockStatus true (Some lu) (Some (ceilDiv (lu - d0) (1000 * 60))))
      else ret (mkLockStatus false None None)
  end.

Definition recordFailedLoginAttempt (E : Env) (userId : string) : M AttemptResult :=
  rows <- query UpdateIncrementFailedAttempts
            (fun t d =>
               let us := updateWhere (hasId userId) (increment_attempts t) (auth_users d) in
               inr (map failed_login_attempts (filter (hasId userId) us),
                    with_users d us)) ;;
  match rows with
  | [] => throw (TypeError
            "Cannot read properties of undefined (reading 'failed_login_attempts')")
  | row :: _ =>
      let attempts := COALESCE row 0 in
      if attempts >=? MAX_LOGIN_ATTEMPTS E then
        d0 <- newDateNow ;;
        let until := addMinutes d0 (LOCKOUT_DURATION_MINUTES E) in
        query UpdateLockedUntil
          (fun t d => inr (tt, with_users d
             (updateWhere (hasId userId) (set_locked_until until t) (auth_users d)))) ;;
        ret (mkAttemptResult true None (Some until))
      else
        let attemptsRemaining := MAX_LOGIN_ATTEMPTS E - attempts in
        ret (mkAttemptResult false (Some attemptsRemaining) None)
  end.

Definition resetFailedLoginAttempts (userId : string) : M unit :=
  query UpdateResetFailedAttempts
    (fun t d => inr (tt, with_users d
       (updateWhere (hasId userId) (clear_lockout t) (auth_users d)))).

Definition unlockAccount (userId : string) : M unit :=
  query UpdateResetFailedAttempts
    (fun t d => inr (tt, with_users d
       (updateWhere (hasId userId) (clear_lockout t) (auth_users d)))).

End User.

(* ================================================================== *)
(** ** models/PasswordReset.js *)

Record ValidateResult : Type := mkValidateResult {
  valid : bool;
  reason : option string;
  userId : option string;
  vr_email : option string
}.

(** A row of [auth_password_resets pr JOIN auth_users u ON pr.user_id = u.id]
    with the selected column [u.email]. *)
Definition joinUsers {A : Type} (owner : A -> string) (d : Database) (r : A)
    : list (A * string) :=
  map (fun u => (r, email u)) (filter (hasId (owner r)) (auth_users d)).

Module PasswordReset.

Definition set_used (r : password_reset) : password_reset :=
  mkReset (pr_id r) (pr_user_id r) (pr_token r) (pr_expires_at r) (pr_created_at r) true.

Definition hasToken (t : string) (r : password_reset) : bool := (pr_token r =? t)%string.

(** [WHERE user_id = $1 AND used = FALSE] *)
Definition unusedOf (uid : string) (r : password_reset) : bool :=
  (pr_user_id r =? uid)%string && negb (pr_used r).

(** [WHERE expires_at < CURRENT_TIMESTAMP] *)
Definition expiredAt (t : Date) (r : password_reset) : bool := pr_expires_at r <? t.

Definition invalidateForUser (userId : string) : M Z :=
  query UpdateResetUsedByUser
    (fun _ d => inr (rowCount (unusedOf userId) (auth_password_resets d),
                     with_resets d (updateWhere (unusedOf userId) set_used
                                                (auth_password_resets d)))).

(** The INSERT obeys the constraints of the table: the primary key and
    the token are unique, and [user_id] references an existing user. *)
Definition insertReset (row : password_reset) (d : Database)
    : Error + (password_reset * Database) :=
  if existsb (fun r => (pr_id r =? pr_id row)%string || hasToken (pr_token row) r)
             (auth_password_resets d)
  then inl (PgError unique_violation)
  else if existsb (hasId (pr_user_id row)) (auth_users d)
  then inr (row, with_resets d (auth_password_resets d ++ [row]))
  else inl (PgError foreign_key_violation).

Definition create (E : Env) (userId : string) : M password_reset :=
  invalidateForUser userId ;;
  bytes <- randomBytes 32 ;;
  let token := toHex bytes in
  d0 <- newDateNow ;;
  let expiresAt := addHours d0 (TOKEN_EXPIRY_HOURS E) in
  rid <- uuid_generate_v4 ;;
  query InsertPasswordReset
    (fun t d => insertReset (mkReset rid userId token expiresAt t false) d).

Definition findByToken (token : string) : M (option (password_reset * string)) :=
  rows <- query SelectPasswordResetByToken
            (fun _ d => inr (flat_map (joinUsers pr_user_id d)
                                      (filter (hasToken token) (auth_password_resets d)),
                             d)) ;;
  ret (hd_error rows).

Definition validateToken (token : string) : M ValidateResult :=
  found <- findByToken token ;;
  match found with
  | None => ret (mkValidateResult false (Some "Token not found") None None)
  | Some (resetToken, mail) =>
      if pr_used resetToken then
        ret (mkValidateResult false (Some "Token has already been used") None None)
      else
        d0 <- newDateNow ;;
        if pr_expires_at resetToken <? d0 then
          ret (mkValidateResult false (Some "Token has expired") None None)
        else
          ret (mkValidateResult true None (Some (pr_user_id resetToken)) (Some mail))
  end.

Definition markAsUsed (token : string) : M unit :=
  query UpdateResetUsedByToken
    (fun _ d => inr (tt, with_resets d (updateWhere (hasToken token) set_used
                                                    (auth_password_resets d)))).

Definition deleteExpired : M Z :=
  query DeleteExpiredPasswordResets
    (fun t d => inr (rowCount (expiredAt t) (auth_password_resets d),
                     with_resets d (filter (fun r => negb (expiredAt t r))
                                           (auth_password_resets d)))).

(** [created_at > NOW() - INTERVAL 'withinMinutes minutes'] *)
Definition getRecentRequestCount (userId : string) (withinMinutes : Z) : M Z :=
  query CountRecentPasswordResets
    (fun t d => inr (rowCount (fun r => (pr_user_id r =? userId)%string &&
                                        (pr_created_at r >? t - withinMinutes * msPerMinute))
                              (auth_password_resets d), d)).

End PasswordReset.

(* ================================================================== *)
(** ** models/RefreshToken.js *)

Module RefreshToken.

Definition set_revoked (r : refresh_token) : refresh_token :=
  mkRefresh (rt_id r) (rt_user_id r) (rt_token r) (rt_expires_at r) (rt_created_at r) true.

Definition hasToken (t : string) (r : refresh_token) : bool := (rt_token r =? t)%string.

(** [WHERE user_id = $1 AND revoked = FALSE] *)
Definition liveOf (uid : string) (r : refresh_token) : bool :=
  (rt_user_id r =? uid)%string && negb (rt_revoked r).

Definition insertRefresh (row : refresh_token) (d : Database)
    : Error + (refresh_token * Database) :=
  if existsb (fun r => (rt_id r =? rt_id row)%string || hasToken (rt_token row) r)
             (auth_refresh_tokens d)
  then inl (PgError unique_violation)
  else if existsb (hasId (rt_user_id row)) (auth_users d)
  then inr (row, with_refresh d (auth_refresh_tokens d ++ [row]))
  else inl (PgError foreign_key_violation).

Definition create (userId : string) (expiresInDays : Z) : M refresh_token :=
  token <- uuidv4 ;;
  d0 <- newDateNow ;;
  let expiresAt := addDays d0 expiresInDays in
  rid <- uuid_generate_v4 ;;
  query InsertRefreshToken
    (fun t d => insertRefresh (mkRefresh rid userId token expiresAt t false) d).

Definition findByToken (token : string) : M (option (refresh_token * string)) :=
  rows <- query SelectRefreshTokenByToken
            (fun _ d => inr (flat_map (joinUsers rt_user_id d)
                                      (filter (hasToken token) (auth_refresh_tokens d)),
                             d)) ;;
  ret (hd_error rows).

Definition revoke (token : string) : M unit :=
  query UpdateRevokedByToken
    (fun _ d => inr (tt, with_refresh d (updateWhere (hasToken token) set_revoked
                                                     (auth_refresh_tokens d)))).

Definition revokeAllForUser (userId : string) : M unit :=
  query UpdateRevokedByUser
    (fun _ d => inr (tt, with_refresh d (updateWhere (liveOf userId) set_revoked
                                                     (auth_refresh_tokens d)))).

Definition deleteExpired : M Z :=
  query DeleteExpiredRefreshTokens
    (fun t d => inr (rowCount (fun r => rt_expires_at r <? t) (auth_refresh_tokens d),
                     with_refresh d (filter (fun r => negb (rt_expires_at r <? t))
                                            (auth_refresh_tokens d)))).

End RefreshToken.

(* ================================================================== *)
(** ** utils/jwt.js and utils/email.js *)

(** [generateAccessToken(generateTokenPayload(user))] *)
Definition generateAccessToken (E : Env) (uid mail : string) : M string :=
  d0 <- newDateNow ;; ret (jwt_sign E uid mail d0).

(** [sendEmail] catches every failure of the delivery and returns a
    boolean the routes ignore. *)
Definition sendAccountLockedEmail (to : string) (lockoutMinutes : Z) : M unit :=
  event (Mail "Account Temporarily Locked" to).

Definition sendPasswordResetEmail (to token : string) : M unit :=
  event (Mail "Reset Your Password" to).

Definition sendEmailVerificationEmail (to token : string) : M unit :=
  event (Mail "Verify Your Email Address" to).

(* ================================================================== *)
(** ** routes/auth.js *)

Unset Elimination Schemes.
Inductive Json : Type :=
| JString (s : string)
| JNumber (n : Z)
| JBool (b : bool)
| JObject (fields : list (string * Json)).
Set Elimination Schemes.

Record Response : Type := mkResponse {
  status : Z;
  body : list (string * Json)
}.

(** [errorHandler]: the body of a failed request (the correlation id
    echoes a request header and is left out). *)
Definition errorResponse (e : Error) : Response :=
  mkResponse (errorStatus e)
    [("error", JString (errorMessage e)); ("statusCode", JNumber (errorStatus e))].

(** [asyncHandler(fn)] followed by [errorHandler]. *)
Definition serve (h : M Response) (w : World) : Response * World :=
  match h w with
  | (Ok r, w') => (r, w')
  | (Throw e, w') => (errorResponse e, w')
  end.

Module Routes.

(** POST /auth/signin *)
Definition signin (E : Env) (reqEmail reqPassword : string) : M Response :=
  found <- User.findByEmail reqEmail ;;
  match found with
  | None => throw (UnauthorizedError "Invalid email or password")
  | Some user =>
      lockStatus <- User.isAccountLocked (id user) ;;
      if locked lockStatus then
        throw (TooManyRequestsError
                 ("Account is locked. Try again in " ++
                  match remainingMinutes lockStatus with
                  | Some m => numberToString m
                  | None => "undefined"
                  end ++ " minutes."))
      else
        isValidPassword <- User.verifyPassword E reqPassword (password_hash user) ;;
        if negb isValidPassword then
          attemptResult <- User.recordFailedLoginAttempt E (id user) ;;
          if ar_locked attemptResult then
            sendAccountLockedEmail reqEmail (LOCKOUT_DURATION_MINUTES E) ;;
            throw (TooManyRequestsError
                     ("Account locked due to too many failed attempts. Try again in " ++
                      numberToString (LOCKOUT_DURATION_MINUTES E) ++ " minutes."))
          else
            throw (UnauthorizedError
                     ("Invalid email or password. " ++
                      match ar_attemptsRemaining attemptResult with
                      | Some n => numberToString n
                      | None => "undefined"
                      end ++ " attempts remaining."))
        else
          User.resetFailedLoginAttempts (id user) ;;
          accessToken <- generateAccessToken E (id user) (email user) ;;
          refreshToken <- RefreshToken.create (id user) 30 ;;
          emailVerified <- User.isEmailVerified (id user) ;;
          ret (mkResponse 200
                 [("message", JString "Login successful");
                  ("user", JObject [("id", JString (id user));
                                    ("email", JString (email user));
                                    ("emailVerified", JBool emailVerified)]);
                  ("accessToken", JString accessToken);
                  ("refreshToken", JString (rt_token refreshToken));
                  ("expiresIn", JString (JWT_EXPIRES_IN E))])
  end.

Definition forgotPasswordAck : Response :=
  mkResponse 200
    [("message",
      JString "If an account exists with this email, a password reset link has been sent.")].

(** POST /auth/forgot-password *)
Definition forgotPassword (E : Env) (reqEmail : string) : M Response :=
  found <- User.findByEmail reqEmail ;;
  match found with
  | None => ret forgotPasswordAck
  | Some user =>
      recentRequests <- PasswordReset.getRecentRequestCount (id user) 60 ;;
      if recentRequests >=? 3 then ret forgotPasswordAck
      else
        resetToken <- PasswordReset.create E (id user) ;;
        sendPasswordResetEmail reqEmail (pr_token resetToken) ;;
        ret forgotPasswordAck
  end.

(** POST /auth/reset-password *)
Definition resetPassword (E : Env) (token password : string) : M Response :=
  validation <- PasswordReset.validateToken token ;;
  if negb (valid validation) then
    throw (BadRequestError (match reason validation with
                            | Some r => r
                            | None => "Bad Request"
                            end))
  else
    match userId validation with
    | None => throw (TypeError "userId is undefined") (* a valid result carries userId *)
    | Some uid =>
        User.updatePassword E uid password ;;
        PasswordReset.markAsUsed token ;;
        RefreshToken.revokeAllForUser uid ;;
        User.resetFailedLoginAttempts uid ;;
        ret (mkResponse 200
               [("message",
                 JString "Password has been reset successfully. Please sign in with your new password.")])
    end.

(** POST /auth/signout *)
Definition signout (refreshToken : string) : M Response :=
  RefreshToken.revoke refreshToken ;;
  ret (mkResponse 200 [("message", JString "Signed out successfully")]).

(** POST /auth/signup (a date in a body is printed as its milliseconds) *)
Definition signup (E : Env) (reqEmail reqPassword : string) : M Response :=
  existingUser <- User.findByEmail reqEmail ;;
  match existingUser with
  | Some _ => throw (ConflictError "Email already registered")
  | None =>
      user <- User.create E reqEmail reqPassword ;;
      verificationToken <- User.generateEmailVerificationToken E (id user) ;;
      sendEmailVerificationEmail reqEmail verificationToken ;;
      accessToken <- generateAccessToken E (id user) (email user) ;;
      refreshToken <- RefreshToken.create (id user) 30 ;;
      ret (mkResponse 201
             [("message",
               JString "User registered successfully. Please check your email to verify your account.");
              ("user", JObject [("id", JString (id user));
                                ("email", JString (email user));
                                ("emailVerified", JBool false);
                                ("createdAt", JNumber (created_at user))]);
              ("accessToken", JString accessToken);
              ("refreshToken", JString (rt_token refreshToken));
              ("expiresIn", JString (JWT_EXPIRES_IN E))])
  end.

(** POST /auth/refresh *)
Definition refresh (E : Env) (tokenString : string) : M Response :=
  found <- RefreshToken.findByToken tokenString ;;
  match found with
  | None => throw (UnauthorizedError "Invalid refresh token")
  | Some (refreshToken, mail) =>
      if rt_revoked refreshToken then
        throw (UnauthorizedError "Refresh token has been revoked")
      else
        d0 <- newDateNow ;;
        if rt_expires_at refreshToken <? d0 then
          throw (UnauthorizedError "Refresh token has expired")
        else
          accessToken <- generateAccessToken E (rt_user_id refreshToken) mail ;;
          ret (mkResponse 200
                 [("message", JString "Token refreshed successfully");
                  ("accessToken", JString accessToken);
                  ("expiresIn", JString (JWT_EXPIRES_IN E))])
  end.

(** POST /auth/signout-all *)
Definition signoutAll (userId : string) : M Response :=
  RefreshToken.revokeAllForUser userId ;;
  ret (mkResponse 200 [("message", JString "Signed out from all devices successfully")]).

(** POST /auth/validate-reset-token; a field that is [undefined] is not
    printed. *)
Definition validateResetToken (token : string) : M Response :=
  validation <- PasswordReset.validateToken token ;;
  ret (mkResponse 200
         (("valid", JBool (valid validation)) ::
          (if valid validation then []
           else match reason validation with
                | Some r => [("reason", JString r)]
                | None => []
                end))).

(** POST /auth/verify-email *)
Definition verifyEmail (token : string) : M Response :=
  result <- User.verifyEmail token ;;
  if negb (success result) then
    throw (BadRequestError (match ve_reason result with
                            | Some r => r
                            | None => "Bad Request"
                            end))
  else
    ret (mkResponse 200
           (("message", JString "Email verified successfully.") ::
            match ve_email result with
            | Some e => [("email", JString e)]
            | None => []
            end)).

Definition resendVerificationAck : Response :=
  mkResponse 200
    [("message",
      JString "If an account exists with this email, a verification link has been sent.")].

(** POST /auth/resend-verification *)
Definition resendVerification (E : Env) (reqEmail : string) : M Response :=
  found <- User.findByEmail reqEmail ;;
  match found with
  | None => ret resendVerificationAck
  | Some user =>
      isVerified <- User.isEmailVerified (id user) ;;
      if isVerified then
        ret (mkResponse 200 [("message", JString "Email is already verified.");
                             ("alreadyVerified", JBool true)])
      else
        verificationToken <- User.generateEmailVerificationToken E (id user) ;;
        sendEmailVerificationEmail reqEmail verificationToken ;;
        ret resendVerificationAck
  end.

End Routes.

(* ================================================================== *)
(** ** index.js: the hourly cleanup *)

(** The body of the [setInterval] callback: an error of either delete is
    logged and dropped. *)
Definition cleanupExpiredTokens : M unit :=
  catch (RefreshToken.deleteExpired ;; PasswordReset.deleteExpired ;; ret tt)
        (fun _ => ret tt).

(* ================================================================== *)
(** ** utils/jwt.js: the helpers that do not verify *)

Module Jwt.

(** [authHeader.startsWith('Bearer ')] then [authHeader.substring(7)];
    a missing header is [None]. *)
Definition extractTokenFromHeader (authHeader : option string) : option string :=
  match authHeader with
  | None => None
  | Some h =>
      if String.prefix "Bearer " h then Some (substring 7 (String.length h - 7) h)
      else None
  end.

(** [isTokenExpired], over what [jwt.decode] gives for the token: nothing,
    or a payload with or without an [exp] claim (in seconds).  A claim
    that is 0 is falsy. *)
Definition isTokenExpired (decoded : option (option Z)) (nowMs : Date) : bool :=
  match decoded with
  | None => true
  | Some None => true
  | Some (Some exp) =>
      if exp =? 0 then true else exp <? nowMs / 1000
  end.

(** [getTokenExpiration] *)
Definition getTokenExpiration (decoded : option (option Z)) : option Date :=
  match decoded with
  | None => None
  | Some None => None
  | Some (Some exp) => if exp =? 0 then None else Some (exp * 1000)
  end.

End Jwt.

(* ================================================================== *)
(** ** A stand-in for the external collaborators, to run examples *)

(** The hash keeps the password readable after a salt prefix; only the
    examples use it, every theorem holds for any [Env]. *)
Definition exampleEnv : Env :=
  mkEnv None None None None None None
    (fun p _ salt => "$2a$" ++ toHex (firstn 2 salt) ++ "$" ++ p)
    (fun p h => (substring 9 (String.length h) h =? p)%string)
    (fun u e _ => "jwt." ++ u ++ "." ++ e).

Definition alice (attempts : option Z) (until : option Date) : auth_user :=
  mkUser "u1" "alice@example.com" "$2a$0000$Secret123" false None None
         attempts until 0 0.

Definition worldOf (d : Database) (t : Date) (fs : list bool) : World :=
  mkWorld d t fs [x01; x02; xff] [] [].

(* ================================================================== *)
(** ** Vocabulary of the properties *)

(** [id] is the primary key of [auth_users]. *)
Definition primaryKey (d : Database) : Prop := NoDup (map id (auth_users d)).

(** [user_id] of every reset token references a stored user
    ([REFERENCES auth_users(id) ON DELETE CASCADE]). *)
Definition resetsReferUsers (d : Database) : Prop :=
  forall r, In r (auth_password_resets d) ->
            existsb (hasId (pr_user_id r)) (auth_users d) = true.

(** The lockout state is derived: a credential is locked at [t] while
    [t] is before its [locked_until]. *)
Definition lockedAt (t : Date) (u : auth_user) : bool :=
  match locked_until u with
  | Some lu => t <? lu
  | None => false
  end.

(** The property that the lock is written by the update that increments
    the counter: in the world a failed attempt leaves behind, a counter
    that was incremented up to the threshold comes with the lock. *)
Definition lockSetWithIncrement (E : Env) (uid : string) (w : World) : Prop :=
  forall u u',
    userById uid (db w) = Some u ->
    userById uid (db (snd (User.recordFailedLoginAttempt E uid w))) = Some u' ->
    failed_login_attempts u' = Some (COALESCE (failed_login_attempts u) 0 + 1) ->
    MAX_LOGIN_ATTEMPTS E <= COALESCE (failed_login_attempts u) 0 + 1 ->
    locked_until u' = Some (addMinutes (now w) (LOCKOUT_DURATION_MINUTES E)).

(** What the pre-check answers for a stored credential. *)
Definition lockStatusOf (t : Date) (u : auth_user) : LockStatus :=
  match locked_until u with
  | Some lu =>
      if lu >? t then mkLockStatus true (Some lu) (Some (ceilDiv (lu - t) 60000))
      else mkLockStatus false None None
  | None => mkLockStatus false None None
  end.


(** A credential that carries a lock carries a counter at or above the
    threshold. *)
Definition lockImpliesThreshold (E : Env) (d : Database) : Prop :=
  forall u, In u (auth_users d) -> locked_until u <> None ->
            MAX_LOGIN_ATTEMPTS E <= COALESCE (failed_login_attempts u) 0.

(** The operations of the user model. *)
Inductive UserOp : Type :=
| OpUserCreate (mail password : string)
| OpUserDelete (userId : string)
| OpFindByEmail (mail : string)
| OpVerifyPassword (password passwordHash : string)
| OpUpdatePassword (userId newPassword : string)
| OpGenerateEmailVerificationToken (userId : string)
| OpVerifyEmail (token : string)
| OpIsEmailVerified (userId : string)
| OpIsAccountLocked (userId : string)
| OpRecordFailedLoginAttempt (userId : string)
| OpResetFailedLoginAttempts (userId : string)
| OpUnlockAccount (userId : string).

Definition runUserOp (E : Env) (op : UserOp) (w : World) : World :=
  match op with
  | OpUserCreate m p => snd (User.create E m p w)
  | OpUserDelete uid => snd (User.delete uid w)
  | OpFindByEmail m => snd (User.findByEmail m w)
  | OpVerifyPassword p h => snd (User.verifyPassword E p h w)
  | OpUpdatePassword uid p => snd (User.updatePassword E uid p w)
  | OpGenerateEmailVerificationToken uid => snd (User.generateEmailVerificationToken E uid w)
  | OpVerifyEmail t => snd (User.verifyEmail t w)
  | OpIsEmailVerified uid => snd (User.isEmailVerified uid w)
  | OpIsAccountLocked uid => snd (User.isAccountLocked uid w)
  | OpRecordFailedLoginAttempt uid => snd (User.recordFailedLoginAttempt E uid w)
  | OpResetFailedLoginAttempts uid => snd (User.resetFailedLoginAttempts uid w)
  | OpUnlockAccount uid => snd (User.unlockAccount uid w)
  end.

(** The states of [auth_users] the service can be in under one
    configuration, when the operations of the user model run one after
    the other: the empty table, and what an operation leaves behind when
    run at any time, with any entropy and any behaviour of the store;
    statements on the token tables do not touch it. *)
Inductive usersReachable (E : Env) : Database -> Prop :=
| users_empty (d : Database) :
    auth_users d = [] -> usersReachable E d
| users_op (op : UserOp) (w : World) :
    usersReachable E (db w) -> usersReachable E (db (runUserOp E op w))
| users_other (d d' : Database) :
    usersReachable E d ->
    auth_users d' = auth_users d ->
    usersReachable E d'.

(** A reset token is usable at [t] when it is unused and unexpired. *)
Definition usableAt (t : Date) (uid : string) (r : password_reset) : bool :=
  (pr_user_id r =? uid)%string && negb (pr_used r) && negb (pr_expires_at r <? t).

Definition atMostOneUsable (d : Database) : Prop :=
  forall uid t, (List.length (filter (usableAt t uid) (auth_password_resets d)) <= 1)%nat.

Definition atMostOneUnused (d : Database) : Prop :=
  forall uid, (List.length (filter (PasswordReset.unusedOf uid) (auth_password_resets d)) <= 1)%nat.

(** The operations of the password reset model. *)
Inductive ResetOp : Type :=
| OpCreate (userId : string)
| OpFindByToken (token : string)
| OpValidateToken (token : string)
| OpMarkAsUsed (token : string)
| OpInvalidateForUser (userId : string)
| OpDeleteExpired
| OpGetRecentRequestCount (userId : string) (withinMinutes : Z).

Definition runResetOp (E : Env) (op : ResetOp) (w : World) : World :=
  match op with
  | OpCreate uid => snd (PasswordReset.create E uid w)
  | OpFindByToken t => snd (PasswordReset.findByToken t w)
  | OpValidateToken t => snd (PasswordReset.validateToken t w)
  | OpMarkAsUsed t => snd (PasswordReset.markAsUsed t w)
  | OpInvalidateForUser uid => snd (PasswordReset.invalidateForUser uid w)
  | OpDeleteExpired => snd (PasswordReset.deleteExpired w)
  | OpGetRecentRequestCount uid m => snd (PasswordReset.getRecentRequestCount uid m w)
  end.

(** The states of [auth_password_resets] the service can be in when its
    operations run one after the other: the empty table, and what an
    operation of the model leaves behind when run at any time, with any
    entropy and any behaviour of the store; statements on the other
    tables do not touch it. *)
Inductive resetsReachable (E : Env) : Database -> Prop :=
| reach_empty (d : Database) :
    auth_password_resets d = [] -> resetsReachable E d
| reach_op (op : ResetOp) (w : World) :
    resetsReachable E (db w) -> resetsReachable E (db (runResetOp E op w))
| reach_other (d d' : Database) :
    resetsReachable E d ->
    auth_password_resets d' = auth_password_resets d ->
    resetsReachable E d'.

Definition notFound : ValidateResult :=
  mkValidateResult false (Some "Token not found") None None.
Definition alreadyUsed : ValidateResult :=
  mkValidateResult false (Some "Token has already been used") None None.
Definition expired : ValidateResult :=
  mkValidateResult false (Some "Token has expired") None None.

(** The row [PasswordReset.create] inserts for a credential: a fresh
    id, the hex of 32 random bytes, the expiry, unused. *)
Definition newResetRow (E : Env) (uid : string) (w : World) : password_reset :=
  mkReset (uuidStringify (uuidStamp (takeBytes 16 (pg_entropy w)))) uid
          (toHex (takeBytes 32 (entropy w)))
          (addHours (now w) (TOKEN_EXPIRY_HOURS E)) (now w) false.

(** The property that consuming a reset token is one atomic unit: in the
    world the route leaves behind, either the token is used and the
    owner carries the new hash, or the token and the hash are both as
    they were. *)
Definition resetAllOrNothing (E : Env) (token pw : string) (w : World) : Prop :=
  let h := bcrypt_hash E pw (BCRYPT_ROUNDS E) (takeBytes 16 (entropy w)) in
  let d' := db (snd (Routes.resetPassword E token pw w)) in
  forall r u r' u',
    resetByToken token (db w) = Some r ->
    userById (pr_user_id r) (db w) = Some u ->
    resetByToken token d' = Some r' ->
    userById (pr_user_id r) d' = Some u' ->
    (pr_used r' = true /\ password_hash u' = h) \/
    (pr_used r' = pr_used r /\ password_hash u' = password_hash u).

Definition invalidToken : VerifyEmailResult :=
  mkVerifyEmailResult false (Some "Invalid verification token") None None.
Definition alreadyVerified : VerifyEmailResult :=
  mkVerifyEmailResult false (Some "Email already verified") None None.
Definition verificationExpired : VerifyEmailResult :=
  mkVerifyEmailResult false (Some "Verification token has expired") None None.

(** The first stored credential that holds a verification token. *)
Definition userByVerificationToken (tok : string) (d : Database) : option auth_user :=
  find (User.hasVerificationToken tok) (auth_users d).

(** A credential after a successful verification. *)
Definition verifiedAndCleared (u : auth_user) : Prop :=
  email_verified u = true /\
  email_verification_token u = None /\
  email_verification_expires u = None.

(** Reading a hex string back. *)
Definition hexValue (c : ascii) : N :=
  let n := N_of_ascii c in (if n <? 58 then n - 48 else n - 87)%N.

Fixpoint fromHexChars (l : list ascii) : list byte :=
  match l with
  | a :: b :: r => byteOfN (16 * hexValue a + hexValue b) :: fromHexChars r
  | _ => []
  end.

(** The property that every refresh token is an opaque 256-bit hex
    string. *)
Definition refreshTokensAreHex256 : Prop :=
  forall uid days w r w',
    RefreshToken.create uid days w = (Ok r, w') -> isHex256 (rt_token r) = true.

(** The world of a later request: the tables the earlier requests left,
    at the time [t], with a store that answers. *)
Definition at_time (t : Date) (w : World) : World :=
  mkWorld (db w) t [] (entropy w) (pg_entropy w) (trace w).

(** Sign-in requests with the same body at the times [ts], one after the
    other. *)
Definition signinsAt (E : Env) (e pw : string) (ts : list Date) (w : World) : World :=
  fold_left (fun v t => snd (Routes.signin E e pw (at_time t v))) ts w.

(** The reset tokens of a credential made in the last [withinMinutes]
    minutes before [t], as [PasswordReset.getRecentRequestCount] counts
    them. *)
Definition recentRequests (uid : string) (withinMinutes : Z) (t : Date) (d : Database) : Z :=
  rowCount (fun r => (pr_user_id r =? uid)%string &&
                     (pr_created_at r >? t - withinMinutes * msPerMinute))
           (auth_password_resets d).

(** A Hoare triple over the tables: from tables that satisfy [P], the
    computation leaves tables that satisfy [Q a] when it returns [a]
    and [R] when it throws, at any time, with any entropy and any
    behaviour of the store. *)
Definition triple {A : Type} (P : Database -> Prop) (m : M A)
    (Q : A -> Database -> Prop) (R : Database -> Prop) : Prop :=
  forall w, P (db w) ->
    match m w with
    | (Ok a, w') => Q a (db w')
    | (Throw _, w') => R (db w')
    end.

Definition keeps {A : Type} (P : Database -> Prop) (m : M A) : Prop :=
  triple P m (fun _ => P) P.

(** A verified credential holds no verification token. *)
Definition verifiedHoldsNoToken (d : Database) : Prop :=
  forall u, In u (auth_users d) ->
            email_verified u = true -> email_verification_token u = None.

(** No row with this id is verified. *)
Definition unverifiedId (uid : string) (d : Database) : Prop :=
  forall u, In u (auth_users d) -> id u = uid -> email_verified u = false.

Definition credentialsInv (d : Database) : Prop :=
  primaryKey d /\ verifiedHoldsNoToken d.

(** The requests the service answers and its hourly job. *)
Inductive Request : Type :=
| PostSignup (mail password : string)
| PostSignin (mail password : string)
| PostRefresh (refreshToken : string)
| PostSignout (refreshToken : string)
| PostSignoutAll (userId : string)
| PostForgotPassword (mail : string)
| PostResetPassword (token password : string)
| PostValidateResetToken (token : string)
| PostVerifyEmail (token : string)
| PostResendVerification (mail : string)
| HourlyCleanup.

Definition handle (E : Env) (r : Request) (w : World) : World :=
  match r with
  | PostSignup m p => snd (Routes.signup E m p w)
  | PostSignin m p => snd (Routes.signin E m p w)
  | PostRefresh t => snd (Routes.refresh E t w)
  | PostSignout t => snd (Routes.signout t w)
  | PostSignoutAll uid => snd (Routes.signoutAll uid w)
  | PostForgotPassword m => snd (Routes.forgotPassword E m w)
  | PostResetPassword t p => snd (Routes.resetPassword E t p w)
  | PostValidateResetToken t => snd (Routes.validateResetToken t w)
  | PostVerifyEmail t => snd (Routes.verifyEmail t w)
  | PostResendVerification m => snd (Routes.resendVerification E m w)
  | HourlyCleanup => snd (cleanupExpiredTokens w)
  end.

(** The tables the service can hold when it starts from empty tables
    and serves requests one after the other, each at any time, with any
    entropy and any behaviour of the store. *)
Inductive served (E : Env) : Database -> Prop :=
| served_fresh : served E emptyDb
| served_next (r : Request) (w : World) :
    served E (db w) -> served E (db (handle E r w)).

(** The credential with this id is stored and verified. *)
Definition verifiedId (uid : string) (d : Database) : Prop :=
  (exists u, In u (auth_users d) /\ id u = uid) /\
  forall u, In u (auth_users d) -> id u = uid -> email_verified u = true.

(** The tables some requests later. *)
Inductive later (E : Env) (d : Database) : Database -> Prop :=
| later_now : later E d d
| later_next (r : Request) (w : World) :
    later E d (db w) -> later E d (db (handle E r w)).

(* ------------------------------------------------------------------ *)
(** *** Statements that are committed one by one *)

(** How many of the first [n] statements of a request the store answers
    before the first one it fails. *)
Fixpoint answered (n : nat) (fs : list bool) : nat :=
  match n with
  | O => O
  | S n' =>
      match fs with
      | true :: _ => O
      | false :: fs' => S (answered n' fs')
      | [] => n
      end
  end.

(** The four writes of POST /auth/reset-password after the validation,
    each a call that sends one statement. *)
Definition resetWrites (E : Env) (uid token pw : string) : list (M unit) :=
  [User.updatePassword E uid pw;
   PasswordReset.markAsUsed token;
   RefreshToken.revokeAllForUser uid;
   User.resetFailedLoginAttempts uid].

(** The calls [ms] run one after the other in a store that answers. *)
Definition committedAfter (ms : list (M unit)) (w : World) : World :=
  fold_left (fun v m => snd (m (at_time (now v) v))) ms w.

(* ------------------------------------------------------------------ *)
(** *** Requests whose statements interleave

    Every [await] of a request lets the statements of another request
    through.  The definitions below name what a function does after one
    of its awaits, so that a statement of another request can be run at
    that point. *)

(** [PasswordReset.create] after the invalidating UPDATE was answered:
    the token is drawn and the INSERT is sent. *)
Definition createAfterInvalidate (E : Env) (userId : string) : M password_reset :=
  bytes <- randomBytes 32 ;;
  let token := toHex bytes in
  d0 <- newDateNow ;;
  let expiresAt := addHours d0 (TOKEN_EXPIRY_HOURS E) in
  rid <- uuid_generate_v4 ;;
  query InsertPasswordReset
    (fun t d => PasswordReset.insertReset (mkReset rid userId token expiresAt t false) d).

(** Two requests for a reset token of one credential: the invalidating
    UPDATE of the second is answered before the INSERT of the first is
    sent. *)
Definition createsInterleaved (E : Env) (uid : string) (w : World) : World :=
  let w1 := snd (PasswordReset.invalidateForUser uid w) in
  let w2 := snd (PasswordReset.invalidateForUser uid w1) in
  let w3 := snd (createAfterInvalidate E uid w2) in
  snd (createAfterInvalidate E uid w3).

(** The first statement of [User.recordFailedLoginAttempt]. *)
Definition incrementFailedAttempts (userId : string) : M (list (option Z)) :=
  query UpdateIncrementFailedAttempts
    (fun t d =>
       let us := updateWhere (hasId userId) (User.increment_attempts t) (auth_users d) in
       inr (map failed_login_attempts (filter (hasId userId) us), with_users d us)).

(** [User.recordFailedLoginAttempt] after the increment was answered
    with [rows]. *)
Definition lockAfterIncrement (E : Env) (userId : string) (rows : list (option Z))
    : M AttemptResult :=
  match rows with
  | [] => throw (TypeError
            "Cannot read properties of undefined (reading 'failed_login_attempts')")
  | row :: _ =>
      let attempts := COALESCE row 0 in
      if attempts >=? MAX_LOGIN_ATTEMPTS E then
        d0 <- newDateNow ;;
        let until := addMinutes d0 (LOCKOUT_DURATION_MINUTES E) in
        query UpdateLockedUntil
          (fun t d => inr (tt, with_users d
             (updateWhere (hasId userId) (User.set_locked_until until t) (auth_users d)))) ;;
        ret (mkAttemptResult true None (Some until))
      else
        let attemptsRemaining := MAX_LOGIN_ATTEMPTS E - attempts in
        ret (mkAttemptResult false (Some attemptsRemaining) None)
  end.

(** A failed attempt of one request, with the reset of the counter that
    a successful sign-in of another request sends answered between its
    two statements. *)
Definition failedAttemptWithResetBetween (E : Env) (uid : string) (w : World) : World :=
  match incrementFailedAttempts uid w with
  | (Ok rows, w1) =>
      let w2 := snd (User.resetFailedLoginAttempts uid w1) in
      snd (lockAfterIncrement E uid rows w2)
  | (Throw _, w1) => w1
  end.

(** POST /auth/resend-verification after [User.isEmailVerified]
    answered. *)
Definition resendAfterCheck (E : Env) (reqEmail : string) (user : auth_user)
    (isVerified : bool) : M Response :=
  if isVerified then
    ret (mkResponse 200 [("message", JString "Email is already verified.");
                         ("alreadyVerified", JBool true)])
  else
    verificationToken <- User.generateEmailVerificationToken E (id user) ;;
    sendEmailVerificationEmail reqEmail verificationToken ;;
    ret Routes.resendVerificationAck.

(** A resend-verification request with a whole verify-email request
    served between its check and its UPDATE. *)
Definition resendWithVerifyBetween (E : Env) (reqEmail tok : string) (w : World)
    : Result Response * World :=
  match User.findByEmail reqEmail w with
  | (Ok (Some user), w1) =>
      match User.isEmailVerified (id user) w1 with
      | (Ok isVerified, w2) =>
          resendAfterCheck E reqEmail user isVerified (snd (Routes.verifyEmail tok w2))
      | (Throw e, w2) => (Throw e, w2)
      end
  | (Ok None, w1) => (Ok Routes.resendVerificationAck, w1)
  | (Throw e, w1) => (Throw e, w1)
  end.

(* ------------------------------------------------------------------ *)
(** *** Ids as the store prints them *)

(** The text in which the store prints a [uuid]: 8-4-4-4-12 lower-case
    hexadecimal digits.  The tables hold ids as text; a parameter that is
    compared with a [uuid] column is equal to a stored id as [uuid]
    exactly when it is equal to it as text, provided both are in this
    form. *)
Definition isUuidText (s : string) : bool :=
  let cs := list_ascii_of_string s in
  (List.length cs =? 36)%nat &&
  forallb (fun ic : nat * ascii =>
             let (i, c) := ic in
             if existsb (Nat.eqb i) [8; 13; 18; 23]%nat then Ascii.eqb c "-"%char
             else isHexDigit c)
          (combine (seq 0 36) cs).
(* ================================================================== *)
(** ** Worlds of the examples *)

Definition threeFailuresWorld : World :=
  worldOf (mkDb [alice (Some 3) None] [] []) 1000 [].

Definition lockedWorld : World :=
  worldOf (mkDb [alice (Some 5) (Some 901000)] [] []) 2000 [].

Definition signinWorld : World :=
  worldOf (mkDb [alice (Some 0) None] [] []) 1000 [].

(** A sign-up followed by five wrong passwords at time 1000, and the
    clock moved past the end of the lock. *)
Definition lapsedId : string := "00000000-0000-4000-8000-000000000000".

Definition lapsedHistory : list UserOp :=
  OpUserCreate "Alice@Example.com" "Secret123" ::
  repeat (OpRecordFailedLoginAttempt lapsedId) 5.

Definition lapsedAlice : auth_user :=
  mkUser lapsedId "alice@example.com" "$2a$0102$Secret123" false None None
         (Some 5) (Some 901000) 1000 1000.

Definition lapsedWorld : World := mkWorld (mkDb [lapsedAlice] [] []) 2000000 [] [] [] [].

Definition resetRow (tok : string) (expires : Date) (used : bool) : password_reset :=
  mkReset ("id-" ++ tok) "u1" tok expires 0 used.

Definition usedExpiredWorld : World :=
  worldOf (mkDb [alice (Some 0) None] [] [resetRow "tokA" 500 true]) 1000 [].

Definition pendingResetWorld : World :=
  worldOf (mkDb [alice (Some 0) None] [] [resetRow "tokA" 5000 false]) 1000 [].

Definition resetDb : Database :=
  mkDb [alice (Some 3) None]
       [mkRefresh "s1" "u1" "0e0e0e0e-0000-4000-8000-000000000001" 9000 0 false]
       [resetRow "tokA" 5000 false].

Definition resetWorld : World := worldOf resetDb 1000 [].

(** The store raises at the third statement of the request. *)
Definition resetFaultWorld : World := worldOf resetDb 1000 [false; false; true].

Definition pendingUser : auth_user :=
  mkUser "u2" "carol@example.com" "$2a$0000$Secret123" false
         (Some "c0ffee") (Some 90000) (Some 0) None 0 0.

Definition pendingVerificationWorld : World := worldOf (mkDb [pendingUser] [] []) 1000 [].

Definition session (tok : string) (revoked : bool) : refresh_token :=
  mkRefresh ("id-" ++ tok) "u1" tok 9000 0 revoked.

Definition sessionsWorld : World :=
  worldOf (mkDb [alice (Some 0) None]
                [session "0e0e0e0e-0000-4000-8000-000000000001" false;
                 session "0e0e0e0e-0000-4000-8000-000000000002" false] [])
          1000 [].

Definition freshWorld : World := worldOf (mkDb [alice (Some 0) None] [] []) 1000 [].


(** Tokens around the time 1000: expired, expiring now, and live. *)
Definition reapWorld : World :=
  worldOf (mkDb [alice (Some 0) None]
                [mkRefresh "s1" "u1" "0e0e0e0e-0000-4000-8000-000000000001" 999 0 false;
                 mkRefresh "s2" "u1" "0e0e0e0e-0000-4000-8000-000000000002" 1000 0 true;
                 mkRefresh "s3" "u1" "0e0e0e0e-0000-4000-8000-000000000003" 9000 0 false]
                [resetRow "tokA" 500 false; resetRow "tokB" 1000 true;
                 resetRow "tokC" 5000 false])
          1000 [].

(** A credential whose lock ended at 500, seen at 1000. *)
Definition lapsedLoginWorld : World :=
  worldOf (mkDb [alice (Some 5) (Some 500)] [] []) 1000 [].

(** An empty store, and the store after Bob signed up, seen later with
    other random bytes. *)
Definition signupWorld : World := worldOf emptyDb 1000 [].

Definition bobId : string := "00000000-0000-4000-8000-000000000000".

Definition bob : auth_user :=
  mkUser bobId "bob@example.com" "$2a$0102$Secret123" false
         (Some "0000000000000000000000000000000000000000000000000000000000000000")
         (Some 86401000) (Some 0) None 1000 1000.

Definition afterSignupWorld : World :=
  mkWorld (mkDb [bob] [mkRefresh bobId bobId bobId 2592001000 1000 false] [])
          2000 [] [x09] [x09] [].

(** Two credentials, each with a session and a pending reset, and the
    store after the first one was deleted. *)
Definition carolSession : refresh_token :=
  mkRefresh "s9" "u2" "0e0e0e0e-0000-4000-8000-000000000009" 9000 0 false.

Definition twoUsersWorld : World :=
  worldOf (mkDb [alice (Some 0) None; pendingUser]
                [session "0e0e0e0e-0000-4000-8000-000000000001" false; carolSession]
                [resetRow "tokA" 5000 false; mkReset "id-tokZ" "u2" "tokZ" 5000 0 false])
          1000 [].

Definition afterDeleteWorld : World :=
  worldOf (mkDb [pendingUser] [carolSession] [mkReset "id-tokZ" "u2" "tokZ" 5000 0 false])
          2000 [].

(** The store after Alice, who had a pending reset, asked for another
    one at 1000; seen at 3000. *)
Definition freshResetToken : string :=
  "0102ff0000000000000000000000000000000000000000000000000000000000".

Definition afterForgotWorld : World :=
  worldOf (mkDb [alice (Some 0) None] []
                [resetRow "tokA" 5000 true;
                 mkReset "00000000-0000-4000-8000-000000000000" "u1" freshResetToken
                         3601000 1000 false])
          3000 [].

(** The store after Carol asked for her verification mail again at
    1000; seen at 3000. *)
Definition afterResendWorld : World :=
  worldOf (mkDb [mkUser "u2" "carol@example.com" "$2a$0000$Secret123" false
                        (Some freshResetToken) (Some 86401000) (Some 0) None 0 1000]
                [] [])
          3000 [].

(** The store after Bob signed up and verified his address; seen at
    3000. *)
Definition bobToken : string :=
  "0000000000000000000000000000000000000000000000000000000000000000".

Definition verifiedBobWorld : World :=
  worldOf (mkDb [mkUser bobId "bob@example.com" "$2a$0102$Secret123" true None None
                        (Some 0) None 1000 2000]
                [mkRefresh bobId bobId bobId 2592001000 1000 false] [])
          3000 [].

(** Two overlapping requests for a reset token of Alice, who has
    none. *)
Definition raceWorld : World :=
  mkWorld (mkDb [alice (Some 0) None] [] []) 1000 []
          (repeat x0a 32 ++ repeat x0b 32) (repeat x01 16 ++ repeat x02 16) [].

Definition racedResetWorld : World := createsInterleaved exampleEnv "u1" raceWorld.

Definition firstRacedToken : string := toHex (repeat x0a 32).

(** Alice after four failures; her fifth failure overlaps a successful
    sign-in of hers in another request. *)
Definition fourFailuresWorld : World :=
  worldOf (mkDb [alice (Some 4) None] [] []) 1000 [].

Definition racedLockWorld : World :=
  failedAttemptWithResetBetween exampleEnv "u1" fourFailuresWorld.
(* ================================================================== *)
(** ** Facts about the store *)

(** Reduction that keeps the tables and the random material folded. *)
Ltac run_step :=
  cbn -[updateWhere takeBytes toHex uuidStringify uuidStamp addHours addDays
        PasswordReset.insertReset RefreshToken.insertRefresh].

Lemma hd_filter_find {A : Type} (p : A -> bool) (l : list A) :
  hd_error (filter p l) = find p l.
Proof.
  induction l as [|a l IH]; simpl; [reflexivity|].
  destruct (p a); simpl; auto.
Qed.

Lemma find_filter_cons {A : Type} (p : A -> bool) (l : list A) (a : A) :
  find p l = Some a -> exists r, filter p l = a :: r.
Proof.
  rewrite <- hd_filter_find. destruct (filter p l) as [|b r]; simpl; intros H.
  - discriminate.
  - inversion H; subst. now exists r.
Qed.

Lemma filter_updateWhere_same {A : Type} (p : A -> bool) (f : A -> A) (l : list A) :
  (forall a, p (f a) = p a) ->
  filter p (updateWhere p f l) = map f (filter p l).
Proof.
  intros Hp. induction l as [|a l IH]; simpl; [reflexivity|].
  destruct (p a) eqn:Ha; simpl.
  - rewrite Hp, Ha. simpl. now rewrite IH.
  - rewrite Ha. exact IH.
Qed.

Lemma find_updateWhere_same {A : Type} (p : A -> bool) (f : A -> A) (l : list A) :
  (forall a, p (f a) = p a) ->
  find p (updateWhere p f l) = option_map f (find p l).
Proof.
  intros Hp. rewrite <- !hd_filter_find, filter_updateWhere_same by exact Hp.
  now destruct (filter p l).
Qed.

Lemma find_updateWhere_other {A : Type} (p q : A -> bool) (f : A -> A) (l : list A) :
  (forall a, q (f a) = q a) ->
  (forall a, q a = true -> p a = true -> f a = a) ->
  find q (updateWhere p f l) = find q l.
Proof.
  intros Hq Hfix. induction l as [|a l IH]; simpl; [reflexivity|].
  destruct (p a) eqn:Hpa.
  - rewrite Hq. destruct (q a) eqn:Hqa; [|exact IH].
    now rewrite (Hfix a Hqa Hpa).
  - destruct (q a); [reflexivity|exact IH].
Qed.

Lemma find_updateWhere_preserved {A : Type} (p q : A -> bool) (f : A -> A) (l : list A) :
  (forall a, q (f a) = q a) ->
  find q (updateWhere p f l) =
  option_map (fun a => if p a then f a else a) (find q l).
Proof.
  intros Hq. induction l as [|a l IH]; simpl; [reflexivity|].
  destruct (p a) eqn:Hpa.
  - rewrite Hq. destruct (q a); simpl; [now rewrite Hpa|exact IH].
  - destruct (q a); simpl; [now rewrite Hpa|exact IH].
Qed.

Lemma updateWhere_idem {A : Type} (p : A -> bool) (f : A -> A) (l : list A) :
  (forall a, p a = true -> f (f a) = f a) ->
  (forall a, p (f a) = p a) ->
  updateWhere p f (updateWhere p f l) = updateWhere p f l.
Proof.
  intros Hf Hp. unfold updateWhere. rewrite map_map. apply map_ext. intros a.
  destruct (p a) eqn:Ha.
  - rewrite Hp, Ha. now apply Hf.
  - now rewrite Ha.
Qed.

Lemma updateWhere_none {A : Type} (p : A -> bool) (f : A -> A) (l : list A) :
  (forall a, In a l -> p a = true -> f a = a) ->
  updateWhere p f l = l.
Proof.
  intros H. unfold updateWhere. rewrite <- (map_id l) at 2. apply map_ext_in.
  intros a Ha. destruct (p a) eqn:Hpa; [now apply H|reflexivity].
Qed.

(** Running one statement. *)
Lemma query_run {A : Type} (s : Statement)
    (run : Date -> Database -> Error + (A * Database)) (w : World) :
  hd false (faults w) = false ->
  query s run w =
  match run (now w) (db w) with
  | inl e => (Throw e, mkWorld (db w) (now w) (tl (faults w)) (entropy w)
                               (pg_entropy w) (Sql s :: trace w))
  | inr (a, d) => (Ok a, mkWorld d (now w) (tl (faults w)) (entropy w)
                                 (pg_entropy w) (Sql s :: trace w))
  end.
Proof.
  intros H. unfold query. rewrite H. destruct (run (now w) (db w)) as [e|[a d]]; reflexivity.
Qed.

Lemma query_fault {A : Type} (s : Statement)
    (run : Date -> Database -> Error + (A * Database)) (w : World) :
  hd false (faults w) = true ->
  query s run w =
  (Throw (PgError connection_failure),
   mkWorld (db w) (now w) (tl (faults w)) (entropy w) (pg_entropy w) (Sql s :: trace w)).
Proof. intros H. unfold query. now rewrite H. Qed.

(** The store never loses or changes a committed table when a statement
    raises. *)
Lemma query_throw_keeps_db {A : Type} (s : Statement)
    (run : Date -> Database -> Error + (A * Database)) (w w' : World) (e : Error) :
  query s run w = (Throw e, w') -> db w' = db w.
Proof.
  unfold query. destruct (hd false (faults w)).
  - intros H. inversion H. reflexivity.
  - destruct (run (now w) (db w)) as [e'|[a d]]; intros H; inversion H; reflexivity.
Qed.

Lemma updateWhere_compose {A : Type} (p : A -> bool) (f g : A -> A) (l : list A) :
  (forall a, p (g a) = p a) ->
  updateWhere p f (updateWhere p g l) = updateWhere p (fun a => f (g a)) l.
Proof.
  intros Hp. unfold updateWhere. rewrite map_map. apply map_ext. intros a.
  destruct (p a) eqn:Ha; [now rewrite Hp, Ha|now rewrite Ha].
Qed.

Lemma in_updateWhere {A : Type} (p : A -> bool) (f : A -> A) (l : list A) (b : A) :
  In b (updateWhere p f l) ->
  exists a, In a l /\ b = (if p a then f a else a).
Proof.
  unfold updateWhere. intros H. apply in_map_iff in H.
  destruct H as (a & Heq & Hin). exists a. split; [exact Hin|now symmetry].
Qed.

(* ================================================================== *)
(** ** Account lockout guard *)

Lemma userById_filter (uid : string) (d : Database) (u : auth_user) :
  userById uid d = Some u -> exists r, filter (hasId uid) (auth_users d) = u :: r.
Proof. intros H. now apply find_filter_cons. Qed.

Lemma hasId_refl (u : auth_user) : hasId (id u) u = true.
Proof. unfold hasId. apply String.eqb_refl. Qed.

Lemma hasId_eq (uid : string) (u : auth_user) : hasId uid u = true -> id u = uid.
Proof. unfold hasId. apply String.eqb_eq. Qed.

Lemma userById_id (uid : string) (d : Database) (u : auth_user) :
  userById uid d = Some u -> id u = uid.
Proof.
  unfold userById. intros H. apply find_some in H. now apply hasId_eq.
Qed.

(** Under the primary key, a stored row is the row its id selects. *)
Lemma primaryKey_userById (d : Database) (u : auth_user) :
  primaryKey d -> In u (auth_users d) -> userById (id u) d = Some u.
Proof.
  unfold primaryKey, userById. induction (auth_users d) as [|a l IH]; simpl.
  - intros _ [].
  - intros Hnd Hin. inversion Hnd as [|x y Hnotin Hnd']; subst.
    destruct (hasId (id u) a) eqn:Ha.
    + destruct Hin as [->|Hin]; [reflexivity|].
      apply hasId_eq in Ha. exfalso. apply Hnotin. rewrite Ha. now apply in_map.
    + destruct Hin as [->|Hin]; [now rewrite hasId_refl in Ha|]. now apply IH.
Qed.

Lemma userByEmail_userById (d : Database) (e : string) (u : auth_user) :
  primaryKey d -> userByEmail e d = Some u -> userById (id u) d = Some u.
Proof.
  intros Hpk H. apply primaryKey_userById; [exact Hpk|].
  unfold userByEmail in H. now apply find_some in H.
Qed.

(** What one failed attempt does when the store answers: the counter is
    incremented by one statement; below the threshold the result carries
    the attempts that remain; at or above it a second statement sets the
    lock, and the result carries its end. *)
Lemma recordFailedLoginAttempt_run (E : Env) (uid : string) (w : World) (u : auth_user) :
  userById uid (db w) = Some u ->
  faults w = [] ->
  let n := COALESCE (failed_login_attempts u) 0 + 1 in
  let until := addMinutes (now w) (LOCKOUT_DURATION_MINUTES E) in
  exists w',
    User.recordFailedLoginAttempt E uid w =
      (Ok (if n <? MAX_LOGIN_ATTEMPTS E
           then mkAttemptResult false (Some (MAX_LOGIN_ATTEMPTS E - n)) None
           else mkAttemptResult true None (Some until)), w') /\
    userById uid (db w') =
      Some (if n <? MAX_LOGIN_ATTEMPTS E
            then User.increment_attempts (now w) u
            else User.set_locked_until until (now w) (User.increment_attempts (now w) u)) /\
    trace w' =
      ((if n <? MAX_LOGIN_ATTEMPTS E
        then [Sql UpdateIncrementFailedAttempts]
        else [Sql UpdateLockedUntil; Sql UpdateIncrementFailedAttempts]) ++ trace w)%list /\
    faults w' = [] /\ now w' = now w.
Proof.
  intros Hu Hf n until. subst until.
  unfold User.recordFailedLoginAttempt, bind.
  rewrite query_run by now rewrite Hf.
  rewrite filter_updateWhere_same by reflexivity.
  destruct (userById_filter _ _ _ Hu) as [r Hr]. rewrite Hr. simpl.
  fold n. unfold userById in *.
  rewrite Z.geb_leb. destruct (Z.ltb_spec n (MAX_LOGIN_ATTEMPTS E)) as [Hlt|Hge].
  - destruct (Z.leb_spec (MAX_LOGIN_ATTEMPTS E) n); [lia|].
    eexists. split; [reflexivity|]. simpl. rewrite Hf.
    repeat split.
    rewrite find_updateWhere_same by reflexivity. now rewrite Hu.
  - destruct (Z.leb_spec (MAX_LOGIN_ATTEMPTS E) n); [|lia].
    unfold newDateNow, bind. simpl.
    rewrite query_run by (simpl; now rewrite Hf).
    simpl. eexists. split; [reflexivity|]. simpl. rewrite Hf.
    repeat split.
    rewrite !find_updateWhere_same by reflexivity. now rewrite Hu.
Qed.

(** The two statements are committed one after the other: when the store
    raises at the second, the counter stays incremented at or above the
    threshold and no lock is written. *)
Lemma recordFailedLoginAttempt_lock_raises
    (E : Env) (uid : string) (w : World) (u : auth_user) (fs : list bool) :
  userById uid (db w) = Some u ->
  faults w = false :: true :: fs ->
  MAX_LOGIN_ATTEMPTS E <= COALESCE (failed_login_attempts u) 0 + 1 ->
  exists w',
    User.recordFailedLoginAttempt E uid w = (Throw (PgError connection_failure), w') /\
    userById uid (db w') = Some (User.increment_attempts (now w) u).
Proof.
  intros Hu Hf Hge.
  unfold User.recordFailedLoginAttempt, bind.
  rewrite query_run by now rewrite Hf.
  rewrite filter_updateWhere_same by reflexivity.
  destruct (userById_filter _ _ _ Hu) as [r Hr]. rewrite Hr. simpl.
  rewrite Z.geb_leb.
  destruct (Z.leb_spec (MAX_LOGIN_ATTEMPTS E) (COALESCE (failed_login_attempts u) 0 + 1));
    [|lia].
  unfold newDateNow. simpl.
  rewrite query_fault by (simpl; now rewrite Hf).
  eexists. split; [reflexivity|]. simpl. unfold userById in *. simpl.
  rewrite find_updateWhere_same by reflexivity. now rewrite Hu.
Qed.

(** C2 (amended).  For every stored credential, while the store answers,
    [recordFailedLoginAttempt] increments the failed-attempt counter in
    one UPDATE ... RETURNING; when the incremented counter is below the
    threshold (default 5) it returns [{locked: false, attemptsRemaining:
    threshold - attempts}] and leaves [locked_until] as it was; when the
    counter reaches or exceeds the threshold it sends a second, separate
    UPDATE that sets [locked_until = now + lockoutDuration] (default 15
    minutes) and returns [{locked: true, lockedUntil}]. *)
Theorem recordFailedLoginAttempt_increments_then_locks
    (E : Env) (uid : string) (w : World) (u : auth_user) :
  userById uid (db w) = Some u ->
  faults w = [] ->
  let n := COALESCE (failed_login_attempts u) 0 + 1 in
  let until := now w + LOCKOUT_DURATION_MINUTES E * 60000 in
  exists r w' u',
    User.recordFailedLoginAttempt E uid w = (Ok r, w') /\
    userById uid (db w') = Some u' /\
    failed_login_attempts u' = Some n /\
    (n < MAX_LOGIN_ATTEMPTS E ->
       r = mkAttemptResult false (Some (MAX_LOGIN_ATTEMPTS E - n)) None /\
       locked_until u' = locked_until u /\
       trace w' = Sql UpdateIncrementFailedAttempts :: trace w) /\
    (MAX_LOGIN_ATTEMPTS E <= n ->
       r = mkAttemptResult true None (Some until) /\
       locked_until u' = Some until /\
       trace w' = Sql UpdateLockedUntil :: Sql UpdateIncrementFailedAttempts :: trace w).
Proof.
  intros Hu Hf n until.
  destruct (recordFailedLoginAttempt_run E uid w u Hu Hf) as (w' & Hrun & Hrow & Htr & _).
  fold n in Hrun, Hrow, Htr.
  destruct (Z.ltb_spec n (MAX_LOGIN_ATTEMPTS E)) as [Hlt|Hge].
  - eexists _, w', _. split; [exact Hrun|]. split; [exact Hrow|].
    split; [reflexivity|]. split; [|lia].
    intros _. repeat split. exact Htr.
  - eexists _, w', _. split; [exact Hrun|]. split; [exact Hrow|].
    split; [reflexivity|]. split; [lia|].
    intros _. repeat split. exact Htr.
Qed.

Lemma recordFailedLoginAttempt_increments_then_locks_witness :
  exists r w' u',
    User.recordFailedLoginAttempt exampleEnv "u1" threeFailuresWorld = (Ok r, w') /\
    userById "u1" (db w') = Some u' /\
    failed_login_attempts u' = Some 4 /\
    r = mkAttemptResult false (Some 1) None.
Proof.
  destruct (recordFailedLoginAttempt_increments_then_locks exampleEnv "u1" threeFailuresWorld
              (alice (Some 3) None) eq_refl eq_refl)
    as (r & w' & u' & Hrun & Hrow & Hn & Hlow & _).
  exists r, w', u'. repeat split; try assumption.
  apply Hlow. vm_compute. reflexivity.
Defined.

(** C2, as stated, fails: with four recorded failures and a store that
    raises at the second statement, the fifth failure leaves the counter
    at the threshold 5 and no lock. *)
Lemma recordFailedLoginAttempt_lock_not_in_increment :
  ~ lockSetWithIncrement exampleEnv "u1"
      (worldOf (mkDb [alice (Some 4) None] [] []) 1000 [false; true]).
Proof.
  intros H.
  specialize (H (alice (Some 4) None)
                (User.increment_attempts 1000 (alice (Some 4) None))
                eq_refl eq_refl eq_refl).
  vm_compute in H. assert (Hle : (5 ?= 5) = Gt -> False) by discriminate.
  specialize (H Hle). discriminate H.
Qed.

(** *** The pre-check and the sign-in route *)

Lemma findByEmail_run (e : string) (w : World) :
  hd false (faults w) = false ->
  User.findByEmail e w =
  (Ok (userByEmail (toLowerCase e) (db w)),
   mkWorld (db w) (now w) (tl (faults w)) (entropy w) (pg_entropy w)
           (Sql SelectUserByEmail :: trace w)).
Proof.
  intros Hf. unfold User.findByEmail, bind. rewrite query_run by exact Hf.
  unfold ret. now rewrite hd_filter_find.
Qed.

Lemma isAccountLocked_run (uid : string) (w : World) (u : auth_user) :
  userById uid (db w) = Some u ->
  hd false (faults w) = false ->
  User.isAccountLocked uid w =
  (Ok (lockStatusOf (now w) u),
   mkWorld (db w) (now w) (tl (faults w)) (entropy w) (pg_entropy w)
           (Sql SelectLockedUntil :: trace w)).
Proof.
  intros Hu Hf. unfold User.isAccountLocked, bind. rewrite query_run by exact Hf.
  destruct (userById_filter _ _ _ Hu) as [r Hr]. rewrite Hr. simpl.
  unfold lockStatusOf. destruct (locked_until u) as [lu|]; [|reflexivity].
  unfold newDateNow. simpl. now destruct (lu >? now w).
Qed.

(** The pre-check only reads. *)
Lemma isAccountLocked_reads (uid : string) (w : World) :
  db (snd (User.isAccountLocked uid w)) = db w.
Proof.
  unfold User.isAccountLocked, bind, query.
  destruct (hd false (faults w)); [reflexivity|]. simpl.
  destruct (map locked_until (filter (hasId uid) (auth_users (db w)))) as [|[lu|] r];
    try reflexivity.
  unfold newDateNow. simpl. now destruct (lu >? now w).
Qed.

(** C4.  While [now] is strictly before [locked_until], the pre-check
    reports [{locked: true, remainingMinutes}] and sign-in never reaches
    the password comparison and changes no stored state, whatever the
    store does; when the store answers, sign-in fails with
    TooManyRequests.  Once [now >= locked_until] the pre-check reports
    [{locked: false}], again without a stored change. *)
Theorem locked_signin_short_circuits
    (E : Env) (e pw : string) (w : World) (u : auth_user) (lu : Date) :
  primaryKey (db w) ->
  userByEmail (toLowerCase e) (db w) = Some u ->
  locked_until u = Some lu ->
  db (snd (User.isAccountLocked (id u) w)) = db w /\
  (now w < lu ->
     (hd false (faults w) = false ->
        fst (User.isAccountLocked (id u) w) =
        Ok (mkLockStatus true (Some lu) (Some (ceilDiv (lu - now w) 60000)))) /\
     db (snd (Routes.signin E e pw w)) = db w /\
     (exists evs, trace (snd (Routes.signin E e pw w)) = (evs ++ trace w)%list /\
                  ~ In BcryptCompare evs) /\
     (faults w = [] ->
        fst (Routes.signin E e pw w) =
        Throw (TooManyRequestsError
                 ("Account is locked. Try again in " ++
                  numberToString (ceilDiv (lu - now w) 60000) ++ " minutes.")))) /\
  (lu <= now w ->
     hd false (faults w) = false ->
     fst (User.isAccountLocked (id u) w) = Ok (mkLockStatus false None None)).
Proof.
  intros Hpk Hmail Hlu.
  pose proof (userByEmail_userById _ _ _ Hpk Hmail) as Hid.
  split; [apply isAccountLocked_reads|]. split.
  - intros Hlt.
    assert (Hgt : (lu >? now w) = true) by (apply Z.gtb_lt; lia).
    split.
    { intros Hf. rewrite (isAccountLocked_run _ _ u Hid Hf). simpl.
      unfold lockStatusOf. now rewrite Hlu, Hgt. }
    unfold Routes.signin, bind.
    destruct (hd false (faults w)) eqn:Hf1.
    { unfold User.findByEmail, bind. rewrite query_fault by exact Hf1. simpl.
      split; [reflexivity|]. split.
      - exists [Sql SelectUserByEmail]. split; [reflexivity|].
        simpl. intros [H|[]]. discriminate H.
      - intros Hnil. rewrite Hnil in Hf1. discriminate Hf1. }
    rewrite findByEmail_run by exact Hf1. rewrite Hmail.
    set (w1 := mkWorld _ _ _ _ _ _).
    destruct (hd false (faults w1)) eqn:Hf2.
    { unfold User.isAccountLocked, bind. rewrite query_fault by exact Hf2. simpl.
      split; [reflexivity|]. split.
      - exists [Sql SelectLockedUntil; Sql SelectUserByEmail]. split; [reflexivity|].
        simpl. intros [H|[H|[]]]; discriminate H.
      - intros Hnil. subst w1. simpl in Hf2. rewrite Hnil in Hf2. discriminate Hf2. }
    rewrite (isAccountLocked_run _ w1 u Hid Hf2).
    unfold lockStatusOf. rewrite Hlu. subst w1. cbn [now]. rewrite Hgt.
    cbn [locked remainingMinutes]. unfold throw. simpl.
    split; [reflexivity|]. split.
    + exists [Sql SelectLockedUntil; Sql SelectUserByEmail]. split; [reflexivity|].
      simpl. intros [H|[H|[]]]; discriminate H.
    + reflexivity.
  - intros Hle Hf. rewrite (isAccountLocked_run _ _ u Hid Hf). simpl.
    unfold lockStatusOf. rewrite Hlu.
    destruct (Z.gtb_spec lu (now w)); [lia|reflexivity].
Qed.

Lemma locked_signin_short_circuits_witness :
  fst (Routes.signin exampleEnv "Alice@Example.com" "Secret123" lockedWorld) =
  Throw (TooManyRequestsError "Account is locked. Try again in 15 minutes.").
Proof.
  destruct (locked_signin_short_circuits exampleEnv "Alice@Example.com" "Secret123"
              lockedWorld (alice (Some 5) (Some 901000)) 901000)
    as (_ & Hlocked & _).
  - unfold primaryKey. simpl. constructor; [intros []|constructor].
  - reflexivity.
  - reflexivity.
  - destruct Hlocked as (_ & _ & _ & H); [reflexivity|].
    apply H. reflexivity.
Defined.

(** A wrong password for a stored credential that the pre-check lets
    through: the failure is recorded, and the error depends on whether
    the incremented counter reached the threshold. *)
Lemma signin_wrong_password
    (E : Env) (e pw : string) (w : World) (u : auth_user) :
  primaryKey (db w) ->
  userByEmail (toLowerCase e) (db w) = Some u ->
  lockedAt (now w) u = false ->
  bcrypt_compare E pw (password_hash u) = false ->
  faults w = [] ->
  let n := COALESCE (failed_login_attempts u) 0 + 1 in
  let until := addMinutes (now w) (LOCKOUT_DURATION_MINUTES E) in
  exists w',
    Routes.signin E e pw w =
      (Throw (if n <? MAX_LOGIN_ATTEMPTS E
              then UnauthorizedError
                     ("Invalid email or password. " ++
                      numberToString (MAX_LOGIN_ATTEMPTS E - n) ++ " attempts remaining.")
              else TooManyRequestsError
                     ("Account locked due to too many failed attempts. Try again in " ++
                      numberToString (LOCKOUT_DURATION_MINUTES E) ++ " minutes.")), w') /\
    userById (id u) (db w') =
      Some (if n <? MAX_LOGIN_ATTEMPTS E
            then User.increment_attempts (now w) u
            else User.set_locked_until until (now w) (User.increment_attempts (now w) u)).
Proof.
  intros Hpk Hmail Hlock Hpw Hf n until.
  pose proof (userByEmail_userById _ _ _ Hpk Hmail) as Hid.
  unfold Routes.signin, bind.
  rewrite findByEmail_run by now rewrite Hf.
  rewrite Hmail. set (w1 := mkWorld _ _ _ _ _ _).
  rewrite (isAccountLocked_run _ w1 u Hid) by (subst w1; simpl; now rewrite Hf).
  assert (Hst : lockStatusOf (now w1) u = mkLockStatus false None None).
  { unfold lockStatusOf. unfold lockedAt in Hlock. subst w1. simpl.
    destruct (locked_until u) as [lu|]; [|reflexivity].
    destruct (Z.gtb_spec lu (now w)); [|reflexivity].
    apply Z.ltb_ge in Hlock. lia. }
  rewrite Hst. cbn [locked].
  unfold User.verifyPassword, event, bind, ret. rewrite Hpw. cbn [negb].
  set (w2 := emit BcryptCompare _).
  destruct (recordFailedLoginAttempt_run E (id u) w2 u) as (w3 & Hrun & Hrow & _).
  { exact Hid. }
  { subst w2 w1. simpl. now rewrite Hf. }
  rewrite Hrun. change (now w2) with (now w) in *. fold n until in Hrow |- *.
  destruct (n <? MAX_LOGIN_ATTEMPTS E).
  - cbn [ar_locked ar_attemptsRemaining]. unfold throw.
    eexists. split; [reflexivity|exact Hrow].
  - cbn [ar_locked]. unfold sendAccountLockedEmail, event, throw.
    eexists. split; [reflexivity|exact Hrow].
Qed.


(** The invariant behind the lapsed lock: a credential that carries a
    lock carries a counter at or above the threshold.  A failed attempt
    keeps it whatever the store does, since the lock is only written
    after the increment was read back at or above the threshold. *)
Lemma recordFailedLoginAttempt_keeps_lockImpliesThreshold
    (E : Env) (uid : string) (w : World) :
  primaryKey (db w) ->
  lockImpliesThreshold E (db w) ->
  lockImpliesThreshold E (db (snd (User.recordFailedLoginAttempt E uid w))).
Proof.
  intros Hpk Hinv.
  assert (Hinc : lockImpliesThreshold E
            (with_users (db w)
               (updateWhere (hasId uid) (User.increment_attempts (now w))
                            (auth_users (db w))))).
  { intros u' Hin Hl. simpl in Hin. apply in_updateWhere in Hin.
    destruct Hin as (u0 & Hin0 & ->). specialize (Hinv u0 Hin0).
    destruct (hasId uid u0); simpl in *.
    - specialize (Hinv Hl). lia.
    - now apply Hinv. }
  unfold User.recordFailedLoginAttempt, bind, query.
  destruct (hd false (faults w)); [exact Hinv|]. cbn [fst snd].
  rewrite filter_updateWhere_same by reflexivity.
  destruct (filter (hasId uid) (auth_users (db w))) as [|u0 r] eqn:Hfil; [exact Hinc|].
  cbn [map hd_error]. unfold User.increment_attempts at 1. cbn [failed_login_attempts COALESCE].
  destruct (COALESCE (failed_login_attempts u0) 0 + 1 >=? MAX_LOGIN_ATTEMPTS E) eqn:Hge;
    [|exact Hinc].
  unfold newDateNow. cbn -[updateWhere].
  destruct (hd false (tl (faults w))); [exact Hinc|]. cbn -[updateWhere].
  rewrite updateWhere_compose by reflexivity.
  intros u' Hin Hl. cbn in Hin. apply in_updateWhere in Hin.
  destruct Hin as (u1 & Hin1 & ->).
  destruct (hasId uid u1) eqn:Hu1.
  - cbn. apply Z.geb_le in Hge.
    assert (Hfirst : userById uid (db w) = Some u0).
    { unfold userById. rewrite <- hd_filter_find, Hfil. reflexivity. }
    pose proof (primaryKey_userById _ _ Hpk Hin1) as H1.
    rewrite (hasId_eq _ _ Hu1) in H1. rewrite H1 in Hfirst.
    inversion Hfirst; subst u1. exact Hge.
  - now apply Hinv.
Qed.

Lemma clear_lockout_keeps_lockImpliesThreshold
    (E : Env) (uid : string) (w : World) :
  lockImpliesThreshold E (db w) ->
  lockImpliesThreshold E (db (snd (User.resetFailedLoginAttempts uid w))) /\
  lockImpliesThreshold E (db (snd (User.unlockAccount uid w))).
Proof.
  intros Hinv.
  assert (H : lockImpliesThreshold E
            (db (snd (User.resetFailedLoginAttempts uid w)))).
  { unfold User.resetFailedLoginAttempts, query.
    destruct (hd false (faults w)); [exact Hinv|]. cbn.
    intros u' Hin Hl. cbn in Hin. apply in_updateWhere in Hin.
    destruct Hin as (u0 & Hin0 & ->).
    destruct (hasId uid u0); [now elim Hl|now apply Hinv]. }
  split; exact H.
Qed.

(** C6 (amended).  While the store answers, a sign-in for an email with
    no credential fails with UnauthorizedError (401) and the message
    "Invalid email or password".  A wrong password for a stored, unlocked
    credential fails with UnauthorizedError (401) too while the
    incremented counter is below the threshold, but its message goes on
    with the number of attempts that remain; on the attempt that reaches
    the threshold it fails with TooManyRequestsError (429). *)
Theorem signin_failure_errors (E : Env) (e pw : string) (w : World) :
  faults w = [] ->
  (userByEmail (toLowerCase e) (db w) = None ->
     fst (Routes.signin E e pw w) = Throw (UnauthorizedError "Invalid email or password")) /\
  (forall u,
     primaryKey (db w) ->
     userByEmail (toLowerCase e) (db w) = Some u ->
     lockedAt (now w) u = false ->
     bcrypt_compare E pw (password_hash u) = false ->
     let n := COALESCE (failed_login_attempts u) 0 + 1 in
     (n < MAX_LOGIN_ATTEMPTS E ->
        fst (Routes.signin E e pw w) =
        Throw (UnauthorizedError
                 ("Invalid email or password. " ++
                  numberToString (MAX_LOGIN_ATTEMPTS E - n) ++ " attempts remaining."))) /\
     (MAX_LOGIN_ATTEMPTS E <= n ->
        fst (Routes.signin E e pw w) =
        Throw (TooManyRequestsError
                 ("Account locked due to too many failed attempts. Try again in " ++
                  numberToString (LOCKOUT_DURATION_MINUTES E) ++ " minutes.")))).
Proof.
  intros Hf. split.
  - intros Hnone. unfold Routes.signin, bind.
    rewrite findByEmail_run by now rewrite Hf.
    now rewrite Hnone.
  - intros u Hpk Hmail Hlock Hpw n.
    destruct (signin_wrong_password E e pw w u Hpk Hmail Hlock Hpw Hf) as (w' & Hrun & _).
    fold n in Hrun. rewrite Hrun. cbn [fst].
    destruct (Z.ltb_spec n (MAX_LOGIN_ATTEMPTS E)); split; intros; try reflexivity; lia.
Qed.

Lemma signin_failure_errors_witness :
  fst (Routes.signin exampleEnv "bob@example.com" "guess" signinWorld) =
    Throw (UnauthorizedError "Invalid email or password") /\
  fst (Routes.signin exampleEnv "alice@example.com" "guess" signinWorld) =
    Throw (UnauthorizedError "Invalid email or password. 4 attempts remaining.").
Proof.
  split.
  - apply (signin_failure_errors exampleEnv "bob@example.com" "guess" signinWorld eq_refl).
    reflexivity.
  - destruct (signin_failure_errors exampleEnv "alice@example.com" "guess" signinWorld eq_refl)
      as [_ H].
    apply (H (alice (Some 0) None)); try reflexivity.
    unfold primaryKey. simpl. constructor; [intros []|constructor].
Defined.

(** C6, as stated, fails: the same request body is answered differently
    for an email without a credential and for a stored credential with a
    wrong password, so the response tells whether the email exists. *)
Lemma signin_discloses_existing_email :
  fst (serve (Routes.signin exampleEnv "bob@example.com" "guess") signinWorld) <>
  fst (serve (Routes.signin exampleEnv "alice@example.com" "guess") signinWorld).
Proof. vm_compute. intros H. discriminate H. Qed.

(* ================================================================== *)
(** ** Password reset flow *)

Lemma existsb_filter_cons {A : Type} (p : A -> bool) (l : list A) :
  existsb p l = true -> exists a r, filter p l = a :: r.
Proof.
  induction l as [|a l IH]; simpl; [discriminate|].
  destruct (p a); simpl; [eauto|exact IH].
Qed.

Lemma findByToken_run (token : string) (w : World) :
  hd false (faults w) = false ->
  PasswordReset.findByToken token w =
  (Ok (hd_error (flat_map (joinUsers pr_user_id (db w))
                          (filter (PasswordReset.hasToken token)
                                  (auth_password_resets (db w))))),
   mkWorld (db w) (now w) (tl (faults w)) (entropy w) (pg_entropy w)
           (Sql SelectPasswordResetByToken :: trace w)).
Proof.
  intros Hf. unfold PasswordReset.findByToken, bind. now rewrite query_run by exact Hf.
Qed.

(** The join finds the first stored row of the token, with the email of
    its owner. *)
Lemma join_resetByToken (token : string) (d : Database) :
  resetsReferUsers d ->
  match resetByToken token d with
  | None => hd_error (flat_map (joinUsers pr_user_id d)
                               (filter (PasswordReset.hasToken token)
                                       (auth_password_resets d))) = None
  | Some r => exists mail,
      hd_error (flat_map (joinUsers pr_user_id d)
                         (filter (PasswordReset.hasToken token)
                                 (auth_password_resets d))) = Some (r, mail)
  end.
Proof.
  intros Hfk. unfold resetByToken.
  change (fun r => (pr_token r =? token)%string) with (PasswordReset.hasToken token).
  destruct (find (PasswordReset.hasToken token) (auth_password_resets d)) as [r|] eqn:Hfind.
  - destruct (find_filter_cons _ _ _ Hfind) as [rest Hrest]. rewrite Hrest. simpl.
    apply find_some in Hfind. destruct Hfind as [Hin _].
    destruct (existsb_filter_cons _ _ (Hfk r Hin)) as (u & us & Hus).
    unfold joinUsers at 1. rewrite Hus. simpl. eauto.
  - rewrite <- hd_filter_find in Hfind.
    destruct (filter (PasswordReset.hasToken token) (auth_password_resets d)); [reflexivity|].
    discriminate.
Qed.

Lemma validateToken_reads (token : string) (w : World) :
  db (snd (PasswordReset.validateToken token w)) = db w.
Proof.
  unfold PasswordReset.validateToken, PasswordReset.findByToken, bind, query.
  destruct (hd false (faults w)); [reflexivity|]. simpl.
  destruct (hd_error _) as [[r mail]|]; [|reflexivity].
  destruct (pr_used r); [reflexivity|]. simpl.
  destruct (pr_expires_at r <? now w); reflexivity.
Qed.

(** C7.  [validateToken] answers by the fixed priority: "Token not found"
    when no stored token matches, otherwise "Token has already been used"
    when the used flag is set (also for a token that is expired as well),
    otherwise "Token has expired" when the expiry is before now, otherwise
    valid with the id of the owning credential. *)
Theorem validateToken_priority (token : string) (w : World) :
  resetsReferUsers (db w) ->
  hd false (faults w) = false ->
  db (snd (PasswordReset.validateToken token w)) = db w /\
  (resetByToken token (db w) = None ->
     fst (PasswordReset.validateToken token w) = Ok notFound) /\
  (forall r, resetByToken token (db w) = Some r ->
     (pr_used r = true ->
        fst (PasswordReset.validateToken token w) = Ok alreadyUsed) /\
     (pr_used r = false -> pr_expires_at r < now w ->
        fst (PasswordReset.validateToken token w) = Ok expired) /\
     (pr_used r = false -> now w <= pr_expires_at r ->
        exists mail,
          fst (PasswordReset.validateToken token w) =
          Ok (mkValidateResult true None (Some (pr_user_id r)) (Some mail)))).
Proof.
  intros Hfk Hf. split; [apply validateToken_reads|].
  pose proof (join_resetByToken token (db w) Hfk) as Hjoin.
  unfold PasswordReset.validateToken, bind. rewrite findByToken_run by exact Hf.
  destruct (resetByToken token (db w)) as [r|].
  - destruct Hjoin as [mail Hjoin]. rewrite Hjoin. split; [discriminate|].
    intros r' Hr'. inversion Hr'; subst r'. unfold newDateNow. cbn [now].
    repeat split.
    + intros Hu. now rewrite Hu.
    + intros Hu Hlt. rewrite Hu. cbn beta iota. cbn [now].
      apply Z.ltb_lt in Hlt. now rewrite Hlt.
    + intros Hu Hle. rewrite Hu. exists mail. cbn beta iota. cbn [now].
      apply Z.ltb_ge in Hle. now rewrite Hle.
  - rewrite Hjoin. split; [reflexivity|]. intros r Hr. discriminate Hr.
Qed.

Lemma validateToken_priority_witness :
  fst (PasswordReset.validateToken "tokA" usedExpiredWorld) = Ok alreadyUsed.
Proof.
  destruct (validateToken_priority "tokA" usedExpiredWorld) as (_ & _ & H).
  - intros r [<-|[]]. reflexivity.
  - reflexivity.
  - apply (H (resetRow "tokA" 500 true) eq_refl). reflexivity.
Defined.

(** *** At most one usable token *)

Lemma filter_length_le_weaken {A : Type} (p q : A -> bool) (l : list A) :
  (forall a, p a = true -> q a = true) ->
  (List.length (filter p l) <= List.length (filter q l))%nat.
Proof.
  intros H. induction l as [|a l IH]; simpl; [lia|].
  destruct (p a) eqn:Hp.
  - rewrite (H a Hp). simpl. lia.
  - destruct (q a); simpl; lia.
Qed.

Lemma unused_after_set_used {A : Type} (q p : password_reset -> bool)
    (l : list password_reset) :
  (forall r, q (PasswordReset.set_used r) = false) ->
  (List.length (filter q (updateWhere p PasswordReset.set_used l))
   <= List.length (filter q l))%nat.
Proof.
  intros Hq. induction l as [|a l IH]; simpl; [lia|].
  destruct (p a).
  - rewrite Hq. destruct (q a); simpl; lia.
  - destruct (q a); simpl; lia.
Qed.

Lemma unused_after_delete (q p : password_reset -> bool) (l : list password_reset) :
  (List.length (filter q (filter p l)) <= List.length (filter q l))%nat.
Proof.
  induction l as [|a l IH]; simpl; [lia|].
  destruct (p a); simpl; destruct (q a); simpl; lia.
Qed.

Lemma unusedOf_set_used (uid : string) (r : password_reset) :
  PasswordReset.unusedOf uid (PasswordReset.set_used r) = false.
Proof. unfold PasswordReset.unusedOf. simpl. apply andb_false_r. Qed.

(** Invalidation leaves the credential without an unused token. *)
Lemma invalidate_clears (uid : string) (l : list password_reset) :
  filter (PasswordReset.unusedOf uid)
         (updateWhere (PasswordReset.unusedOf uid) PasswordReset.set_used l) = [].
Proof.
  induction l as [|a l IH]; simpl; [reflexivity|].
  destruct (PasswordReset.unusedOf uid a) eqn:Ha.
  - now rewrite unusedOf_set_used.
  - now rewrite Ha.
Qed.

Lemma atMostOneUnused_usable (d : Database) : atMostOneUnused d -> atMostOneUsable d.
Proof.
  intros H uid t. specialize (H uid).
  eapply Nat.le_trans; [|exact H].
  apply filter_length_le_weaken. intros r. unfold usableAt, PasswordReset.unusedOf.
  destruct (pr_user_id r =? uid)%string, (pr_used r); simpl; auto.
Qed.

Lemma set_used_keeps (p : password_reset -> bool) (d : Database) :
  atMostOneUnused d ->
  atMostOneUnused (with_resets d (updateWhere p PasswordReset.set_used
                                              (auth_password_resets d))).
Proof.
  intros H uid'. eapply Nat.le_trans; [|exact (H uid')].
  apply (unused_after_set_used (A := unit)). apply unusedOf_set_used.
Qed.

Lemma invalidateForUser_keeps (uid : string) (w : World) :
  atMostOneUnused (db w) ->
  atMostOneUnused (db (snd (PasswordReset.invalidateForUser uid w))).
Proof.
  intros H. unfold PasswordReset.invalidateForUser, query.
  destruct (hd false (faults w)); [exact H|]. now apply set_used_keeps.
Qed.

Lemma markAsUsed_keeps (token : string) (w : World) :
  atMostOneUnused (db w) ->
  atMostOneUnused (db (snd (PasswordReset.markAsUsed token w))).
Proof.
  intros H. unfold PasswordReset.markAsUsed, query.
  destruct (hd false (faults w)); [exact H|]. now apply set_used_keeps.
Qed.

Lemma deleteExpired_keeps (w : World) :
  atMostOneUnused (db w) ->
  atMostOneUnused (db (snd (PasswordReset.deleteExpired w))).
Proof.
  intros H. unfold PasswordReset.deleteExpired, query.
  destruct (hd false (faults w)); [exact H|]. cbn.
  intros uid'. eapply Nat.le_trans; [|exact (H uid')].
  apply unused_after_delete.
Qed.

(** The row the request operation sends to the store. *)
Lemma create_cases (E : Env) (uid : string) (w : World) :
  let d1 := with_resets (db w)
              (updateWhere (PasswordReset.unusedOf uid) PasswordReset.set_used
                           (auth_password_resets (db w))) in
  let row := newResetRow E uid w in
  (exists e, fst (PasswordReset.create E uid w) = Throw e /\
             (db (snd (PasswordReset.create E uid w)) = db w \/
              db (snd (PasswordReset.create E uid w)) = d1)) \/
  (PasswordReset.create E uid w =
     (Ok row, mkWorld (with_resets d1 (auth_password_resets d1 ++ [row])%list) (now w)
                      (tl (tl (faults w))) (skipn 32 (entropy w))
                      (skipn 16 (pg_entropy w))
                      (Sql InsertPasswordReset :: Sql UpdateResetUsedByUser :: trace w)) /\
   PasswordReset.insertReset row d1 =
     inr (row, with_resets d1 (auth_password_resets d1 ++ [row])%list) /\
   hd false (faults w) = false /\ hd false (tl (faults w)) = false).
Proof.
  intros d1 row. subst d1 row. unfold newResetRow.
  unfold PasswordReset.create, PasswordReset.invalidateForUser, bind, query.
  destruct (hd false (faults w)); [left; eexists; split; [reflexivity|now left]|].
  run_step.
  destruct (hd false (tl (faults w))); [left; eexists; split; [reflexivity|now right]|].
  run_step.
  destruct (PasswordReset.insertReset _ _) as [e|[r d']] eqn:Hins.
  - left. eexists. split; [reflexivity|now right].
  - right. unfold PasswordReset.insertReset in Hins |- *.
    destruct (existsb _ _); [discriminate|].
    destruct (existsb _ _); [|discriminate].
    inversion Hins; subst. repeat split.
Qed.

Lemma insert_after_invalidate_keeps (uid : string) (d : Database) (row : password_reset) :
  pr_user_id row = uid ->
  atMostOneUnused d ->
  let d1 := with_resets d (updateWhere (PasswordReset.unusedOf uid) PasswordReset.set_used
                                       (auth_password_resets d)) in
  atMostOneUnused (with_resets d1 (auth_password_resets d1 ++ [row])%list).
Proof.
  intros Hrow H d1 uid'.
  pose proof (set_used_keeps (PasswordReset.unusedOf uid) d H uid') as Hinv.
  subst d1. cbn -[updateWhere] in Hinv |- *.
  rewrite filter_app, length_app. cbn [filter].
  change (PasswordReset.unusedOf uid' row)
    with ((pr_user_id row =? uid')%string && negb (pr_used row)).
  rewrite Hrow.
  destruct (String.eqb_spec uid uid') as [<-|Hne].
  - rewrite invalidate_clears. destruct (negb (pr_used row)); simpl; lia.
  - cbn -[updateWhere]. lia.
Qed.

(** The request operation: the predecessors are marked used first, so
    the inserted token is the only unused one of its credential. *)
Lemma create_keeps (E : Env) (uid : string) (w : World) :
  atMostOneUnused (db w) ->
  atMostOneUnused (db (snd (PasswordReset.create E uid w))).
Proof.
  intros H.
  destruct (create_cases E uid w) as [(e & _ & [Hd|Hd])|(Hrun & _)].
  - now rewrite Hd.
  - rewrite Hd. now apply set_used_keeps.
  - rewrite Hrun. cbn [snd db].
    now apply insert_after_invalidate_keeps.
Qed.

Lemma runResetOp_keeps (E : Env) (op : ResetOp) (w : World) :
  atMostOneUnused (db w) -> atMostOneUnused (db (runResetOp E op w)).
Proof.
  intros H. destruct op; cbn [runResetOp].
  - now apply create_keeps.
  - unfold PasswordReset.findByToken, bind, query.
    destruct (hd false (faults w)); exact H.
  - now rewrite validateToken_reads.
  - now apply markAsUsed_keeps.
  - now apply invalidateForUser_keeps.
  - now apply deleteExpired_keeps.
  - unfold PasswordReset.getRecentRequestCount, query.
    destruct (hd false (faults w)); exact H.
Qed.

Lemma resetsReachable_atMostOneUnused (E : Env) (d : Database) :
  resetsReachable E d -> atMostOneUnused d.
Proof.
  induction 1 as [d Hempty|op w _ IH|d d' _ IH Hsame].
  - intros uid. rewrite Hempty. simpl. lia.
  - now apply runResetOp_keeps.
  - intros uid. rewrite Hsame. apply IH.
Qed.

Lemma find_app_first {A : Type} (p : A -> bool) (l1 l2 : list A) (a : A) :
  find p l1 = Some a -> find p (l1 ++ l2)%list = Some a.
Proof.
  induction l1 as [|b l1 IH]; simpl; [discriminate|].
  destruct (p b); [auto|exact IH].
Qed.

(** After a successful request the older token of the credential is
    stored, first under its token, and used. *)
Lemma create_marks_predecessor
    (E : Env) (uid a : string) (w w' : World) (rb ra : password_reset) :
  PasswordReset.create E uid w = (Ok rb, w') ->
  resetByToken a (db w) = Some ra ->
  pr_user_id ra = uid ->
  exists ra',
    resetByToken a (db w') = Some ra' /\ pr_used ra' = true /\ pr_user_id ra' = uid /\
    existsb (hasId uid) (auth_users (db w')) = true.
Proof.
  intros Hrun Ha Hown.
  destruct (create_cases E uid w) as [(e & He & _)|(Hrun' & Hins & _)].
  { rewrite Hrun in He. discriminate He. }
  rewrite Hrun in Hrun'. injection Hrun' as Hrb Hw'. subst rb w'.
  exists (if PasswordReset.unusedOf uid ra then PasswordReset.set_used ra else ra).
  split; [|split; [|split]].
  - unfold resetByToken in *. cbn -[updateWhere].
    apply find_app_first.
    rewrite (find_updateWhere_preserved (PasswordReset.unusedOf uid)
               (fun r => (pr_token r =? a)%string)) by reflexivity.
    now rewrite Ha.
  - unfold PasswordReset.unusedOf. rewrite Hown, String.eqb_refl.
    destruct (pr_used ra) eqn:Hu; cbn [andb negb]; [exact Hu|reflexivity].
  - destruct (PasswordReset.unusedOf uid ra); [|exact Hown]. exact Hown.
  - cbn -[updateWhere]. unfold PasswordReset.insertReset in Hins.
    destruct (existsb _ _); [discriminate|].
    cbn -[updateWhere] in Hins.
    destruct (existsb (hasId uid) (auth_users (db w))); [reflexivity|discriminate].
Qed.

(** C3 (amended).  When the operations on the reset tokens run one
    after the other (the statements of two requests do not interleave),
    in every state the reset table can reach a credential has at most
    one usable (unused, unexpired) token at any time.  The request
    operation first marks used every unused token of the credential and
    only then inserts the new one, which is its only unused token; after
    token B was issued, validating an older token A of the credential
    reports "Token has already been used", not "Token not found" and not
    valid. *)
Theorem reset_tokens_single_usable (E : Env) :
  (forall d, resetsReachable E d -> atMostOneUsable d) /\
  (forall uid w rb w',
     PasswordReset.create E uid w = (Ok rb, w') ->
     trace w' = Sql InsertPasswordReset :: Sql UpdateResetUsedByUser :: trace w /\
     filter (PasswordReset.unusedOf uid) (auth_password_resets (db w')) = [rb] /\
     forall a ra w2,
       resetByToken a (db w) = Some ra ->
       pr_user_id ra = uid ->
       db w2 = db w' ->
       hd false (faults w2) = false ->
       fst (PasswordReset.validateToken a w2) = Ok alreadyUsed).
Proof.
  split.
  - intros d Hd. apply atMostOneUnused_usable.
    now apply (resetsReachable_atMostOneUnused E).
  - intros uid w rb w' Hrun. split; [|split].
    + destruct (create_cases E uid w) as [(e & He & _)|(Hrun' & _)].
      { rewrite Hrun in He. discriminate He. }
      rewrite Hrun in Hrun'. injection Hrun' as Hrb Hw'. subst rb w'. reflexivity.
    + destruct (create_cases E uid w) as [(e & He & _)|(Hrun' & _)].
      { rewrite Hrun in He. discriminate He. }
      rewrite Hrun in Hrun'. injection Hrun' as Hrb Hw'. subst rb w'.
      cbn -[updateWhere newResetRow]. rewrite filter_app, invalidate_clears. cbn [filter app].
      unfold PasswordReset.unusedOf. cbn [newResetRow pr_user_id pr_used negb].
      now rewrite String.eqb_refl.
    + intros a ra w2 Ha Hown Hdb Hf.
      destruct (create_marks_predecessor E uid a w w' rb ra Hrun Ha Hown)
        as (ra' & Hfind & Hused & Hown' & Huser).
      unfold PasswordReset.validateToken, bind.
      rewrite findByToken_run by exact Hf. rewrite Hdb.
      unfold resetByToken in Hfind.
      destruct (find_filter_cons _ _ _ Hfind) as [rest Hrest].
      change (fun r => (pr_token r =? a)%string) with (PasswordReset.hasToken a) in Hrest.
      rewrite Hrest. cbn [flat_map].
      unfold joinUsers at 1. rewrite Hown'.
      destruct (existsb_filter_cons _ _ Huser) as (u & us & Hus).
      rewrite Hus. cbn [map app hd_error]. rewrite Hused. reflexivity.
Qed.

Lemma reset_tokens_single_usable_witness :
  exists rb w',
    PasswordReset.create exampleEnv "u1" pendingResetWorld = (Ok rb, w') /\
    fst (PasswordReset.validateToken "tokA" w') = Ok alreadyUsed.
Proof.
  eexists _, _. split; [vm_compute; reflexivity|].
  destruct (reset_tokens_single_usable exampleEnv) as [_ H].
  destruct (H "u1" pendingResetWorld _ _ eq_refl) as (_ & _ & Hv).
  apply (Hv "tokA" (resetRow "tokA" 5000 false)); reflexivity.
Defined.

(** [PasswordReset.create] is the invalidating UPDATE followed by the
    INSERT, two statements with an [await] between them. *)
Lemma create_splits (E : Env) (uid : string) :
  PasswordReset.create E uid =
  (PasswordReset.invalidateForUser uid ;; createAfterInvalidate E uid).
Proof. reflexivity. Qed.

(** C3, as stated, fails: when the invalidating UPDATE of a second
    request for the same credential is answered before the INSERT of the
    first is sent, neither request marks the token of the other, both
    tokens are unused and unexpired, and the older one validates as
    valid. *)
Lemma reset_tokens_two_usable_interleaved :
  map pr_used (auth_password_resets (db racedResetWorld)) = [false; false] /\
  ~ atMostOneUsable (db racedResetWorld) /\
  fst (PasswordReset.validateToken firstRacedToken (at_time 2000 racedResetWorld)) =
    Ok (mkValidateResult true None (Some "u1") (Some "alice@example.com")).
Proof.
  split; [vm_compute; reflexivity|]. split; [|vm_compute; reflexivity].
  intros H. specialize (H "u1" 1000). vm_compute in H. lia.
Qed.

(** *** Consuming a reset token *)

Lemma validateToken_valid_run (token : string) (w : World)
    (r : password_reset) (u : auth_user) :
  resetByToken token (db w) = Some r ->
  pr_used r = false ->
  now w <= pr_expires_at r ->
  userById (pr_user_id r) (db w) = Some u ->
  hd false (faults w) = false ->
  PasswordReset.validateToken token w =
  (Ok (mkValidateResult true None (Some (pr_user_id r)) (Some (email u))),
   mkWorld (db w) (now w) (tl (faults w)) (entropy w) (pg_entropy w)
           (Sql SelectPasswordResetByToken :: trace w)).
Proof.
  intros Hr Hused Hexp Hu Hf.
  unfold PasswordReset.validateToken, bind. rewrite findByToken_run by exact Hf.
  unfold resetByToken in Hr.
  destruct (find_filter_cons _ _ _ Hr) as [rest Hrest].
  change (fun r => (pr_token r =? token)%string) with (PasswordReset.hasToken token) in Hrest.
  rewrite Hrest. cbn [flat_map]. unfold joinUsers at 1.
  destruct (userById_filter _ _ _ Hu) as [us Hus]. rewrite Hus.
  cbn [map app hd_error]. rewrite Hused. unfold newDateNow. cbn [now].
  apply Z.ltb_ge in Hexp. now rewrite Hexp.
Qed.

Lemma refresh_all_revoked (uid : string) (l : list refresh_token) (t : refresh_token) :
  In t (updateWhere (RefreshToken.liveOf uid) RefreshToken.set_revoked l) ->
  rt_user_id t = uid -> rt_revoked t = true.
Proof.
  intros Hin Hown. apply in_updateWhere in Hin. destruct Hin as (t0 & _ & ->).
  unfold RefreshToken.liveOf in *.
  destruct (rt_user_id t0 =? uid)%string eqn:Hid; cbn [andb] in *.
  - destruct (rt_revoked t0) eqn:Hrev; cbn [negb] in *; [exact Hrev|reflexivity].
  - apply String.eqb_neq in Hid. contradiction.
Qed.

(** The five statements of the route in a store that answers. *)
Lemma resetPassword_run (E : Env) (token pw : string) (w : World)
    (r : password_reset) (u : auth_user) :
  resetByToken token (db w) = Some r ->
  pr_used r = false ->
  now w <= pr_expires_at r ->
  userById (pr_user_id r) (db w) = Some u ->
  faults w = [] ->
  let h := bcrypt_hash E pw (BCRYPT_ROUNDS E) (takeBytes 16 (entropy w)) in
  exists w',
    Routes.resetPassword E token pw w =
      (Ok (mkResponse 200
             [("message",
               JString "Password has been reset successfully. Please sign in with your new password.")]),
       w') /\
    userById (pr_user_id r) (db w') =
      Some (User.clear_lockout (now w) (User.set_password h (now w) u)) /\
    resetByToken token (db w') = Some (PasswordReset.set_used r) /\
    (forall t, In t (auth_refresh_tokens (db w')) ->
               rt_user_id t = pr_user_id r -> rt_revoked t = true) /\
    trace w' =
      Sql UpdateResetFailedAttempts :: Sql UpdateRevokedByUser ::
      Sql UpdateResetUsedByToken :: Sql UpdatePasswordHash :: BcryptHash ::
      Sql SelectPasswordResetByToken :: trace w.
Proof.
  intros Hr Hused Hexp Hu Hf h.
  unfold Routes.resetPassword, bind.
  rewrite (validateToken_valid_run token w r u) by (try assumption; now rewrite Hf).
  cbn [valid negb userId].
  unfold User.updatePassword, PasswordReset.markAsUsed, RefreshToken.revokeAllForUser,
    User.resetFailedLoginAttempts, randomBytes, event, bind, query, emit, ret.
  cbn -[updateWhere takeBytes]. rewrite Hf. cbn -[updateWhere takeBytes].
  eexists. split; [reflexivity|]. cbn -[updateWhere takeBytes].
  split; [|split; [|split]].
  - unfold userById in *. cbn -[updateWhere takeBytes].
    rewrite !find_updateWhere_same by reflexivity. now rewrite Hu.
  - unfold resetByToken in *. cbn -[updateWhere takeBytes].
    rewrite (find_updateWhere_same (PasswordReset.hasToken token)) by reflexivity.
    change (PasswordReset.hasToken token) with (fun r => (pr_token r =? token)%string).
    now rewrite Hr.
  - intros t Hin Hown. eapply refresh_all_revoked; eassumption.
  - reflexivity.
Qed.

(** The statements are committed one by one.  Whatever the store does,
    the token is marked used only after the password hash was written;
    and when the store raises at the statement that marks the token, the
    new hash stays while the token stays unused. *)
Lemma resetPassword_any_faults (E : Env) (token pw : string) (w : World)
    (r : password_reset) (u : auth_user) :
  resetByToken token (db w) = Some r ->
  pr_used r = false ->
  now w <= pr_expires_at r ->
  userById (pr_user_id r) (db w) = Some u ->
  let h := bcrypt_hash E pw (BCRYPT_ROUNDS E) (takeBytes 16 (entropy w)) in
  let d' := db (snd (Routes.resetPassword E token pw w)) in
  (resetByToken token d' = Some r /\ userById (pr_user_id r) d' = Some u) \/
  (resetByToken token d' = Some r /\
   userById (pr_user_id r) d' = Some (User.set_password h (now w) u) /\
   nth 2 (faults w) false = true) \/
  (resetByToken token d' = Some (PasswordReset.set_used r) /\
   exists u', userById (pr_user_id r) d' = Some u' /\ password_hash u' = h).
Proof.
  intros Hr Hused Hexp Hu h d'. subst d'.
  unfold Routes.resetPassword, bind.
  destruct (hd false (faults w)) eqn:Hf1.
  { unfold PasswordReset.validateToken, PasswordReset.findByToken, bind.
    rewrite query_fault by exact Hf1. left. now split. }
  rewrite (validateToken_valid_run token w r u) by assumption.
  cbn [valid negb userId].
  unfold User.updatePassword, PasswordReset.markAsUsed, RefreshToken.revokeAllForUser,
    User.resetFailedLoginAttempts, randomBytes, event, bind, query, emit, ret.
  cbn -[updateWhere takeBytes].
  assert (Hpw : find (hasId (pr_user_id r))
            (updateWhere (hasId (pr_user_id r)) (User.set_password h (now w))
                         (auth_users (db w))) = Some (User.set_password h (now w) u)).
  { rewrite find_updateWhere_same by reflexivity. unfold userById in Hu. now rewrite Hu. }
  assert (Htok : find (fun r0 => (pr_token r0 =? token)%string)
            (updateWhere (PasswordReset.hasToken token) PasswordReset.set_used
                         (auth_password_resets (db w))) = Some (PasswordReset.set_used r)).
  { change (fun r0 => (pr_token r0 =? token)%string) with (PasswordReset.hasToken token).
    rewrite find_updateWhere_same by reflexivity.
    unfold resetByToken in Hr.
    change (fun r0 => (pr_token r0 =? token)%string) with (PasswordReset.hasToken token) in Hr.
    now rewrite Hr. }
  destruct (faults w) as [|f1 [|f2 [|f3 [|f4 [|f5 fs]]]]];
    cbn -[updateWhere takeBytes] in Hf1 |- *; subst;
    repeat match goal with
           | |- context [if ?b then _ else _] => destruct b; cbn -[updateWhere takeBytes]
           end;
    unfold userById, resetByToken; cbn -[updateWhere takeBytes];
    first
      [ left; split; assumption
      | right; left; split; [assumption|split; [exact Hpw|reflexivity]]
      | right; right; split; [exact Htok|];
        first [ eexists; split; [exact Hpw|reflexivity]
              | eexists; split;
                [rewrite !find_updateWhere_same by reflexivity;
                 unfold userById in Hu; rewrite Hu; reflexivity
                |reflexivity] ] ].
Qed.

(** Whatever the store does, the route leaves the tables that its
    writes before the first failing statement leave when each is run and
    committed on its own, and it succeeds exactly when the store answers
    all five statements. *)
Lemma resetPassword_prefix_committed (E : Env) (token pw : string) (w : World)
    (r : password_reset) (u : auth_user) :
  resetByToken token (db w) = Some r ->
  pr_used r = false ->
  now w <= pr_expires_at r ->
  userById (pr_user_id r) (db w) = Some u ->
  let k := answered 5 (faults w) in
  db (snd (Routes.resetPassword E token pw w)) =
    db (committedAfter (firstn (k - 1) (resetWrites E (pr_user_id r) token pw)) w) /\
  fst (Routes.resetPassword E token pw w) =
    (if (k =? 5)%nat
     then Ok (mkResponse 200
                [("message",
                  JString "Password has been reset successfully. Please sign in with your new password.")])
     else Throw (PgError connection_failure)).
Proof.
  intros Hr Hused Hexp Hu k. subst k.
  unfold Routes.resetPassword, bind.
  destruct (hd false (faults w)) eqn:Hf1.
  { unfold PasswordReset.validateToken, PasswordReset.findByToken, bind.
    rewrite query_fault by exact Hf1.
    destruct (faults w) as [|[|] fs]; try discriminate Hf1. split; reflexivity. }
  rewrite (validateToken_valid_run token w r u) by assumption.
  cbn [valid negb userId].
  unfold resetWrites, committedAfter, at_time.
  unfold User.updatePassword, PasswordReset.markAsUsed, RefreshToken.revokeAllForUser,
    User.resetFailedLoginAttempts, randomBytes, event, bind, query, emit, ret.
  destruct (faults w) as [|f1 [|f2 [|f3 [|f4 [|f5 fs]]]]];
    cbn -[updateWhere takeBytes] in Hf1 |- *; subst;
    repeat match goal with
           | |- context [if ?b then _ else _] => is_var b; destruct b; cbn -[updateWhere takeBytes]
           end;
    split; reflexivity.
Qed.

(** C1 (amended).  For every valid reset token the route sends four
    separate statements, each committed on its own, in the order: write
    the password hash, mark the token used, revoke every refresh token of
    the credential, reset the lockout state.  When the store answers all
    of them, all four effects hold.  Whatever the store does, the token
    is never marked used unless the password hash was written; a failure
    partway leaves the statements before it committed: with [k] the
    number of statements (the SELECT of the validation and the four
    writes) the store answers before the first one it fails, the tables
    are those that the first [k - 1] writes leave when each is run on
    its own, and the request fails exactly when [k < 5]. *)
Theorem resetPassword_commits_in_order (E : Env) (token pw : string) (w : World)
    (r : password_reset) (u : auth_user) :
  resetByToken token (db w) = Some r ->
  pr_used r = false ->
  now w <= pr_expires_at r ->
  userById (pr_user_id r) (db w) = Some u ->
  let h := bcrypt_hash E pw (BCRYPT_ROUNDS E) (takeBytes 16 (entropy w)) in
  let d' := db (snd (Routes.resetPassword E token pw w)) in
  (forall r', resetByToken token d' = Some r' -> pr_used r' = true ->
     exists u', userById (pr_user_id r) d' = Some u' /\ password_hash u' = h) /\
  (faults w = [] ->
     fst (Routes.resetPassword E token pw w) =
       Ok (mkResponse 200
             [("message",
               JString "Password has been reset successfully. Please sign in with your new password.")]) /\
     (exists u', userById (pr_user_id r) d' = Some u' /\
                 password_hash u' = h /\
                 failed_login_attempts u' = Some 0 /\ locked_until u' = None) /\
     (exists r', resetByToken token d' = Some r' /\ pr_used r' = true) /\
     (forall t, In t (auth_refresh_tokens d') ->
                rt_user_id t = pr_user_id r -> rt_revoked t = true) /\
     trace (snd (Routes.resetPassword E token pw w)) =
       Sql UpdateResetFailedAttempts :: Sql UpdateRevokedByUser ::
       Sql UpdateResetUsedByToken :: Sql UpdatePasswordHash :: BcryptHash ::
       Sql SelectPasswordResetByToken :: trace w) /\
  (let k := answered 5 (faults w) in
   d' = db (committedAfter (firstn (k - 1) (resetWrites E (pr_user_id r) token pw)) w) /\
   fst (Routes.resetPassword E token pw w) =
     (if (k =? 5)%nat
      then Ok (mkResponse 200
                 [("message",
                   JString "Password has been reset successfully. Please sign in with your new password.")])
      else Throw (PgError connection_failure))).
Proof.
  intros Hr Hused Hexp Hu h d'. split; [|split].
  - intros r' Hr' Hused'.
    destruct (resetPassword_any_faults E token pw w r u Hr Hused Hexp Hu)
      as [[Hsame _]|[[Hsame _]|[_ Hdone]]].
    + fold d' in Hsame. rewrite Hsame in Hr'. inversion Hr'; subst r'.
      rewrite Hused in Hused'. discriminate.
    + fold d' in Hsame. rewrite Hsame in Hr'. inversion Hr'; subst r'.
      rewrite Hused in Hused'. discriminate.
    + exact Hdone.
  - intros Hf.
    destruct (resetPassword_run E token pw w r u Hr Hused Hexp Hu Hf)
      as (w' & Hrun & Hrow & Htok & Hrev & Htr).
    subst d'. rewrite Hrun. cbn [fst snd].
    split; [reflexivity|]. split; [|split; [|split]].
    + eexists. split; [exact Hrow|]. repeat split.
    + eexists. split; [exact Htok|reflexivity].
    + exact Hrev.
    + exact Htr.
  - exact (resetPassword_prefix_committed E token pw w r u Hr Hused Hexp Hu).
Qed.

Lemma resetPassword_commits_in_order_witness :
  fst (Routes.resetPassword exampleEnv "tokA" "NewSecret1" resetWorld) =
    Ok (mkResponse 200
          [("message",
            JString "Password has been reset successfully. Please sign in with your new password.")]) /\
  exists u', userById "u1" (db (snd (Routes.resetPassword exampleEnv "tokA" "NewSecret1"
                                                          resetWorld))) = Some u' /\
             password_hash u' = "$2a$0102$NewSecret1".
Proof.
  destruct (resetPassword_commits_in_order exampleEnv "tokA" "NewSecret1" resetWorld
              (resetRow "tokA" 5000 false) (alice (Some 3) None))
    as (_ & H & _); try reflexivity.
  - vm_compute. discriminate.
  - destruct (H eq_refl) as (Hok & (u' & Hrow & Hh & _) & _).
    split; [exact Hok|]. exists u'. split; [exact Hrow|exact Hh].
Defined.

(** C1, as stated, fails: when the store raises at the statement that
    marks the token, the new password hash is stored and the token is
    still unused. *)
Lemma resetPassword_not_atomic :
  ~ resetAllOrNothing exampleEnv "tokA" "NewSecret1" resetFaultWorld.
Proof.
  intros H.
  specialize (H (resetRow "tokA" 5000 false) (alice (Some 3) None)
                (resetRow "tokA" 5000 false)
                (User.set_password "$2a$0102$NewSecret1" 1000 (alice (Some 3) None))
                eq_refl eq_refl eq_refl eq_refl).
  destruct H as [[H _]|[_ H]]; vm_compute in H; discriminate H.
Qed.

(* ================================================================== *)
(** ** Email verification flow *)

Lemma hasId_set_verified (uid : string) (t : Date) (u : auth_user) :
  hasId uid (User.set_verified t u) = hasId uid u.
Proof. reflexivity. Qed.

(** Whatever the store does, a consumption changes the table by the one
    UPDATE or not at all. *)
Lemma verifyEmail_db (tok : string) (w : World) :
  db (snd (User.verifyEmail tok w)) = db w \/
  exists u,
    userByVerificationToken tok (db w) = Some u /\
    fst (User.verifyEmail tok w) =
      Ok (mkVerifyEmailResult true None (Some (id u)) (Some (email u))) /\
    trace (snd (User.verifyEmail tok w)) =
      Sql UpdateEmailVerified :: Sql SelectUserByVerificationToken :: trace w /\
    db (snd (User.verifyEmail tok w)) =
      with_users (db w)
        (updateWhere (hasId (id u)) (User.set_verified (now w)) (auth_users (db w))).
Proof.
  unfold User.verifyEmail, bind, query, userByVerificationToken.
  destruct (hd false (faults w)); [now left|]. cbn -[updateWhere].
  rewrite <- hd_filter_find.
  destruct (filter (User.hasVerificationToken tok) (auth_users (db w))) as [|u r];
    [now left|].
  destruct (email_verified u); [now left|].
  unfold newDateNow. cbn -[updateWhere].
  destruct (newDate (email_verification_expires u) <? now w); [now left|].
  cbn -[updateWhere].
  destruct (hd false (tl (faults w))); [now left|]. cbn -[updateWhere].
  right. exists u. repeat split.
Qed.

(** C8.  Consuming a verification token answers in the fixed order
    "Invalid verification token" (no credential holds the token), then
    "Email already verified", then "Verification token has expired"; on
    success one single UPDATE sets the verified flag and clears both the
    token and its expiry. *)
Theorem verifyEmail_order_and_single_update (tok : string) (w : World) :
  faults w = [] ->
  (userByVerificationToken tok (db w) = None ->
     fst (User.verifyEmail tok w) = Ok invalidToken /\
     db (snd (User.verifyEmail tok w)) = db w) /\
  (forall u, userByVerificationToken tok (db w) = Some u ->
     (email_verified u = true ->
        fst (User.verifyEmail tok w) = Ok alreadyVerified /\
        db (snd (User.verifyEmail tok w)) = db w) /\
     (email_verified u = false ->
      newDate (email_verification_expires u) < now w ->
        fst (User.verifyEmail tok w) = Ok verificationExpired /\
        db (snd (User.verifyEmail tok w)) = db w) /\
     (email_verified u = false ->
      now w <= newDate (email_verification_expires u) ->
        fst (User.verifyEmail tok w) =
          Ok (mkVerifyEmailResult true None (Some (id u)) (Some (email u))) /\
        trace (snd (User.verifyEmail tok w)) =
          Sql UpdateEmailVerified :: Sql SelectUserByVerificationToken :: trace w /\
        (forall u', In u' (auth_users (db (snd (User.verifyEmail tok w)))) ->
                    id u' = id u -> verifiedAndCleared u') /\
        (exists u', userById (id u) (db (snd (User.verifyEmail tok w))) = Some u' /\
                    verifiedAndCleared u'))).
Proof.
  intros Hf. unfold userByVerificationToken.
  unfold User.verifyEmail, bind. rewrite query_run by now rewrite Hf.
  rewrite <- hd_filter_find.
  destruct (filter (User.hasVerificationToken tok) (auth_users (db w))) as [|u0 r] eqn:Hrows.
  - split; [intros _; split; reflexivity|]. intros u Hu. discriminate Hu.
  - split; [intros Hu; discriminate Hu|].
    intros u Hu. cbn [hd_error] in Hu. inversion Hu; subst u0. clear Hu.
    assert (Hin : In u (auth_users (db w))).
    { assert (H : In u (u :: r)) by now left.
      rewrite <- Hrows in H. now apply filter_In in H. }
    unfold newDateNow. cbn [now].
    split; [|split].
    + intros Hv. rewrite Hv. split; reflexivity.
    + intros Hv Hlt. rewrite Hv. cbn beta iota. cbn [now].
      apply Z.ltb_lt in Hlt. rewrite Hlt. split; reflexivity.
    + intros Hv Hle. rewrite Hv. cbn beta iota. cbn [now].
      apply Z.ltb_ge in Hle. rewrite Hle.
      rewrite query_run by (cbn; now rewrite Hf). cbn -[updateWhere].
      split; [reflexivity|]. split; [reflexivity|]. split.
      * intros u' Hin' Hid. apply in_updateWhere in Hin'.
        destruct Hin' as (a & _ & ->).
        destruct (hasId (id u) a) eqn:Ha; [repeat split|].
        unfold hasId in Ha. rewrite Hid, String.eqb_refl in Ha. discriminate Ha.
      * unfold userById. cbn -[updateWhere].
        rewrite find_updateWhere_same by reflexivity.
        destruct (find (hasId (id u)) (auth_users (db w))) as [a|] eqn:Hfind.
        -- exists (User.set_verified (now w) a). repeat split.
        -- exfalso. apply (find_none _ _ Hfind) in Hin. now rewrite hasId_refl in Hin.
Qed.

Lemma verifyEmail_order_and_single_update_witness :
  fst (User.verifyEmail "c0ffee" pendingVerificationWorld) =
  Ok (mkVerifyEmailResult true None (Some "u2") (Some "carol@example.com")).
Proof.
  destruct (verifyEmail_order_and_single_update "c0ffee" pendingVerificationWorld eq_refl) as [_ H].
  destruct (H pendingUser eq_refl) as (_ & _ & H3).
  destruct H3 as [Hok _]; [reflexivity|vm_compute; discriminate|exact Hok].
Defined.

(* ================================================================== *)
(** ** Refresh token manager *)

Lemma set_revoked_fixed (r : refresh_token) :
  rt_revoked r = true -> RefreshToken.set_revoked r = r.
Proof. destruct r; simpl; intros ->; reflexivity. Qed.

Lemma with_refresh_same (d : Database) : with_refresh d (auth_refresh_tokens d) = d.
Proof. now destruct d. Qed.

Lemma revoke_run (token : string) (w : World) :
  hd false (faults w) = false ->
  RefreshToken.revoke token w =
  (Ok tt,
   mkWorld (with_refresh (db w)
              (updateWhere (RefreshToken.hasToken token) RefreshToken.set_revoked
                           (auth_refresh_tokens (db w))))
           (now w) (tl (faults w)) (entropy w) (pg_entropy w)
           (Sql UpdateRevokedByToken :: trace w)).
Proof. intros Hf. unfold RefreshToken.revoke. now rewrite query_run by exact Hf. Qed.

(** C9.  [revoke] never fails on its own account and is idempotent: in a
    store that answers it returns for every token string, revoking a
    token that is not stored or is already revoked leaves every table as
    it is, and a second [revoke] of the same token leaves the store as
    the first one left it. *)
Theorem revoke_idempotent_total (token : string) (w : World) :
  faults w = [] ->
  exists w1 w2,
    RefreshToken.revoke token w = (Ok tt, w1) /\
    RefreshToken.revoke token w1 = (Ok tt, w2) /\
    db w2 = db w1 /\
    (forall r, In r (auth_refresh_tokens (db w1)) -> rt_token r = token ->
               rt_revoked r = true) /\
    ((forall r, In r (auth_refresh_tokens (db w)) -> rt_token r = token ->
                rt_revoked r = true) ->
     db w1 = db w).
Proof.
  intros Hf. eexists _, _.
  split; [apply revoke_run; now rewrite Hf|].
  split; [apply revoke_run; cbn; now rewrite Hf|].
  cbn -[updateWhere]. split; [|split].
  - unfold with_refresh. cbn -[updateWhere]. f_equal.
    apply updateWhere_idem; reflexivity.
  - intros r Hin Htok. apply in_updateWhere in Hin. destruct Hin as (a & _ & ->).
    destruct (RefreshToken.hasToken token a) eqn:Ha; [reflexivity|].
    unfold RefreshToken.hasToken in Ha. rewrite Htok, String.eqb_refl in Ha.
    discriminate Ha.
  - intros Hall. rewrite updateWhere_none; [apply with_refresh_same|].
    intros a Hin Ha. apply set_revoked_fixed. apply Hall; [exact Hin|].
    now apply String.eqb_eq.
Qed.

Lemma revoke_idempotent_total_witness :
  exists w1 w2,
    RefreshToken.revoke "0e0e0e0e-0000-4000-8000-000000000001" sessionsWorld = (Ok tt, w1) /\
    RefreshToken.revoke "0e0e0e0e-0000-4000-8000-000000000001" w1 = (Ok tt, w2) /\
    db w2 = db w1 /\
    refreshByToken "0e0e0e0e-0000-4000-8000-000000000002" (db w1) =
      Some (session "0e0e0e0e-0000-4000-8000-000000000002" false).
Proof.
  destruct (revoke_idempotent_total "0e0e0e0e-0000-4000-8000-000000000001" sessionsWorld eq_refl)
    as (w1 & w2 & H1 & H2 & Hsame & _).
  exists w1, w2. repeat split; try assumption.
  vm_compute in H1. inversion H1. reflexivity.
Defined.

(* ================================================================== *)
(** ** Random tokens *)

Lemma takeBytes_length (n : nat) (src : list byte) : List.length (takeBytes n src) = n.
Proof.
  unfold takeBytes. rewrite length_firstn, length_app, repeat_length. lia.
Qed.

Lemma takeBytes_exact (n : nat) (src : list byte) :
  List.length src = n -> takeBytes n src = src.
Proof.
  intros <-. unfold takeBytes. rewrite firstn_app, Nat.sub_diag, firstn_all. simpl.
  apply app_nil_r.
Qed.

Lemma string_of_list_length (l : list ascii) :
  String.length (string_of_list_ascii l) = List.length l.
Proof. induction l; simpl; congruence. Qed.

Lemma allChars_string_of_list (p : ascii -> bool) (l : list ascii) :
  allChars p (string_of_list_ascii l) = forallb p l.
Proof. induction l; simpl; congruence. Qed.

Lemma hexByte_digits (b : byte) : forallb isHexDigit (hexByte b) = true.
Proof. destruct b; reflexivity. Qed.

Lemma hexByte_read_back (b : byte) :
  byteOfN (16 * hexValue (hexDigit (Byte.to_N b / 16)) +
           hexValue (hexDigit (Byte.to_N b mod 16))) = b.
Proof. destruct b; reflexivity. Qed.

Lemma toHex_length (bs : list byte) :
  String.length (toHex bs) = (2 * List.length bs)%nat.
Proof.
  unfold toHex. rewrite string_of_list_length.
  induction bs as [|b bs IH]; simpl; [reflexivity|]. rewrite IH. lia.
Qed.

Lemma toHex_digits (bs : list byte) : allChars isHexDigit (toHex bs) = true.
Proof.
  unfold toHex. rewrite allChars_string_of_list.
  induction bs as [|b bs IH]; [reflexivity|].
  cbn [flat_map]. rewrite forallb_app, hexByte_digits, IH. reflexivity.
Qed.

Lemma fromHexChars_toHex (bs : list byte) : fromHexChars (flat_map hexByte bs) = bs.
Proof.
  induction bs as [|b bs IH]; [reflexivity|].
  cbn [flat_map hexByte app fromHexChars]. now rewrite hexByte_read_back, IH.
Qed.

(** The hex string carries every bit of the bytes it prints. *)
Lemma toHex_injective (bs bs' : list byte) : toHex bs = toHex bs' -> bs = bs'.
Proof.
  unfold toHex. intros H.
  apply (f_equal list_ascii_of_string) in H.
  rewrite !list_ascii_of_string_of_list_ascii in H.
  apply (f_equal fromHexChars) in H. now rewrite !fromHexChars_toHex in H.
Qed.

Lemma toHex_32_isHex256 (bs : list byte) :
  List.length bs = 32%nat -> isHex256 (toHex bs) = true.
Proof.
  intros H. unfold isHex256. rewrite toHex_length, H, toHex_digits. reflexivity.
Qed.

Lemma uuid_version_digit (b : byte) :
  hexDigit (Byte.to_N (byteOfN (N.lor (N.land (Byte.to_N b) 15) 64)) / 16) = "4"%char.
Proof. destruct b; reflexivity. Qed.

(** A version-4 UUID is 36 characters, with a dash after the first
    eight and the version digit 4 opening the third group. *)
Lemma uuid_shape (rnds : list byte) :
  List.length rnds = 16%nat ->
  String.length (uuidStringify (uuidStamp rnds)) = 36%nat /\
  String.get 8 (uuidStringify (uuidStamp rnds)) = Some "-"%char /\
  String.get 14 (uuidStringify (uuidStamp rnds)) = Some "4"%char.
Proof.
  intros H.
  do 17 (destruct rnds as [|? rnds]; try discriminate H).
  unfold uuidStringify, uuidStamp, toHex.
  cbn [updateAt firstn skipn flat_map hexByte app string_of_list_ascii String.append
       String.length String.get].
  rewrite uuid_version_digit. repeat split.
Qed.

Lemma generateEmailVerificationToken_token (E : Env) (uid : string) (w w' : World)
    (t : string) :
  User.generateEmailVerificationToken E uid w = (Ok t, w') ->
  t = toHex (takeBytes 32 (entropy w)).
Proof.
  unfold User.generateEmailVerificationToken, bind, randomBytes, newDateNow, query, ret.
  cbn -[updateWhere takeBytes toHex]. destruct (hd false (faults w)); intros H.
  - discriminate H.
  - now inversion H.
Qed.

Lemma refresh_create_token (uid : string) (days : Z) (w w' : World) (r : refresh_token) :
  RefreshToken.create uid days w = (Ok r, w') ->
  rt_token r = uuidStringify (uuidStamp (takeBytes 16 (entropy w))).
Proof.
  unfold RefreshToken.create, uuidv4, uuid_generate_v4, bind, randomBytes, newDateNow,
    query, ret.
  run_step. destruct (hd false (faults w)); [intros H; discriminate H|].
  unfold RefreshToken.insertRefresh. run_step.
  destruct (existsb _ _); [intros H; discriminate H|].
  destruct (existsb _ _); intros H; [|discriminate H].
  now inversion H.
Qed.

(** C5 (amended).  Every password-reset token and every
    email-verification token the service issues is the lower-case hex
    print of 32 random bytes: 64 hexadecimal digits that carry all 256
    bits and nothing else.  A refresh token is a version-4 UUID: 36
    characters in groups separated by dashes, with the version digit 4
    at a fixed place, printed from 16 random bytes. *)
Theorem issued_tokens_format :
  (forall E uid w r w',
     PasswordReset.create E uid w = (Ok r, w') ->
     pr_token r = toHex (takeBytes 32 (entropy w)) /\ isHex256 (pr_token r) = true) /\
  (forall E uid w t w',
     User.generateEmailVerificationToken E uid w = (Ok t, w') ->
     t = toHex (takeBytes 32 (entropy w)) /\ isHex256 t = true) /\
  (forall bs bs', toHex bs = toHex bs' -> bs = bs') /\
  (forall bs, List.length bs = 32%nat -> takeBytes 32 bs = bs) /\
  (forall uid days w r w',
     RefreshToken.create uid days w = (Ok r, w') ->
     rt_token r = uuidStringify (uuidStamp (takeBytes 16 (entropy w))) /\
     String.length (rt_token r) = 36%nat /\
     String.get 8 (rt_token r) = Some "-"%char /\
     String.get 14 (rt_token r) = Some "4"%char).
Proof.
  split; [|split; [|split; [|split]]].
  - intros E uid w r w' Hrun.
    destruct (create_cases E uid w) as [(e & He & _)|(Hrun' & _)].
    { rewrite Hrun in He. discriminate He. }
    rewrite Hrun in Hrun'. injection Hrun' as Hr _. subst r.
    cbn [newResetRow pr_token]. split; [reflexivity|].
    apply toHex_32_isHex256, takeBytes_length.
  - intros E uid w t w' Hrun.
    apply generateEmailVerificationToken_token in Hrun. subst t.
    split; [reflexivity|]. apply toHex_32_isHex256, takeBytes_length.
  - exact toHex_injective.
  - intros bs. apply takeBytes_exact.
  - intros uid days w r w' Hrun. apply refresh_create_token in Hrun. rewrite Hrun.
    split; [reflexivity|]. apply uuid_shape, takeBytes_length.
Qed.

Lemma issued_tokens_format_witness :
  exists r w',
    PasswordReset.create exampleEnv "u1" freshWorld = (Ok r, w') /\
    pr_token r = "0102ff0000000000000000000000000000000000000000000000000000000000" /\
    isHex256 (pr_token r) = true.
Proof.
  eexists _, _. split; [vm_compute; reflexivity|].
  destruct issued_tokens_format as [H _].
  destruct (H exampleEnv "u1" freshWorld _ _ eq_refl) as [Htok Hhex].
  split; [exact Htok|exact Hhex].
Defined.

(** C5, as stated, fails for refresh tokens: the token of a new session
    is a UUID with dashes, not 64 hexadecimal digits, and its version
    and variant bits are fixed, so distinct random bytes print the same
    token. *)
Lemma refresh_token_not_hex256 : ~ refreshTokensAreHex256.
Proof.
  intros H.
  specialize (H "u1" 30 freshWorld
                (mkRefresh "00000000-0000-4000-8000-000000000000" "u1"
                           "0102ff00-0000-4000-8000-000000000000" 2592001000 1000 false)
                _ eq_refl).
  vm_compute in H. discriminate H.
Qed.

Example uuid_bits_overwritten :
  uuidStringify (uuidStamp (repeat x00 16)) =
  uuidStringify (uuidStamp (repeat x00 6 ++ [xf0] ++ repeat x00 9)%list).
Proof. reflexivity. Qed.

Example verification_token_issued :
  fst (User.generateEmailVerificationToken exampleEnv "u1" freshWorld) =
  Ok "0102ff0000000000000000000000000000000000000000000000000000000000".
Proof. vm_compute. reflexivity. Qed.

Example refresh_token_issued :
  fst (RefreshToken.create "u1" 30 freshWorld) =
  Ok (mkRefresh "00000000-0000-4000-8000-000000000000" "u1"
                "0102ff00-0000-4000-8000-000000000000" 2592001000 1000 false).
Proof. vm_compute. reflexivity. Qed.

(* ================================================================== *)
(** ** The lapsed lock *)

(** *** The reachable states of the credential table *)

Lemma map_id_updateWhere (p : auth_user -> bool) (f : auth_user -> auth_user)
    (l : list auth_user) :
  (forall u, id (f u) = id u) ->
  map id (updateWhere p f l) = map id l.
Proof.
  intros Hid. unfold updateWhere. rewrite map_map. apply map_ext.
  intros u. destruct (p u); [apply Hid|reflexivity].
Qed.

Lemma primaryKey_updateWhere (p : auth_user -> bool) (f : auth_user -> auth_user)
    (d : Database) :
  (forall u, id (f u) = id u) ->
  primaryKey d -> primaryKey (with_users d (updateWhere p f (auth_users d))).
Proof.
  intros Hid H. unfold primaryKey in *. cbn -[updateWhere].
  now rewrite map_id_updateWhere.
Qed.

(** An update that leaves the lockout fields alone, raises the counter
    or clears the lock keeps the invariant. *)
Lemma lockImpliesThreshold_updateWhere (E : Env) (p : auth_user -> bool)
    (f : auth_user -> auth_user) (d : Database) :
  (forall u, locked_until (f u) = None \/
             (locked_until (f u) = locked_until u /\
              COALESCE (failed_login_attempts u) 0 <=
              COALESCE (failed_login_attempts (f u)) 0)) ->
  lockImpliesThreshold E d ->
  lockImpliesThreshold E (with_users d (updateWhere p f (auth_users d))).
Proof.
  intros Hf H u' Hin Hl. cbn -[updateWhere] in Hin. apply in_updateWhere in Hin.
  destruct Hin as (u & Hin & ->). specialize (H u Hin).
  destruct (p u); [|now apply H].
  destruct (Hf u) as [Hnone|[Hsame Hle]]; [contradiction|].
  rewrite Hsame in Hl. specialize (H Hl). lia.
Qed.

Lemma NoDup_map_filter {A B : Type} (g : A -> B) (p : A -> bool) (l : list A) :
  NoDup (map g l) -> NoDup (map g (filter p l)).
Proof.
  induction l as [|a l IH]; simpl; [auto|].
  intros H. inversion H as [|x y Hnotin Hnd]; subst.
  destruct (p a); simpl; [|now apply IH].
  constructor; [|now apply IH].
  intros Hin. apply Hnotin. apply in_map_iff in Hin. destruct Hin as (b & Hb & Hin).
  apply filter_In in Hin. apply in_map_iff. exists b. tauto.
Qed.

Lemma recordFailedLoginAttempt_ids (E : Env) (uid : string) (w : World) :
  map id (auth_users (db (snd (User.recordFailedLoginAttempt E uid w)))) =
  map id (auth_users (db w)).
Proof.
  unfold User.recordFailedLoginAttempt, bind, query.
  destruct (hd false (faults w)); [reflexivity|]. cbn -[updateWhere].
  destruct (map failed_login_attempts _) as [|row r]; cbn -[updateWhere];
    [now rewrite map_id_updateWhere|].
  destruct (COALESCE row 0 >=? MAX_LOGIN_ATTEMPTS E); cbn -[updateWhere];
    [|now rewrite map_id_updateWhere].
  destruct (hd false (tl (faults w))); cbn -[updateWhere];
    now rewrite ?map_id_updateWhere.
Qed.

Lemma insertUser_keeps (E : Env) (row : auth_user) (d d' : Database) (r : auth_user) :
  locked_until row = None ->
  User.insertUser row d = inr (r, d') ->
  primaryKey d /\ lockImpliesThreshold E d ->
  primaryKey d' /\ lockImpliesThreshold E d'.
Proof.
  intros Hrow Hins [Hpk Hinv]. unfold User.insertUser in Hins.
  destruct (existsb _ _) eqn:Hex; [discriminate|]. inversion Hins; subst. split.
  - unfold primaryKey in *. cbn. rewrite map_app. cbn.
    apply NoDup_app; [exact Hpk|repeat constructor; intros []|].
    intros x Hin [<-|[]]. apply in_map_iff in Hin. destruct Hin as (u & Hu & Hin).
    assert (Htrue : existsb (fun u => hasId (id r) u || (email u =? email r)%string)
                            (auth_users d) = true).
    { apply existsb_exists. exists u. split; [exact Hin|].
      unfold hasId. rewrite Hu, String.eqb_refl. reflexivity. }
    rewrite Htrue in Hex. discriminate Hex.
  - intros u Hin Hl. cbn in Hin. apply in_app_iff in Hin.
    destruct Hin as [Hin|[<-|[]]]; [now apply Hinv|]. now rewrite Hrow in Hl.
Qed.

Lemma runUserOp_keeps (E : Env) (op : UserOp) (w : World) :
  primaryKey (db w) /\ lockImpliesThreshold E (db w) ->
  primaryKey (db (runUserOp E op w)) /\ lockImpliesThreshold E (db (runUserOp E op w)).
Proof.
  intros [Hpk Hinv]. destruct op; cbn [runUserOp].
  - (* create *)
    unfold User.create, catch, bind, randomBytes, event, uuid_generate_v4, query.
    run_step. destruct (hd false (faults w)); [now split|].
    destruct (User.insertUser _ _) as [e|[r d']] eqn:Hins.
    + destruct e as [code| | |]; try (now split).
      destruct (code =? unique_violation)%string; now split.
    + run_step. eapply insertUser_keeps; [|exact Hins|now split]. reflexivity.
  - (* delete *)
    unfold User.delete, query. destruct (hd false (faults w)); [now split|].
    cbn. split.
    + unfold primaryKey. cbn. now apply NoDup_map_filter.
    + intros u Hin Hl. cbn in Hin. apply filter_In in Hin. now apply Hinv.
  - unfold User.findByEmail, bind, query. destruct (hd false (faults w)); now split.
  - now split.
  - (* updatePassword *)
    unfold User.updatePassword, bind, randomBytes, event, query.
    run_step. destruct (hd false (faults w)); [now split|]. run_step. split.
    + now apply primaryKey_updateWhere.
    + apply lockImpliesThreshold_updateWhere; [|exact Hinv].
      intros u. right. cbn. split; [reflexivity|lia].
  - (* generateEmailVerificationToken *)
    unfold User.generateEmailVerificationToken, bind, randomBytes, newDateNow, query.
    run_step. destruct (hd false (faults w)); [now split|]. run_step. split.
    + now apply primaryKey_updateWhere.
    + apply lockImpliesThreshold_updateWhere; [|exact Hinv].
      intros u. right. cbn. split; [reflexivity|lia].
  - (* verifyEmail *)
    destruct (verifyEmail_db token w) as [Hsame|(u & _ & _ & _ & Hdb)].
    + rewrite Hsame. now split.
    + rewrite Hdb. split.
      * now apply primaryKey_updateWhere.
      * apply lockImpliesThreshold_updateWhere; [|exact Hinv].
        intros a. right. cbn. split; [reflexivity|lia].
  - unfold User.isEmailVerified, bind, query. destruct (hd false (faults w)); now split.
  - rewrite isAccountLocked_reads. now split.
  - (* recordFailedLoginAttempt *)
    split.
    + unfold primaryKey. now rewrite recordFailedLoginAttempt_ids.
    + now apply recordFailedLoginAttempt_keeps_lockImpliesThreshold.
  - split.
    + unfold User.resetFailedLoginAttempts, query.
      destruct (hd false (faults w)); [exact Hpk|]. now apply primaryKey_updateWhere.
    + now apply clear_lockout_keeps_lockImpliesThreshold.
  - split.
    + unfold User.unlockAccount, query.
      destruct (hd false (faults w)); [exact Hpk|]. now apply primaryKey_updateWhere.
    + now apply clear_lockout_keeps_lockImpliesThreshold.
Qed.

(** In every reachable state the ids are unique and a credential that
    carries a lock carries a counter at or above the threshold. *)
Lemma usersReachable_invariant (E : Env) (d : Database) :
  usersReachable E d -> primaryKey d /\ lockImpliesThreshold E d.
Proof.
  induction 1 as [d Hempty|op w _ IH|d d' _ IH Hsame].
  - unfold primaryKey, lockImpliesThreshold. rewrite Hempty. split.
    + constructor.
    + intros u [].
  - now apply runUserOp_keeps.
  - unfold primaryKey, lockImpliesThreshold in *. rewrite Hsame. exact IH.
Qed.

(** C10 (amended).  In every state the credential table can reach by
    operations run one after the other (no reset of the counter is
    answered between the increment and the lock of a failed attempt), a
    lock that lapsed without a successful sign-in or an unlock in between leaves
    the counter at its pre-lock value, at or above the threshold; the pre-check lets the next sign-in through, and a single
    wrong password locks the account again at once, with a fresh
    [locked_until = now + lockoutDuration]: no attempt is answered with
    attempts remaining. *)
Theorem lapsed_lock_relocks_on_first_failure
    (E : Env) (e pw : string) (w : World) (u : auth_user) (lu : Date) :
  usersReachable E (db w) ->
  userByEmail (toLowerCase e) (db w) = Some u ->
  locked_until u = Some lu ->
  lu <= now w ->
  bcrypt_compare E pw (password_hash u) = false ->
  faults w = [] ->
  MAX_LOGIN_ATTEMPTS E <= COALESCE (failed_login_attempts u) 0 /\
  exists w' u',
    Routes.signin E e pw w =
      (Throw (TooManyRequestsError
                ("Account locked due to too many failed attempts. Try again in " ++
                 numberToString (LOCKOUT_DURATION_MINUTES E) ++ " minutes.")), w') /\
    userById (id u) (db w') = Some u' /\
    locked_until u' = Some (now w + LOCKOUT_DURATION_MINUTES E * 60000) /\
    failed_login_attempts u' = Some (COALESCE (failed_login_attempts u) 0 + 1) /\
    lockedAt (now w) u' = (0 <? LOCKOUT_DURATION_MINUTES E).
Proof.
  intros Hreach Hmail Hlu Hle Hpw Hf.
  destruct (usersReachable_invariant E (db w) Hreach) as [Hpk Hinv].
  assert (Hthr : MAX_LOGIN_ATTEMPTS E <= COALESCE (failed_login_attempts u) 0).
  { apply Hinv.
    - unfold userByEmail in Hmail. now apply find_some in Hmail.
    - rewrite Hlu. discriminate. }
  split; [exact Hthr|].
  destruct (signin_wrong_password E e pw w u Hpk Hmail) as (w' & Hrun & Hrow);
    try assumption.
  { unfold lockedAt. rewrite Hlu. apply Z.ltb_ge. exact Hle. }
  destruct (Z.ltb_spec (COALESCE (failed_login_attempts u) 0 + 1) (MAX_LOGIN_ATTEMPTS E));
    [lia|].
  eexists w', _. split; [exact Hrun|]. split; [exact Hrow|].
  repeat split.
  unfold lockedAt. cbn. unfold addMinutes, msPerMinute.
  destruct (Z.ltb_spec 0 (LOCKOUT_DURATION_MINUTES E));
    [apply Z.ltb_lt|apply Z.ltb_ge]; lia.
Qed.

Lemma usersReachable_history (E : Env) (ops : list UserOp) (w : World) :
  usersReachable E (db w) ->
  usersReachable E (db (fold_left (fun v op => runUserOp E op v) ops w)).
Proof.
  revert w. induction ops as [|op ops IH]; intros w H; [exact H|].
  cbn [fold_left]. apply IH. now apply users_op.
Qed.

Lemma lapsed_lock_relocks_on_first_failure_witness :
  exists w' u',
    Routes.signin exampleEnv "alice@example.com" "guess" lapsedWorld =
      (Throw (TooManyRequestsError
                "Account locked due to too many failed attempts. Try again in 15 minutes."),
       w') /\
    userById lapsedId (db w') = Some u' /\
    locked_until u' = Some 2900000 /\
    failed_login_attempts u' = Some 6.
Proof.
  destruct (lapsed_lock_relocks_on_first_failure exampleEnv "alice@example.com" "guess"
              lapsedWorld lapsedAlice 901000)
    as (_ & w' & u' & Hrun & Hrow & Hlock & Hn & _).
  - apply (users_other exampleEnv
             (db (fold_left (fun v op => runUserOp exampleEnv op v) lapsedHistory
                            (worldOf emptyDb 1000 [])))).
    + apply usersReachable_history. now apply users_empty.
    + vm_compute. reflexivity.
  - reflexivity.
  - reflexivity.
  - vm_compute. discriminate.
  - reflexivity.
  - reflexivity.
  - exists w', u'. split; [exact Hrun|]. split; [exact Hrow|].
    split; [exact Hlock|exact Hn].
Defined.

(** [User.recordFailedLoginAttempt] is the increment followed by what it
    does with the counter read back, with an [await] between them. *)
Lemma recordFailedLoginAttempt_splits (E : Env) (uid : string) :
  User.recordFailedLoginAttempt E uid =
  (rows <- incrementFailedAttempts uid ;; lockAfterIncrement E uid rows).
Proof. reflexivity. Qed.

(** C10, as stated, fails: when the reset of the counter that a
    successful sign-in sends is answered between the increment and the
    lock of a failed attempt, the lock is written over a counter of 0.
    Once that lock has lapsed, with no sign-in or unlock after it was
    written, the counter is below the threshold and a failed attempt is
    answered with attempts remaining: the account is not locked
    again. *)
Lemma lapsed_lock_grace_after_interleaving :
  (exists u, userById "u1" (db racedLockWorld) = Some u /\
             failed_login_attempts u = Some 0 /\ locked_until u = Some 901000) /\
  fst (Routes.signin exampleEnv "alice@example.com" "guess"
         (at_time 2000000 racedLockWorld)) =
    Throw (UnauthorizedError "Invalid email or password. 4 attempts remaining.") /\
  ~ (forall u, userById "u1" (db racedLockWorld) = Some u ->
               MAX_LOGIN_ATTEMPTS exampleEnv <= COALESCE (failed_login_attempts u) 0).
Proof.
  split; [eexists; vm_compute; repeat split|].
  split; [vm_compute; reflexivity|].
  intros H. specialize (H _ eq_refl). vm_compute in H. apply H. reflexivity.
Qed.

(* ================================================================== *)
(** ** Further properties of the token stores *)

Lemma filter_filter_same {A : Type} (p : A -> bool) (l : list A) :
  filter p (filter p l) = filter p l.
Proof.
  induction l as [|a l IH]; simpl; [reflexivity|].
  destruct (p a) eqn:Ha; simpl; [now rewrite Ha, IH|exact IH].
Qed.

Lemma filter_split_length {A : Type} (p : A -> bool) (l : list A) :
  (List.length (filter p l) + List.length (filter (fun a => negb (p a)) l)
   = List.length l)%nat.
Proof.
  induction l as [|a l IH]; simpl; [reflexivity|].
  destruct (p a); simpl; lia.
Qed.

Lemma filter_complement_nil {A : Type} (p : A -> bool) (l : list A) :
  filter p (filter (fun a => negb (p a)) l) = [].
Proof.
  induction l as [|a l IH]; simpl; [reflexivity|].
  destruct (p a) eqn:Ha; simpl; [exact IH|now rewrite Ha].
Qed.

(** X1.  [PasswordReset.deleteExpired] deletes exactly the reset tokens
    whose expiry is strictly before now (a token that expires now and a
    used token that has not expired stay), returns how many it deleted,
    leaves the other tables alone, and deletes nothing when run again. *)
Theorem reset_deleteExpired_exact (w : World) :
  hd false (faults w) = false ->
  exists n w',
    PasswordReset.deleteExpired w = (Ok n, w') /\
    (forall r, In r (auth_password_resets (db w')) <->
               In r (auth_password_resets (db w)) /\ now w <= pr_expires_at r) /\
    n = Z.of_nat (List.length (auth_password_resets (db w))) -
        Z.of_nat (List.length (auth_password_resets (db w'))) /\
    auth_users (db w') = auth_users (db w) /\
    auth_refresh_tokens (db w') = auth_refresh_tokens (db w) /\
    forall v, db v = db w' -> now v = now w -> hd false (faults v) = false ->
              fst (PasswordReset.deleteExpired v) = Ok 0 /\
              db (snd (PasswordReset.deleteExpired v)) = db v.
Proof.
  intros Hf. unfold PasswordReset.deleteExpired. rewrite query_run by exact Hf.
  eexists _, _. split; [reflexivity|]. cbn [db auth_password_resets with_resets
    auth_users auth_refresh_tokens].
  split; [|split; [|split; [reflexivity|split; [reflexivity|]]]].
  - intros r. rewrite filter_In. unfold PasswordReset.expiredAt.
    rewrite negb_true_iff, Z.ltb_ge. reflexivity.
  - unfold rowCount.
    pose proof (filter_split_length (PasswordReset.expiredAt (now w))
                  (auth_password_resets (db w))). lia.
  - intros v Hdb Hnow Hfv. rewrite query_run by exact Hfv. rewrite Hdb, Hnow.
    cbn [fst snd db auth_password_resets with_resets]. split.
    + unfold rowCount. now rewrite filter_complement_nil.
    + unfold with_resets. cbn. f_equal.
      apply (filter_filter_same (fun r => negb (PasswordReset.expiredAt (now w) r))).
Qed.

Lemma reset_deleteExpired_exact_witness :
  exists w',
    PasswordReset.deleteExpired reapWorld = (Ok 1, w') /\
    auth_password_resets (db w') = [resetRow "tokB" 1000 true; resetRow "tokC" 5000 false].
Proof.
  destruct (reset_deleteExpired_exact reapWorld eq_refl) as (n & w' & Hrun & _).
  exists w'. vm_compute in Hrun. injection Hrun as Hn Hw. subst n w'.
  split; reflexivity.
Defined.

(** X2.  [RefreshToken.deleteExpired] deletes exactly the refresh tokens
    whose expiry is strictly before now, whatever their revoked flag,
    returns how many it deleted, leaves the other tables alone, and
    deletes nothing when run again. *)
Theorem refresh_deleteExpired_exact (w : World) :
  hd false (faults w) = false ->
  exists n w',
    RefreshToken.deleteExpired w = (Ok n, w') /\
    (forall r, In r (auth_refresh_tokens (db w')) <->
               In r (auth_refresh_tokens (db w)) /\ now w <= rt_expires_at r) /\
    n = Z.of_nat (List.length (auth_refresh_tokens (db w))) -
        Z.of_nat (List.length (auth_refresh_tokens (db w'))) /\
    auth_users (db w') = auth_users (db w) /\
    auth_password_resets (db w') = auth_password_resets (db w) /\
    forall v, db v = db w' -> now v = now w -> hd false (faults v) = false ->
              fst (RefreshToken.deleteExpired v) = Ok 0 /\
              db (snd (RefreshToken.deleteExpired v)) = db v.
Proof.
  intros Hf. unfold RefreshToken.deleteExpired. rewrite query_run by exact Hf.
  eexists _, _. split; [reflexivity|]. cbn [db auth_password_resets with_refresh
    auth_users auth_refresh_tokens].
  split; [|split; [|split; [reflexivity|split; [reflexivity|]]]].
  - intros r. rewrite filter_In, negb_true_iff, Z.ltb_ge. reflexivity.
  - unfold rowCount.
    pose proof (filter_split_length (fun r => rt_expires_at r <? now w)
                  (auth_refresh_tokens (db w))). lia.
  - intros v Hdb Hnow Hfv. rewrite query_run by exact Hfv. rewrite Hdb, Hnow.
    cbn [fst snd db auth_refresh_tokens with_refresh]. split.
    + unfold rowCount.
      now rewrite (filter_complement_nil (fun r => rt_expires_at r <? now w)).
    + unfold with_refresh. cbn. f_equal.
      apply (filter_filter_same (fun r => negb (rt_expires_at r <? now w))).
Qed.

Lemma refresh_deleteExpired_exact_witness :
  exists w',
    RefreshToken.deleteExpired reapWorld = (Ok 1, w') /\
    map rt_id (auth_refresh_tokens (db w')) = ["s2"; "s3"].
Proof.
  destruct (refresh_deleteExpired_exact reapWorld eq_refl) as (n & w' & Hrun & _).
  exists w'. vm_compute in Hrun. injection Hrun as Hn Hw. subst n w'.
  split; reflexivity.
Defined.

(** X3.  The hourly cleanup never throws and never touches the
    credentials.  When the store answers, it leaves in both token tables
    exactly the rows that have not expired; when the first delete raises,
    the second is not sent and the reset tokens stay as they are. *)
Theorem cleanup_swallows_errors (w : World) :
  fst (cleanupExpiredTokens w) = Ok tt /\
  auth_users (db (snd (cleanupExpiredTokens w))) = auth_users (db w) /\
  (hd false (faults w) = true ->
     db (snd (cleanupExpiredTokens w)) = db w /\
     trace (snd (cleanupExpiredTokens w)) = Sql DeleteExpiredRefreshTokens :: trace w) /\
  (hd false (faults w) = false -> hd false (tl (faults w)) = false ->
     auth_refresh_tokens (db (snd (cleanupExpiredTokens w))) =
       filter (fun r => now w <=? rt_expires_at r) (auth_refresh_tokens (db w)) /\
     auth_password_resets (db (snd (cleanupExpiredTokens w))) =
       filter (fun r => now w <=? pr_expires_at r) (auth_password_resets (db w))).
Proof.
  unfold cleanupExpiredTokens, catch, bind, RefreshToken.deleteExpired,
    PasswordReset.deleteExpired, query, ret.
  destruct (hd false (faults w)) eqn:Hf1; cbn.
  - repeat split; intros; try discriminate; reflexivity.
  - destruct (hd false (tl (faults w))) eqn:Hf2; cbn.
    + repeat split; intros; discriminate.
    + split; [reflexivity|]. split; [reflexivity|]. split; [discriminate|].
      intros _ _. split; apply filter_ext; intros r;
        unfold PasswordReset.expiredAt; now rewrite Z.leb_antisym.
Qed.

Lemma updateWhere_absorbing {A : Type} (p : A -> bool) (f : A -> A) (l : list A) :
  (forall a, p (f a) = false) ->
  updateWhere p f (updateWhere p f l) = updateWhere p f l.
Proof.
  intros Hp. unfold updateWhere. rewrite map_map. apply map_ext. intros a.
  destruct (p a) eqn:Ha; [now rewrite Hp|now rewrite Ha].
Qed.

(** X4.  For an id given in the text form in which the store prints
    ids (lower-case, 8-4-4-4-12), [RefreshToken.revokeAllForUser]
    revokes every refresh token of the credential and changes nothing
    else: the tokens of other credentials, and the other columns of
    every row, stay as they are; running it again changes nothing.
    (Another spelling of the same [uuid] is outside this statement: the
    store compares by value, the tables here hold text.) *)
Theorem revokeAllForUser_exact (uid : string) (w : World) :
  isUuidText uid = true ->
  Forall (fun r => isUuidText (rt_user_id r) = true) (auth_refresh_tokens (db w)) ->
  hd false (faults w) = false ->
  exists w',
    RefreshToken.revokeAllForUser uid w = (Ok tt, w') /\
    auth_refresh_tokens (db w') =
      map (fun r => if (rt_user_id r =? uid)%string then RefreshToken.set_revoked r else r)
          (auth_refresh_tokens (db w)) /\
    (forall r, In r (auth_refresh_tokens (db w')) -> rt_user_id r = uid ->
               rt_revoked r = true) /\
    auth_users (db w') = auth_users (db w) /\
    auth_password_resets (db w') = auth_password_resets (db w) /\
    forall v, db v = db w' -> hd false (faults v) = false ->
              db (snd (RefreshToken.revokeAllForUser uid v)) = db v.
Proof.
  intros _ _ Hf. unfold RefreshToken.revokeAllForUser. rewrite query_run by exact Hf.
  eexists. split; [reflexivity|]. cbn -[updateWhere].
  assert (Hmap : updateWhere (RefreshToken.liveOf uid) RefreshToken.set_revoked
                   (auth_refresh_tokens (db w)) =
                 map (fun r => if (rt_user_id r =? uid)%string
                               then RefreshToken.set_revoked r else r)
                     (auth_refresh_tokens (db w))).
  { unfold updateWhere. apply map_ext. intros r. unfold RefreshToken.liveOf.
    destruct (rt_user_id r =? uid)%string; cbn [andb]; [|reflexivity].
    destruct (rt_revoked r) eqn:Hr; cbn [negb]; [|reflexivity].
    symmetry. now apply set_revoked_fixed. }
  split; [exact Hmap|]. split; [|split; [reflexivity|split; [reflexivity|]]].
  - intros r Hin Hown. eapply refresh_all_revoked; eassumption.
  - intros v Hdb Hfv. rewrite query_run by exact Hfv. rewrite Hdb.
    cbn -[updateWhere]. unfold with_refresh. cbn -[updateWhere]. f_equal.
    apply updateWhere_absorbing.
    intros r. unfold RefreshToken.liveOf. cbn. apply andb_false_r.
Qed.

Lemma revokeAllForUser_exact_witness :
  exists w',
    RefreshToken.revokeAllForUser bobId afterSignupWorld = (Ok tt, w') /\
    map rt_revoked (auth_refresh_tokens (db w')) = [true].
Proof.
  assert (Hid : isUuidText bobId = true) by (vm_compute; reflexivity).
  assert (Hrows : Forall (fun r => isUuidText (rt_user_id r) = true)
                         (auth_refresh_tokens (db afterSignupWorld)))
    by (repeat constructor).
  destruct (revokeAllForUser_exact bobId afterSignupWorld Hid Hrows eq_refl)
    as (w' & Hrun & Hmap & _).
  exists w'. split; [exact Hrun|]. rewrite Hmap. reflexivity.
Defined.

Lemma cleanup_swallows_errors_witness :
  fst (cleanupExpiredTokens reapWorld) = Ok tt /\
  map rt_id (auth_refresh_tokens (db (snd (cleanupExpiredTokens reapWorld)))) = ["s2"; "s3"] /\
  map pr_token (auth_password_resets (db (snd (cleanupExpiredTokens reapWorld)))) =
    ["tokB"; "tokC"].
Proof.
  destruct (cleanup_swallows_errors reapWorld) as (Hok & _ & _ & H).
  destruct (H eq_refl eq_refl) as [Hr Hp].
  split; [exact Hok|]. rewrite Hr, Hp. split; reflexivity.
Defined.

(* ================================================================== *)
(** ** Sessions: refresh, sign-out, sign-out everywhere *)

Lemma refresh_findByToken_run (token : string) (w : World) (r : refresh_token)
    (u : auth_user) :
  refreshByToken token (db w) = Some r ->
  userById (rt_user_id r) (db w) = Some u ->
  hd false (faults w) = false ->
  RefreshToken.findByToken token w =
  (Ok (Some (r, email u)),
   mkWorld (db w) (now w) (tl (faults w)) (entropy w) (pg_entropy w)
           (Sql SelectRefreshTokenByToken :: trace w)).
Proof.
  intros Hr Hu Hf. unfold RefreshToken.findByToken, bind.
  rewrite query_run by exact Hf. unfold refreshByToken in Hr.
  destruct (find_filter_cons _ _ _ Hr) as [rest Hrest].
  change (fun r => (rt_token r =? token)%string) with (RefreshToken.hasToken token) in Hrest.
  rewrite Hrest. cbn [flat_map]. unfold joinUsers at 1.
  destruct (userById_filter _ _ _ Hu) as [us Hus]. rewrite Hus. reflexivity.
Qed.

Lemma refresh_findByToken_none (token : string) (w : World) :
  refreshByToken token (db w) = None ->
  hd false (faults w) = false ->
  fst (RefreshToken.findByToken token w) = Ok None.
Proof.
  intros Hr Hf. unfold RefreshToken.findByToken, bind.
  rewrite query_run by exact Hf. unfold refreshByToken in Hr.
  rewrite <- hd_filter_find in Hr.
  change (fun r => (rt_token r =? token)%string) with (RefreshToken.hasToken token) in Hr.
  destruct (filter (RefreshToken.hasToken token) (auth_refresh_tokens (db w)));
    [reflexivity|discriminate].
Qed.

Lemma refresh_reads (E : Env) (token : string) (w : World) :
  db (snd (Routes.refresh E token w)) = db w.
Proof.
  unfold Routes.refresh, RefreshToken.findByToken, bind, query.
  destruct (hd false (faults w)); [reflexivity|]. cbn.
  destruct (hd_error _) as [[r mail]|]; [|reflexivity].
  destruct (rt_revoked r); [reflexivity|]. cbn.
  destruct (rt_expires_at r <? now w); reflexivity.
Qed.

Lemma refresh_of_revoked (E : Env) (token : string) (w : World) (r : refresh_token)
    (u : auth_user) :
  refreshByToken token (db w) = Some r ->
  userById (rt_user_id r) (db w) = Some u ->
  rt_revoked r = true ->
  hd false (faults w) = false ->
  fst (Routes.refresh E token w) =
  Throw (UnauthorizedError "Refresh token has been revoked").
Proof.
  intros Hr Hu Hrev Hf. unfold Routes.refresh, bind.
  rewrite (refresh_findByToken_run token w r u Hr Hu Hf). now rewrite Hrev.
Qed.

(** X5.  POST /auth/refresh never changes the store: the refresh token is
    not rotated, revoked or extended.  It fails with 401 "Invalid refresh
    token" for a token that is not stored, otherwise "Refresh token has
    been revoked" (also when the token is expired as well), otherwise
    "Refresh token has expired" when the expiry is strictly before now,
    and otherwise answers 200 with an access token signed for the owner
    of the token. *)
Theorem refresh_route_outcomes (E : Env) (token : string) (w : World) :
  hd false (faults w) = false ->
  db (snd (Routes.refresh E token w)) = db w /\
  (refreshByToken token (db w) = None ->
     fst (Routes.refresh E token w) = Throw (UnauthorizedError "Invalid refresh token")) /\
  (forall r u,
     refreshByToken token (db w) = Some r ->
     userById (rt_user_id r) (db w) = Some u ->
     (rt_revoked r = true ->
        fst (Routes.refresh E token w) =
        Throw (UnauthorizedError "Refresh token has been revoked")) /\
     (rt_revoked r = false -> rt_expires_at r < now w ->
        fst (Routes.refresh E token w) =
        Throw (UnauthorizedError "Refresh token has expired")) /\
     (rt_revoked r = false -> now w <= rt_expires_at r ->
        fst (Routes.refresh E token w) =
        Ok (mkResponse 200
              [("message", JString "Token refreshed successfully");
               ("accessToken", JString (jwt_sign E (rt_user_id r) (email u) (now w)));
               ("expiresIn", JString (JWT_EXPIRES_IN E))]))).
Proof.
  intros Hf. split; [apply refresh_reads|]. split.
  - intros Hnone. unfold Routes.refresh, bind.
    pose proof (refresh_findByToken_none token w Hnone Hf) as H.
    destruct (RefreshToken.findByToken token w) as [res w1]. cbn in H. now subst res.
  - intros r u Hr Hu. unfold Routes.refresh, bind.
    rewrite (refresh_findByToken_run token w r u Hr Hu Hf).
    unfold newDateNow, generateAccessToken, bind, ret. cbn [now].
    split; [|split].
    + intros Hrev. now rewrite Hrev.
    + intros Hrev Hlt. rewrite Hrev. cbn beta iota. cbn [now].
      apply Z.ltb_lt in Hlt. now rewrite Hlt.
    + intros Hrev Hle. rewrite Hrev. cbn beta iota. cbn [now].
      apply Z.ltb_ge in Hle. now rewrite Hle.
Qed.

Lemma refresh_route_outcomes_witness :
  fst (Routes.refresh exampleEnv "0e0e0e0e-0000-4000-8000-000000000002" reapWorld) =
  Throw (UnauthorizedError "Refresh token has been revoked").
Proof.
  destruct (refresh_route_outcomes exampleEnv "0e0e0e0e-0000-4000-8000-000000000002"
              reapWorld eq_refl) as (_ & _ & H).
  destruct (H (mkRefresh "s2" "u1" "0e0e0e0e-0000-4000-8000-000000000002" 1000 0 true)
              (alice (Some 0) None) eq_refl eq_refl) as (Hrev & _).
  apply Hrev. reflexivity.
Defined.

Lemma refreshByToken_updateWhere (p : refresh_token -> bool) (token : string)
    (d : Database) :
  refreshByToken token
    (with_refresh d (updateWhere p RefreshToken.set_revoked (auth_refresh_tokens d))) =
  option_map (fun r => if p r then RefreshToken.set_revoked r else r)
             (refreshByToken token d).
Proof.
  unfold refreshByToken. cbn -[updateWhere].
  now rewrite find_updateWhere_preserved by reflexivity.
Qed.

(** X6.  Signing out ends the session: after POST /auth/signout with a
    stored refresh token, POST /auth/refresh with that token fails with
    401 "Refresh token has been revoked", at any later time. *)
Theorem signout_then_refresh_fails (E : Env) (token : string) (w : World)
    (r : refresh_token) (u : auth_user) :
  refreshByToken token (db w) = Some r ->
  userById (rt_user_id r) (db w) = Some u ->
  hd false (faults w) = false ->
  exists w1,
    Routes.signout token w =
      (Ok (mkResponse 200 [("message", JString "Signed out successfully")]), w1) /\
    forall v, db v = db w1 -> hd false (faults v) = false ->
      fst (Routes.refresh E token v) =
      Throw (UnauthorizedError "Refresh token has been revoked").
Proof.
  intros Hr Hu Hf. unfold Routes.signout, bind.
  rewrite revoke_run by exact Hf. eexists. split; [reflexivity|].
  intros v Hdb Hfv.
  assert (Hr' : refreshByToken token (db v) = Some (RefreshToken.set_revoked r)).
  { rewrite Hdb. cbn [db]. rewrite refreshByToken_updateWhere, Hr. cbn.
    unfold refreshByToken in Hr. apply find_some in Hr. destruct Hr as [_ Ht].
    unfold RefreshToken.hasToken. now rewrite Ht. }
  apply (refresh_of_revoked E token v (RefreshToken.set_revoked r) u Hr');
    [|reflexivity|exact Hfv].
  rewrite Hdb. exact Hu.
Qed.

Lemma signout_then_refresh_fails_witness :
  exists w1,
    fst (Routes.signout "0e0e0e0e-0000-4000-8000-000000000001" sessionsWorld) =
      Ok (mkResponse 200 [("message", JString "Signed out successfully")]) /\
    w1 = snd (Routes.signout "0e0e0e0e-0000-4000-8000-000000000001" sessionsWorld) /\
    fst (Routes.refresh exampleEnv "0e0e0e0e-0000-4000-8000-000000000001" w1) =
      Throw (UnauthorizedError "Refresh token has been revoked").
Proof.
  destruct (signout_then_refresh_fails exampleEnv "0e0e0e0e-0000-4000-8000-000000000001"
              sessionsWorld (session "0e0e0e0e-0000-4000-8000-000000000001" false)
              (alice (Some 0) None) eq_refl eq_refl eq_refl) as (w1 & Hrun & Hnext).
  exists w1. rewrite Hrun. cbn [fst snd]. repeat split.
  apply Hnext; [reflexivity|].
  vm_compute in Hrun. injection Hrun as Hw. subst w1. reflexivity.
Defined.

(* ================================================================== *)
(** ** After a password reset *)

(** The tables a successful reset leaves behind. *)
Lemma resetPassword_tables (E : Env) (token pw : string) (w : World)
    (r : password_reset) (u : auth_user) :
  resetByToken token (db w) = Some r ->
  pr_used r = false ->
  now w <= pr_expires_at r ->
  userById (pr_user_id r) (db w) = Some u ->
  faults w = [] ->
  let h := bcrypt_hash E pw (BCRYPT_ROUNDS E) (takeBytes 16 (entropy w)) in
  let w' := snd (Routes.resetPassword E token pw w) in
  (exists resp, fst (Routes.resetPassword E token pw w) = Ok resp) /\
  auth_users (db w') =
    updateWhere (hasId (pr_user_id r)) (User.clear_lockout (now w))
      (updateWhere (hasId (pr_user_id r)) (User.set_password h (now w))
                   (auth_users (db w))) /\
  auth_refresh_tokens (db w') =
    updateWhere (RefreshToken.liveOf (pr_user_id r)) RefreshToken.set_revoked
                (auth_refresh_tokens (db w)) /\
  auth_password_resets (db w') =
    updateWhere (PasswordReset.hasToken token) PasswordReset.set_used
                (auth_password_resets (db w)).
Proof.
  intros Hr Hused Hexp Hu Hf h w'. subst w'.
  unfold Routes.resetPassword, bind.
  rewrite (validateToken_valid_run token w r u) by (try assumption; now rewrite Hf).
  cbn [valid negb userId].
  unfold User.updatePassword, PasswordReset.markAsUsed, RefreshToken.revokeAllForUser,
    User.resetFailedLoginAttempts, randomBytes, event, bind, query, emit, ret.
  cbn -[updateWhere takeBytes]. rewrite Hf. cbn -[updateWhere takeBytes].
  split; [eexists; reflexivity|]. repeat split.
Qed.

Lemma validateToken_of_used (token : string) (w : World) (r : password_reset)
    (u : auth_user) :
  resetByToken token (db w) = Some r ->
  pr_used r = true ->
  userById (pr_user_id r) (db w) = Some u ->
  hd false (faults w) = false ->
  PasswordReset.validateToken token w =
  (Ok alreadyUsed,
   mkWorld (db w) (now w) (tl (faults w)) (entropy w) (pg_entropy w)
           (Sql SelectPasswordResetByToken :: trace w)).
Proof.
  intros Hr Hused Hu Hf.
  unfold PasswordReset.validateToken, bind. rewrite findByToken_run by exact Hf.
  unfold resetByToken in Hr.
  destruct (find_filter_cons _ _ _ Hr) as [rest Hrest].
  change (fun r => (pr_token r =? token)%string) with (PasswordReset.hasToken token) in Hrest.
  rewrite Hrest. cbn [flat_map]. unfold joinUsers at 1.
  destruct (userById_filter _ _ _ Hu) as [us Hus]. rewrite Hus.
  cbn [map app hd_error]. now rewrite Hused.
Qed.

Lemma userById_map_id (uid : string) (d d' : Database) (u : auth_user) :
  map id (auth_users d') = map id (auth_users d) ->
  userById uid d = Some u ->
  exists u', userById uid d' = Some u'.
Proof.
  unfold userById. intros Hids Hu.
  destruct (find (hasId uid) (auth_users d')) as [u'|] eqn:Hfind; [eauto|].
  exfalso. apply find_some in Hu. destruct Hu as [Hin Hid].
  apply hasId_eq in Hid.
  assert (Hin' : In uid (map id (auth_users d'))).
  { rewrite Hids. apply in_map_iff. eauto. }
  apply in_map_iff in Hin'. destruct Hin' as (x & Hx & Hinx).
  pose proof (find_none _ _ Hfind x Hinx) as Hno.
  unfold hasId in Hno. rewrite Hx, String.eqb_refl in Hno. discriminate.
Qed.

(** X7.  A reset token is single-use: after POST /auth/reset-password
    succeeded with a token, a second request with the same token fails
    with 400 "Token has already been used" at any later time, and leaves
    the store, so the password of the first request, as it is. *)
Theorem reset_token_single_use (E : Env) (token pw pw2 : string) (w : World)
    (r : password_reset) (u : auth_user) :
  resetByToken token (db w) = Some r ->
  pr_used r = false ->
  now w <= pr_expires_at r ->
  userById (pr_user_id r) (db w) = Some u ->
  faults w = [] ->
  (exists resp, fst (Routes.resetPassword E token pw w) = Ok resp) /\
  forall v,
    db v = db (snd (Routes.resetPassword E token pw w)) ->
    hd false (faults v) = false ->
    fst (Routes.resetPassword E token pw2 v) =
      Throw (BadRequestError "Token has already been used") /\
    db (snd (Routes.resetPassword E token pw2 v)) = db v.
Proof.
  intros Hr Hused Hexp Hu Hf.
  destruct (resetPassword_tables E token pw w r u Hr Hused Hexp Hu Hf)
    as (Hok & Husers & _ & Hresets).
  split; [exact Hok|]. intros v Hdb Hfv.
  assert (Hr' : resetByToken token (db v) = Some (PasswordReset.set_used r)).
  { unfold resetByToken. rewrite Hdb, Hresets.
    change (fun r0 => (pr_token r0 =? token)%string) with (PasswordReset.hasToken token).
    rewrite find_updateWhere_same by reflexivity.
    unfold resetByToken in Hr.
    change (fun r0 => (pr_token r0 =? token)%string) with (PasswordReset.hasToken token) in Hr.
    now rewrite Hr. }
  destruct (userById_map_id (pr_user_id r) (db w) (db v) u) as [u' Hu'].
  { rewrite Hdb, Husers. now rewrite !map_id_updateWhere by reflexivity. }
  { exact Hu. }
  unfold Routes.resetPassword, bind.
  rewrite (validateToken_of_used token v (PasswordReset.set_used r) u' Hr' eq_refl Hu' Hfv).
  split; reflexivity.
Qed.

(** X8.  A password reset ends every session of the credential: after
    POST /auth/reset-password succeeded, POST /auth/refresh with a
    refresh token of that credential fails with 401 "Refresh token has
    been revoked", at any later time. *)
Theorem reset_revokes_sessions (E : Env) (token pw rt : string) (w : World)
    (r : password_reset) (u : auth_user) (s : refresh_token) :
  resetByToken token (db w) = Some r ->
  pr_used r = false ->
  now w <= pr_expires_at r ->
  userById (pr_user_id r) (db w) = Some u ->
  faults w = [] ->
  refreshByToken rt (db w) = Some s ->
  rt_user_id s = pr_user_id r ->
  forall v,
    db v = db (snd (Routes.resetPassword E token pw w)) ->
    hd false (faults v) = false ->
    fst (Routes.refresh E rt v) =
      Throw (UnauthorizedError "Refresh token has been revoked").
Proof.
  intros Hr Hused Hexp Hu Hf Hs Hown v Hdb Hfv.
  destruct (resetPassword_tables E token pw w r u Hr Hused Hexp Hu Hf)
    as (_ & Husers & Hrefresh & _).
  destruct (userById_map_id (pr_user_id r) (db w) (db v) u) as [u' Hu'].
  { rewrite Hdb, Husers. now rewrite !map_id_updateWhere by reflexivity. }
  { exact Hu. }
  set (s' := if RefreshToken.liveOf (pr_user_id r) s then RefreshToken.set_revoked s else s).
  assert (Hs' : refreshByToken rt (db v) = Some s').
  { unfold refreshByToken. rewrite Hdb, Hrefresh.
    rewrite find_updateWhere_preserved by reflexivity.
    unfold refreshByToken in Hs. now rewrite Hs. }
  assert (Hown' : rt_user_id s' = pr_user_id r).
  { subst s'. destruct (RefreshToken.liveOf (pr_user_id r) s); exact Hown. }
  apply (refresh_of_revoked E rt v s' u' Hs'); [now rewrite Hown'| |exact Hfv].
  subst s'. unfold RefreshToken.liveOf. rewrite Hown, String.eqb_refl. cbn [andb].
  destruct (rt_revoked s) eqn:Hrev; cbn [negb]; [exact Hrev|reflexivity].
Qed.

Lemma reset_token_single_use_witness :
  fst (Routes.resetPassword exampleEnv "tokA" "Another2"
         (snd (Routes.resetPassword exampleEnv "tokA" "NewSecret1" resetWorld))) =
  Throw (BadRequestError "Token has already been used").
Proof.
  assert (Hle : now resetWorld <= pr_expires_at (resetRow "tokA" 5000 false))
    by (vm_compute; discriminate).
  destruct (reset_token_single_use exampleEnv "tokA" "NewSecret1" "Another2" resetWorld
              (resetRow "tokA" 5000 false) (alice (Some 3) None)
              eq_refl eq_refl Hle eq_refl eq_refl) as [_ H].
  apply H; reflexivity.
Defined.

Lemma reset_revokes_sessions_witness :
  fst (Routes.refresh exampleEnv "0e0e0e0e-0000-4000-8000-000000000001"
         (snd (Routes.resetPassword exampleEnv "tokA" "NewSecret1" resetWorld))) =
  Throw (UnauthorizedError "Refresh token has been revoked").
Proof.
  assert (Hle : now resetWorld <= pr_expires_at (resetRow "tokA" 5000 false))
    by (vm_compute; discriminate).
  apply (reset_revokes_sessions exampleEnv "tokA" "NewSecret1"
           "0e0e0e0e-0000-4000-8000-000000000001" resetWorld
           (resetRow "tokA" 5000 false) (alice (Some 3) None)
           (mkRefresh "s1" "u1" "0e0e0e0e-0000-4000-8000-000000000001" 9000 0 false)
           eq_refl eq_refl Hle eq_refl eq_refl eq_refl eq_refl);
    reflexivity.
Defined.

(* ================================================================== *)
(** ** Consecutive failures *)

Lemma find_email_updateWhere (uid e : string) (f : auth_user -> auth_user)
    (l : list auth_user) (u : auth_user) :
  (forall a, email (f a) = email a) ->
  find (fun a => (email a =? e)%string) l = Some u ->
  find (fun a => (email a =? e)%string) (updateWhere (hasId uid) f l) =
  Some (if hasId uid u then f u else u).
Proof.
  intros Hmail Hu.
  rewrite find_updateWhere_preserved by (intros a; now rewrite Hmail).
  now rewrite Hu.
Qed.

(** The world a wrong password leaves behind when the pre-check lets the
    request through. *)
Lemma signin_wrong_password_world (E : Env) (e pw : string) (w : World) (u : auth_user) :
  primaryKey (db w) ->
  userByEmail (toLowerCase e) (db w) = Some u ->
  lockedAt (now w) u = false ->
  bcrypt_compare E pw (password_hash u) = false ->
  faults w = [] ->
  let n := COALESCE (failed_login_attempts u) 0 + 1 in
  let until := addMinutes (now w) (LOCKOUT_DURATION_MINUTES E) in
  let u' := if n <? MAX_LOGIN_ATTEMPTS E
            then User.increment_attempts (now w) u
            else User.set_locked_until until (now w) (User.increment_attempts (now w) u) in
  let w' := snd (Routes.signin E e pw w) in
  faults w' = [] /\ now w' = now w /\ primaryKey (db w') /\
  userByEmail (toLowerCase e) (db w') = Some u'.
Proof.
  intros Hpk Hmail Hlock Hpw Hf n until u' w'. subst w'.
  pose proof (userByEmail_userById _ _ _ Hpk Hmail) as Hid.
  unfold Routes.signin, bind.
  rewrite findByEmail_run by now rewrite Hf.
  rewrite Hmail. set (w1 := mkWorld _ _ _ _ _ _).
  rewrite (isAccountLocked_run _ w1 u Hid) by (subst w1; simpl; now rewrite Hf).
  assert (Hst : lockStatusOf (now w1) u = mkLockStatus false None None).
  { unfold lockStatusOf. unfold lockedAt in Hlock. subst w1. simpl.
    destruct (locked_until u) as [lu|]; [|reflexivity].
    destruct (Z.gtb_spec lu (now w)); [|reflexivity].
    apply Z.ltb_ge in Hlock. lia. }
  rewrite Hst. cbn [locked].
  unfold User.verifyPassword, event, bind, ret. rewrite Hpw. cbn [negb].
  unfold User.recordFailedLoginAttempt, bind.
  rewrite query_run by (subst w1; cbn; now rewrite Hf).
  rewrite filter_updateWhere_same by reflexivity.
  subst w1. cbn -[updateWhere].
  destruct (userById_filter _ _ _ Hid) as [rest Hrest]. rewrite Hrest.
  cbn -[updateWhere]. fold n. rewrite Z.geb_leb, Z.leb_antisym.
  subst u'. destruct (n <? MAX_LOGIN_ATTEMPTS E); cbn -[updateWhere].
  - rewrite Hf. repeat split.
    + unfold primaryKey in *. cbn [db auth_users with_users].
      now rewrite map_id_updateWhere by reflexivity.
    + unfold userByEmail in *. cbn [db auth_users with_users].
      rewrite (find_email_updateWhere (id u) _ _ _ u) by (reflexivity || exact Hmail).
      now rewrite hasId_refl.
  - unfold newDateNow, query, sendAccountLockedEmail, event, throw.
    cbn -[updateWhere]. rewrite Hf. cbn -[updateWhere]. repeat split.
    + unfold primaryKey in *. cbn [db auth_users with_users].
      now rewrite !map_id_updateWhere by reflexivity.
    + unfold userByEmail in *. cbn [db auth_users with_users].
      rewrite updateWhere_compose by reflexivity.
      rewrite (find_email_updateWhere (id u) _ _ _ u) by (reflexivity || exact Hmail).
      rewrite hasId_refl. reflexivity.
Qed.

(** A sign-in while the credential is locked only reads. *)
Lemma signin_locked_world (E : Env) (e pw : string) (w : World) (u : auth_user) (lu : Date) :
  primaryKey (db w) ->
  userByEmail (toLowerCase e) (db w) = Some u ->
  locked_until u = Some lu ->
  now w < lu ->
  faults w = [] ->
  Routes.signin E e pw w =
  (Throw (TooManyRequestsError
            ("Account is locked. Try again in " ++
             numberToString (ceilDiv (lu - now w) 60000) ++ " minutes.")),
   mkWorld (db w) (now w) [] (entropy w) (pg_entropy w)
           (Sql SelectLockedUntil :: Sql SelectUserByEmail :: trace w)).
Proof.
  intros Hpk Hmail Hlu Hlt Hf.
  pose proof (userByEmail_userById _ _ _ Hpk Hmail) as Hid.
  unfold Routes.signin, bind.
  rewrite findByEmail_run by now rewrite Hf.
  rewrite Hmail. set (w1 := mkWorld _ _ _ _ _ _).
  rewrite (isAccountLocked_run _ w1 u Hid) by (subst w1; simpl; now rewrite Hf).
  unfold lockStatusOf. rewrite Hlu. subst w1. cbn [now].
  assert (Hgt : (lu >? now w) = true) by (apply Z.gtb_lt; lia).
  rewrite Hgt. cbn. rewrite Hf. reflexivity.
Qed.

Lemma ceilDiv_minutes (m : Z) : ceilDiv (m * 60000) 60000 = m.
Proof.
  unfold ceilDiv. replace (m * 60000 + 60000 - 1) with (m * 60000 + 59999) by lia.
  rewrite Z.div_add_l by lia. rewrite Z.div_small by lia. lia.
Qed.

(** The credential after consecutive wrong passwords that stay below
    the threshold, at any times. *)
Lemma signinsAt_counting (E : Env) (e pw : string) (ts : list Date) :
  forall (w : World) (u : auth_user) (c : Z),
    primaryKey (db w) ->
    userByEmail (toLowerCase e) (db w) = Some u ->
    locked_until u = None ->
    COALESCE (failed_login_attempts u) 0 = c ->
    bcrypt_compare E pw (password_hash u) = false ->
    c + Z.of_nat (List.length ts) < MAX_LOGIN_ATTEMPTS E ->
    primaryKey (db (signinsAt E e pw ts w)) /\
    exists u',
      userByEmail (toLowerCase e) (db (signinsAt E e pw ts w)) = Some u' /\
      password_hash u' = password_hash u /\
      locked_until u' = None /\
      COALESCE (failed_login_attempts u') 0 = c + Z.of_nat (List.length ts).
Proof.
  induction ts as [|t ts IH]; intros w u c Hpk Hmail Hlock Hc Hpw Hlt.
  - cbn. split; [exact Hpk|]. exists u. repeat split; try assumption. lia.
  - cbn [List.length] in Hlt. rewrite Nat2Z.inj_succ in Hlt.
    change (signinsAt E e pw (t :: ts) w)
      with (signinsAt E e pw ts (snd (Routes.signin E e pw (at_time t w)))).
    assert (Hunl : lockedAt (now (at_time t w)) u = false)
      by (unfold lockedAt; now rewrite Hlock).
    destruct (signin_wrong_password_world E e pw (at_time t w) u Hpk Hmail Hunl Hpw eq_refl)
      as (_ & _ & Hpk1 & Hu1).
    rewrite Hc in Hu1.
    destruct (Z.ltb_spec (c + 1) (MAX_LOGIN_ATTEMPTS E)) as [_|Hge]; [|lia].
    destruct (IH _ _ (c + 1) Hpk1 Hu1) as (Hpk' & u' & Hu' & Hhash & Hlk & Hcnt);
      try assumption.
    + cbn. now rewrite Hc.
    + lia.
    + split; [exact Hpk'|]. exists u'. repeat split; try assumption.
      cbn [List.length]. rewrite Nat2Z.inj_succ. lia.
Qed.

(** Sign-ins while the credential is locked leave the tables as they
    are. *)
Lemma signinsAt_locked (E : Env) (e pw : string) (ts : list Date) :
  forall (w : World) (u : auth_user) (lu : Date),
    primaryKey (db w) ->
    userByEmail (toLowerCase e) (db w) = Some u ->
    locked_until u = Some lu ->
    Forall (fun t => t < lu) ts ->
    db (signinsAt E e pw ts w) = db w.
Proof.
  induction ts as [|t ts IH]; intros w u lu Hpk Hmail Hlu Hall; [reflexivity|].
  inversion Hall as [|x xs Ht Hrest]; subst.
  change (signinsAt E e pw (t :: ts) w)
    with (signinsAt E e pw ts (snd (Routes.signin E e pw (at_time t w)))).
  pose proof (signin_locked_world E e pw (at_time t w) u lu Hpk Hmail Hlu Ht eq_refl) as Hrun.
  rewrite Hrun. cbn [snd].
  rewrite (IH _ u lu); try assumption; reflexivity.
Qed.

(** X9.  Counted from an unlocked credential with no recorded failure,
    consecutive sign-ins with a wrong password, at any times, are
    answered with 401 and the attempts that remain, until the failure
    that reaches the threshold (default 5), at a time [tm], which is
    answered with 429 "Account locked due to too many failed attempts"
    and locks the credential until [tm] plus the lockout duration.
    Every later sign-in at a time [t] before that end is refused by the
    pre-check with 429 "Account is locked" and the minutes that remain
    at [t], rounded up; it writes nothing, so the failure counter stays
    at the threshold and the end of the lock stays where it was. *)
Theorem consecutive_failures_lock (E : Env) (e pw : string) (w : World) (u : auth_user) :
  primaryKey (db w) ->
  userByEmail (toLowerCase e) (db w) = Some u ->
  locked_until u = None ->
  COALESCE (failed_login_attempts u) 0 = 0 ->
  bcrypt_compare E pw (password_hash u) = false ->
  (forall before t,
     Z.of_nat (List.length before) + 1 < MAX_LOGIN_ATTEMPTS E ->
     fst (Routes.signin E e pw (at_time t (signinsAt E e pw before w))) =
       Throw (UnauthorizedError
                ("Invalid email or password. " ++
                 numberToString (MAX_LOGIN_ATTEMPTS E - (Z.of_nat (List.length before) + 1))
                 ++ " attempts remaining."))) /\
  (forall before tm,
     Z.of_nat (List.length before) + 1 = MAX_LOGIN_ATTEMPTS E ->
     let until := tm + LOCKOUT_DURATION_MINUTES E * 60000 in
     fst (Routes.signin E e pw (at_time tm (signinsAt E e pw before w))) =
       Throw (TooManyRequestsError
                ("Account locked due to too many failed attempts. Try again in " ++
                 numberToString (LOCKOUT_DURATION_MINUTES E) ++ " minutes.")) /\
     forall after t,
       Forall (fun s => s < until) after ->
       t < until ->
       let wl := signinsAt E e pw (before ++ tm :: after) w in
       fst (Routes.signin E e pw (at_time t wl)) =
         Throw (TooManyRequestsError
                  ("Account is locked. Try again in " ++
                   numberToString (ceilDiv (until - t) 60000) ++ " minutes.")) /\
       db (snd (Routes.signin E e pw (at_time t wl))) = db wl /\
       exists un,
         userByEmail (toLowerCase e) (db wl) = Some un /\
         failed_login_attempts un = Some (MAX_LOGIN_ATTEMPTS E) /\
         locked_until un = Some until).
Proof.
  intros Hpk Hmail Hlock Hzero Hpw. split.
  - intros before t Hlt.
    destruct (signinsAt_counting E e pw before w u 0 Hpk Hmail Hlock Hzero Hpw)
      as (Hpk' & u' & Hu' & Hhash & Hlk & Hcnt); [lia|].
    assert (Hunl : lockedAt (now (at_time t (signinsAt E e pw before w))) u' = false)
      by (unfold lockedAt; now rewrite Hlk).
    assert (Hpw' : bcrypt_compare E pw (password_hash u') = false) by now rewrite Hhash.
    destruct (signin_wrong_password E e pw (at_time t (signinsAt E e pw before w)) u'
                Hpk' Hu' Hunl Hpw' eq_refl) as (w' & Hrun & _).
    rewrite Hrun. cbn [fst]. rewrite Hcnt.
    destruct (Z.ltb_spec (0 + Z.of_nat (List.length before) + 1) (MAX_LOGIN_ATTEMPTS E));
      [|lia].
    now rewrite Z.add_0_l.
  - intros before tm Hlen until.
    destruct (signinsAt_counting E e pw before w u 0 Hpk Hmail Hlock Hzero Hpw)
      as (Hpk' & u' & Hu' & Hhash & Hlk & Hcnt); [lia|].
    set (wb := signinsAt E e pw before w) in *.
    assert (Hunl : lockedAt (now (at_time tm wb)) u' = false)
      by (unfold lockedAt; now rewrite Hlk).
    assert (Hpw' : bcrypt_compare E pw (password_hash u') = false) by now rewrite Hhash.
    destruct (signin_wrong_password E e pw (at_time tm wb) u' Hpk' Hu' Hunl Hpw' eq_refl)
      as (w' & Hrun & _).
    destruct (signin_wrong_password_world E e pw (at_time tm wb) u' Hpk' Hu' Hunl Hpw' eq_refl)
      as (_ & _ & Hpkm & Hum).
    rewrite Hcnt in Hrun, Hum.
    destruct (Z.ltb_spec (0 + Z.of_nat (List.length before) + 1) (MAX_LOGIN_ATTEMPTS E));
      [lia|].
    split; [now rewrite Hrun|].
    intros after t Hall Ht wl.
    set (wm := snd (Routes.signin E e pw (at_time tm wb))) in *.
    set (um := User.set_locked_until
                 (addMinutes (now (at_time tm wb)) (LOCKOUT_DURATION_MINUTES E))
                 (now (at_time tm wb)) (User.increment_attempts (now (at_time tm wb)) u')) in *.
    assert (Hlum : locked_until um = Some until) by reflexivity.
    assert (Hwl : db wl = db wm).
    { subst wl. unfold signinsAt. rewrite fold_left_app. cbn [fold_left].
      fold (signinsAt E e pw before w). fold wb. fold wm.
      apply (signinsAt_locked E e pw after wm um until Hpkm Hum Hlum Hall). }
    assert (Hpkl : primaryKey (db (at_time t wl))) by (cbn [at_time db]; now rewrite Hwl).
    assert (Hul : userByEmail (toLowerCase e) (db (at_time t wl)) = Some um)
      by (cbn [at_time db]; now rewrite Hwl).
    rewrite (signin_locked_world E e pw (at_time t wl) um until Hpkl Hul Hlum Ht eq_refl).
    cbn [fst snd db at_time now]. split; [reflexivity|]. split; [reflexivity|].
    exists um. split; [now rewrite <- Hwl in Hum|]. split; [|exact Hlum].
    cbn. rewrite Hcnt. f_equal. lia.
Qed.

Lemma consecutive_failures_lock_witness :
  fst (Routes.signin exampleEnv "alice@example.com" "guess"
         (at_time 5000 (signinsAt exampleEnv "alice@example.com" "guess"
                                  [1000; 2000; 3000; 4000] signinWorld))) =
    Throw (TooManyRequestsError
             "Account locked due to too many failed attempts. Try again in 15 minutes.") /\
  fst (Routes.signin exampleEnv "alice@example.com" "guess"
         (at_time 300000 (signinsAt exampleEnv "alice@example.com" "guess"
                                    [1000; 2000; 3000; 4000; 5000; 60000] signinWorld))) =
    Throw (TooManyRequestsError "Account is locked. Try again in 11 minutes.").
Proof.
  assert (Hpk : primaryKey (db signinWorld)).
  { unfold primaryKey. simpl. constructor; [intros []|constructor]. }
  destruct (consecutive_failures_lock exampleEnv "alice@example.com" "guess"
              signinWorld (alice (Some 0) None) Hpk eq_refl eq_refl eq_refl eq_refl)
    as [_ H].
  assert (Hlen : Z.of_nat (List.length [1000; 2000; 3000; 4000]) + 1 =
                 MAX_LOGIN_ATTEMPTS exampleEnv) by (vm_compute; reflexivity).
  destruct (H [1000; 2000; 3000; 4000] 5000 Hlen) as [Hlock Hlater].
  split; [exact Hlock|].
  assert (Hall : Forall (fun s => s < 5000 + LOCKOUT_DURATION_MINUTES exampleEnv * 60000)
                        [60000]) by (repeat constructor).
  assert (Ht : 300000 < 5000 + LOCKOUT_DURATION_MINUTES exampleEnv * 60000)
    by (vm_compute; reflexivity).
  exact (proj1 (Hlater [60000] 300000 Hall Ht)).
Defined.

(* ================================================================== *)
(** ** A successful sign-in *)

Lemma find_app_none {A : Type} (p : A -> bool) (l1 l2 : list A) :
  find p l1 = None -> find p (l1 ++ l2)%list = find p l2.
Proof.
  induction l1 as [|a l1 IH]; simpl; [reflexivity|].
  destruct (p a); [discriminate|exact IH].
Qed.

(** The run of a sign-in with the right password. *)
Lemma signin_success_run (E : Env) (e pw : string) (w : World) (u : auth_user) :
  primaryKey (db w) ->
  userByEmail (toLowerCase e) (db w) = Some u ->
  lockedAt (now w) u = false ->
  bcrypt_compare E pw (password_hash u) = true ->
  faults w = [] ->
  let token := uuidStringify (uuidStamp (takeBytes 16 (entropy w))) in
  let rid := uuidStringify (uuidStamp (takeBytes 16 (pg_entropy w))) in
  existsb (fun r => (rt_id r =? rid)%string || RefreshToken.hasToken token r)
          (auth_refresh_tokens (db w)) = false ->
  let w' := snd (Routes.signin E e pw w) in
  fst (Routes.signin E e pw w) =
    Ok (mkResponse 200
          [("message", JString "Login successful");
           ("user", JObject [("id", JString (id u));
                             ("email", JString (email u));
                             ("emailVerified", JBool (email_verified u))]);
           ("accessToken", JString (jwt_sign E (id u) (email u) (now w)));
           ("refreshToken", JString token);
           ("expiresIn", JString (JWT_EXPIRES_IN E))]) /\
  userById (id u) (db w') = Some (User.clear_lockout (now w) u) /\
  auth_refresh_tokens (db w') =
    (auth_refresh_tokens (db w) ++
     [mkRefresh rid (id u) token (now w + 30 * 86400000) (now w) false])%list /\
  auth_password_resets (db w') = auth_password_resets (db w).
Proof.
  intros Hpk Hmail Hlock Hpw Hf token rid Hfresh w'. subst w'.
  pose proof (userByEmail_userById _ _ _ Hpk Hmail) as Hid.
  unfold Routes.signin, bind.
  rewrite findByEmail_run by now rewrite Hf.
  rewrite Hmail. set (w1 := mkWorld _ _ _ _ _ _).
  rewrite (isAccountLocked_run _ w1 u Hid) by (subst w1; simpl; now rewrite Hf).
  assert (Hst : lockStatusOf (now w1) u = mkLockStatus false None None).
  { unfold lockStatusOf. unfold lockedAt in Hlock. subst w1. simpl.
    destruct (locked_until u) as [lu|]; [|reflexivity].
    destruct (Z.gtb_spec lu (now w)); [|reflexivity].
    apply Z.ltb_ge in Hlock. lia. }
  rewrite Hst. cbn [locked].
  unfold User.verifyPassword, event, bind, ret. rewrite Hpw. cbn [negb].
  unfold User.resetFailedLoginAttempts, generateAccessToken, RefreshToken.create,
    User.isEmailVerified, uuidv4, uuid_generate_v4, randomBytes, newDateNow, bind, ret, query.
  subst w1. run_step. rewrite Hf. run_step.
  assert (Huser : existsb (hasId (id u))
            (updateWhere (hasId (id u)) (User.clear_lockout (now w)) (auth_users (db w)))
          = true).
  { apply existsb_exists. exists (User.clear_lockout (now w) u). split.
    - unfold userById in Hid. apply find_some in Hid. destruct Hid as [Hin _].
      unfold updateWhere. apply in_map_iff. exists u.
      split; [now rewrite hasId_refl|exact Hin].
    - unfold hasId. cbn. apply String.eqb_refl. }
  unfold RefreshToken.insertRefresh. run_step.
  fold token rid. rewrite Hfresh, Huser. run_step.
  assert (Hrow : filter (hasId (id u))
            (updateWhere (hasId (id u)) (User.clear_lockout (now w)) (auth_users (db w)))
          = map (User.clear_lockout (now w)) (filter (hasId (id u)) (auth_users (db w))))
    by (apply filter_updateWhere_same; reflexivity).
  rewrite Hrow. destruct (userById_filter _ _ _ Hid) as [rest Hrest]. rewrite Hrest.
  run_step. split; [reflexivity|]. split; [|split; reflexivity].
  unfold userById. run_step. rewrite find_updateWhere_same by reflexivity.
  unfold userById in Hid. now rewrite Hid.
Qed.

(** X10.  A sign-in with the right password for a credential that is not
    locked (never locked, or a lock that has lapsed) sets the failure
    counter to zero and clears [locked_until], keeps the password hash,
    stores a new unrevoked refresh token that expires 30 days from now,
    and answers 200 with that refresh token. *)
Theorem signin_success_resets_and_issues
    (E : Env) (e pw : string) (w : World) (u : auth_user) :
  primaryKey (db w) ->
  userByEmail (toLowerCase e) (db w) = Some u ->
  lockedAt (now w) u = false ->
  bcrypt_compare E pw (password_hash u) = true ->
  faults w = [] ->
  let token := uuidStringify (uuidStamp (takeBytes 16 (entropy w))) in
  let rid := uuidStringify (uuidStamp (takeBytes 16 (pg_entropy w))) in
  existsb (fun r => (rt_id r =? rid)%string || RefreshToken.hasToken token r)
          (auth_refresh_tokens (db w)) = false ->
  let w' := snd (Routes.signin E e pw w) in
  (exists resp, fst (Routes.signin E e pw w) = Ok resp /\ status resp = 200 /\
                In ("refreshToken", JString token) (body resp)) /\
  (exists u', userById (id u) (db w') = Some u' /\
              failed_login_attempts u' = Some 0 /\ locked_until u' = None /\
              password_hash u' = password_hash u) /\
  (exists s, refreshByToken token (db w') = Some s /\
             rt_user_id s = id u /\ rt_revoked s = false /\
             rt_expires_at s = now w + 30 * 86400000).
Proof.
  intros Hpk Hmail Hlock Hpw Hf token rid Hfresh w'.
  destruct (signin_success_run E e pw w u Hpk Hmail Hlock Hpw Hf Hfresh)
    as (Hresp & Hrow & Hrefresh & _).
  fold token rid in Hresp, Hrefresh. fold w' in Hrow, Hrefresh.
  split; [|split].
  - eexists. split; [exact Hresp|]. split; [reflexivity|]. cbn. tauto.
  - eexists. split; [exact Hrow|]. repeat split.
  - exists (mkRefresh rid (id u) token (now w + 30 * 86400000) (now w) false).
    split; [|repeat split].
    unfold refreshByToken. rewrite Hrefresh. rewrite find_app_none.
    + cbn. now rewrite String.eqb_refl.
    + destruct (find _ (auth_refresh_tokens (db w))) as [s|] eqn:Hfind; [|reflexivity].
      exfalso. apply find_some in Hfind. destruct Hfind as [Hin Ht].
      assert (Htrue : existsb (fun r => (rt_id r =? rid)%string ||
                                        RefreshToken.hasToken token r)
                              (auth_refresh_tokens (db w)) = true).
      { apply existsb_exists. exists s. split; [exact Hin|].
        unfold RefreshToken.hasToken. rewrite Ht. apply orb_true_r. }
      rewrite Htrue in Hfresh. discriminate.
Qed.

Lemma signin_success_resets_and_issues_witness :
  exists u',
    userById "u1" (db (snd (Routes.signin exampleEnv "Alice@example.com" "Secret123"
                                          lapsedLoginWorld))) = Some u' /\
    failed_login_attempts u' = Some 0 /\ locked_until u' = None.
Proof.
  assert (Hpk : primaryKey (db lapsedLoginWorld)).
  { unfold primaryKey. simpl. constructor; [intros []|constructor]. }
  destruct (signin_success_resets_and_issues exampleEnv "Alice@example.com"
              "Secret123" lapsedLoginWorld (alice (Some 5) (Some 500))
              Hpk eq_refl eq_refl eq_refl eq_refl eq_refl)
    as (_ & (u' & Hrow & Hcnt & Hlock & _) & _).
  exists u'. split; [exact Hrow|]. split; assumption.
Defined.

(* ================================================================== *)
(** ** Creating and finding credentials *)

(** The two outcomes of the INSERT in [User.create]. *)
Lemma create_run (E : Env) (mail password : string) (w : World) :
  hd false (faults w) = false ->
  let uid := uuidStringify (uuidStamp (takeBytes 16 (pg_entropy w))) in
  let h := bcrypt_hash E password (BCRYPT_ROUNDS E) (takeBytes 16 (entropy w)) in
  let row := mkUser uid (toLowerCase mail) h false None None (Some 0) None (now w) (now w) in
  let w1 := mkWorld (db w) (now w) (tl (faults w)) (skipn 16 (entropy w))
                    (skipn 16 (pg_entropy w)) (Sql InsertUser :: BcryptHash :: trace w) in
  User.create E mail password w =
  if existsb (fun u => hasId uid u || (email u =? toLowerCase mail)%string)
             (auth_users (db w))
  then (Throw (JsError "Email already exists"), w1)
  else (Ok row, set_db w1 (with_users (db w) (auth_users (db w) ++ [row])%list)).
Proof.
  intros Hf uid h row w1.
  unfold User.create, catch, bind, randomBytes, event, uuid_generate_v4, query, emit.
  run_step. rewrite Hf. unfold User.insertUser. run_step.
  fold uid h. destruct (existsb _ _); reflexivity.
Qed.

(** X11.  [User.create] stores the email lower-cased, with the defaults
    of a new credential (unverified, no verification token, no recorded
    failure, no lock).  When a credential with that lower-cased email is
    stored already it throws Error "Email already exists" and stores
    nothing, although the password was hashed first. *)
Theorem create_lowercases_or_rejects (E : Env) (mail password : string) (w : World) :
  hd false (faults w) = false ->
  (forall u, userByEmail (toLowerCase mail) (db w) = Some u ->
     fst (User.create E mail password w) = Throw (JsError "Email already exists") /\
     db (snd (User.create E mail password w)) = db w /\
     trace (snd (User.create E mail password w)) = Sql InsertUser :: BcryptHash :: trace w) /\
  (forall row w', User.create E mail password w = (Ok row, w') ->
     email row = toLowerCase mail /\
     email_verified row = false /\
     email_verification_token row = None /\
     failed_login_attempts row = Some 0 /\
     locked_until row = None /\
     userByEmail (toLowerCase mail) (db w) = None /\
     auth_users (db w') = (auth_users (db w) ++ [row])%list).
Proof.
  intros Hf. pose proof (create_run E mail password w Hf) as Hrun. cbn zeta in Hrun.
  split.
  - intros u Hu.
    assert (Hex : existsb (fun a => hasId (uuidStringify (uuidStamp (takeBytes 16
                             (pg_entropy w)))) a || (email a =? toLowerCase mail)%string)
                          (auth_users (db w)) = true).
    { apply existsb_exists. unfold userByEmail in Hu. apply find_some in Hu.
      destruct Hu as [Hin Hm]. exists u. split; [exact Hin|].
      rewrite Hm. apply orb_true_r. }
    rewrite Hex in Hrun. rewrite Hrun. repeat split.
  - intros row w' Hok. rewrite Hrun in Hok.
    destruct (existsb _ _) eqn:Hex; [discriminate|].
    injection Hok as Hrow Hw. subst row w'. cbn. repeat split.
    unfold userByEmail.
    destruct (find (fun u => (email u =? toLowerCase mail)%string) (auth_users (db w)))
      as [u|] eqn:Hfind; [|reflexivity].
    exfalso. apply find_some in Hfind. destruct Hfind as [Hin Hm].
    assert (Htrue : existsb (fun a => hasId (uuidStringify (uuidStamp (takeBytes 16
                             (pg_entropy w)))) a || (email a =? toLowerCase mail)%string)
                            (auth_users (db w)) = true).
    { apply existsb_exists. exists u. split; [exact Hin|]. rewrite Hm. apply orb_true_r. }
    rewrite Htrue in Hex. discriminate.
Qed.

(** X12.  Lookup by email ignores ASCII case: after [User.create]
    succeeded for an address, [findByEmail] with the address in any
    upper- or lower-case spelling returns the created credential. *)
Theorem create_then_findByEmail (E : Env) (mail mail' password : string)
    (w w' : World) (row : auth_user) :
  User.create E mail password w = (Ok row, w') ->
  hd false (faults w) = false ->
  toLowerCase mail' = toLowerCase mail ->
  forall v, db v = db w' -> hd false (faults v) = false ->
    fst (User.findByEmail mail' v) = Ok (Some row).
Proof.
  intros Hok Hf Hcase v Hdb Hfv.
  pose proof (create_run E mail password w Hf) as Hrun. cbn zeta in Hrun.
  rewrite Hrun in Hok. destruct (existsb _ _) eqn:Hex; [discriminate|].
  injection Hok as Hrow Hw. subst w'.
  rewrite findByEmail_run by exact Hfv. cbn [fst]. f_equal.
  rewrite Hdb, Hcase. unfold userByEmail. cbn [db set_db with_users auth_users].
  rewrite find_app_none.
  - rewrite <- Hrow. cbn. now rewrite String.eqb_refl.
  - destruct (find _ (auth_users (db w))) as [u|] eqn:Hfind; [|reflexivity].
    exfalso. apply find_some in Hfind. destruct Hfind as [Hin Hm].
    assert (Htrue : existsb (fun a => hasId (uuidStringify (uuidStamp (takeBytes 16
                             (pg_entropy w)))) a || (email a =? toLowerCase mail)%string)
                            (auth_users (db w)) = true).
    { apply existsb_exists. exists u. split; [exact Hin|]. rewrite Hm. apply orb_true_r. }
    rewrite Htrue in Hex. discriminate.
Qed.

(* ================================================================== *)
(** ** Sign-up *)

Lemma existsb_false_forall {A : Type} (p : A -> bool) (l : list A) :
  existsb p l = false -> forall a, In a l -> p a = false.
Proof.
  intros H a Hin. destruct (p a) eqn:Hp; [|reflexivity].
  assert (Ht : existsb p l = true) by (apply existsb_exists; eauto).
  rewrite Ht in H. discriminate.
Qed.

Lemma find_none_existsb {A : Type} (p : A -> bool) (l : list A) :
  find p l = None -> existsb p l = false.
Proof.
  intros H. destruct (existsb p l) eqn:He; [|reflexivity].
  apply existsb_exists in He. destruct He as (a & Hin & Hp).
  rewrite (find_none _ _ H a Hin) in Hp. discriminate.
Qed.

Lemma existsb_orb_false {A : Type} (p q : A -> bool) (l : list A) :
  existsb p l = false -> existsb q l = false ->
  existsb (fun a => p a || q a) l = false.
Proof.
  intros Hp Hq. induction l as [|a l IH]; [reflexivity|].
  cbn in *. apply orb_false_iff in Hp. apply orb_false_iff in Hq.
  destruct Hp as [Hp1 Hp2], Hq as [Hq1 Hq2]. rewrite Hp1, Hq1. cbn. now apply IH.
Qed.

(** Reduction that also keeps the reads of the entropy folded. *)
Ltac run_quiet :=
  cbn -[updateWhere takeBytes toHex uuidStringify uuidStamp addHours addDays skipn
        PasswordReset.insertReset RefreshToken.insertRefresh User.insertUser].

(** A sign-up for an address that is registered already: one SELECT,
    nothing hashed, nothing stored. *)
Lemma signup_conflict_run (E : Env) (e pw : string) (w : World) (u : auth_user) :
  userByEmail (toLowerCase e) (db w) = Some u ->
  hd false (faults w) = false ->
  Routes.signup E e pw w =
  (Throw (ConflictError "Email already registered"),
   mkWorld (db w) (now w) (tl (faults w)) (entropy w) (pg_entropy w)
           (Sql SelectUserByEmail :: trace w)).
Proof.
  intros Hu Hf. unfold Routes.signup, bind. rewrite findByEmail_run by exact Hf.
  now rewrite Hu.
Qed.

(** The run of a sign-up for a new address. *)
Lemma signup_run (E : Env) (e pw : string) (w : World) :
  faults w = [] ->
  userByEmail (toLowerCase e) (db w) = None ->
  let uid := uuidStringify (uuidStamp (takeBytes 16 (pg_entropy w))) in
  let rid := uuidStringify (uuidStamp (takeBytes 16 (skipn 16 (pg_entropy w)))) in
  let h := bcrypt_hash E pw (BCRYPT_ROUNDS E) (takeBytes 16 (entropy w)) in
  let vtok := toHex (takeBytes 32 (skipn 16 (entropy w))) in
  let rtok := uuidStringify (uuidStamp (takeBytes 16 (skipn 32 (skipn 16 (entropy w))))) in
  existsb (hasId uid) (auth_users (db w)) = false ->
  existsb (fun r => (rt_id r =? rid)%string || RefreshToken.hasToken rtok r)
          (auth_refresh_tokens (db w)) = false ->
  let row := mkUser uid (toLowerCase e) h false (Some vtok)
                    (Some (addHours (now w) (EMAIL_VERIFICATION_EXPIRY_HOURS E)))
                    (Some 0) None (now w) (now w) in
  Routes.signup E e pw w =
  (Ok (mkResponse 201
         [("message",
           JString "User registered successfully. Please check your email to verify your account.");
          ("user", JObject [("id", JString uid);
                            ("email", JString (toLowerCase e));
                            ("emailVerified", JBool false);
                            ("createdAt", JNumber (now w))]);
          ("accessToken", JString (jwt_sign E uid (toLowerCase e) (now w)));
          ("refreshToken", JString rtok);
          ("expiresIn", JString (JWT_EXPIRES_IN E))]),
   mkWorld (mkDb (auth_users (db w) ++ [row])%list
                 (auth_refresh_tokens (db w) ++
                  [mkRefresh rid uid rtok (addDays (now w) 30) (now w) false])%list
                 (auth_password_resets (db w)))
           (now w) [] (skipn 16 (skipn 32 (skipn 16 (entropy w))))
           (skipn 16 (skipn 16 (pg_entropy w)))
           (Sql InsertRefreshToken :: Mail "Verify Your Email Address" e ::
            Sql UpdateVerificationToken :: Sql InsertUser :: BcryptHash ::
            Sql SelectUserByEmail :: trace w)).
Proof.
  intros Hf Hnone uid rid h vtok rtok Hfresh Hrfresh row.
  unfold Routes.signup, bind. rewrite findByEmail_run by now rewrite Hf.
  rewrite Hnone.
  set (w1 := mkWorld _ _ _ _ _ _).
  pose proof (create_run E e pw w1) as Hcreate. cbn zeta in Hcreate.
  rewrite Hcreate by (subst w1; cbn; now rewrite Hf). clear Hcreate.
  assert (Hins : existsb (fun u => hasId uid u || (email u =? toLowerCase e)%string)
                         (auth_users (db w)) = false).
  { apply existsb_orb_false; [exact Hfresh|].
    apply find_none_existsb. exact Hnone. }
  subst w1. cbn [db pg_entropy entropy now faults trace]. fold uid h. rewrite Hins.
  unfold User.generateEmailVerificationToken, sendEmailVerificationEmail,
    generateAccessToken, RefreshToken.create, uuidv4, uuid_generate_v4, randomBytes,
    newDateNow, event, emit, bind, ret, query, set_db.
  run_quiet. rewrite Hf. run_quiet.
  assert (Hup : updateWhere (hasId uid)
             (User.set_verification (Some vtok)
                (Some (addHours (now w) (EMAIL_VERIFICATION_EXPIRY_HOURS E))) (now w))
             (auth_users (db w) ++
              [mkUser uid (toLowerCase e) h false None None (Some 0) None (now w) (now w)])
           = (auth_users (db w) ++ [row])%list).
  { unfold updateWhere. rewrite map_app. f_equal.
    - rewrite <- (map_id (auth_users (db w))) at 2. apply map_ext_in.
      intros a Hin. now rewrite (existsb_false_forall _ _ Hfresh a Hin).
    - cbn. unfold hasId. cbn. now rewrite String.eqb_refl. }
  fold vtok. rewrite Hup.
  unfold RefreshToken.insertRefresh. run_quiet. fold rid rtok. rewrite Hrfresh.
  assert (Huser : existsb (hasId uid) (auth_users (db w) ++ [row]) = true).
  { rewrite existsb_app. cbn [existsb]. unfold hasId at 2. cbn [id row].
    rewrite String.eqb_refl. cbn [orb]. now rewrite orb_true_r. }
  rewrite Huser. reflexivity.
Qed.

Lemma userByEmail_appended (e : string) (d : Database) (row : auth_user)
    (rs : list refresh_token) (ps : list password_reset) :
  userByEmail e d = None ->
  email row = e ->
  userByEmail e (mkDb (auth_users d ++ [row])%list rs ps) = Some row.
Proof.
  intros Hnone Hmail. unfold userByEmail in *. cbn [auth_users].
  rewrite find_app_none by exact Hnone. cbn. now rewrite Hmail, String.eqb_refl.
Qed.

(** X13.  POST /auth/signup for an address that has no credential
    stores one new credential under the lower-cased address, unverified,
    with the password hash and a verification token of 64 hexadecimal
    digits that expires after the configured hours (default 24); it
    sends the verification mail, opens a session and answers 201.  For
    an address that has a credential it answers 409 "Email already
    registered" after one SELECT: nothing is hashed, stored or sent. *)
Theorem signup_outcomes (E : Env) (e pw : string) (w : World) :
  faults w = [] ->
  (forall u, userByEmail (toLowerCase e) (db w) = Some u ->
     fst (Routes.signup E e pw w) = Throw (ConflictError "Email already registered") /\
     db (snd (Routes.signup E e pw w)) = db w /\
     trace (snd (Routes.signup E e pw w)) = Sql SelectUserByEmail :: trace w) /\
  (userByEmail (toLowerCase e) (db w) = None ->
   let uid := uuidStringify (uuidStamp (takeBytes 16 (pg_entropy w))) in
   let rid := uuidStringify (uuidStamp (takeBytes 16 (skipn 16 (pg_entropy w)))) in
   let vtok := toHex (takeBytes 32 (skipn 16 (entropy w))) in
   let rtok := uuidStringify (uuidStamp (takeBytes 16 (skipn 32 (skipn 16 (entropy w))))) in
   existsb (hasId uid) (auth_users (db w)) = false ->
   existsb (fun r => (rt_id r =? rid)%string || RefreshToken.hasToken rtok r)
           (auth_refresh_tokens (db w)) = false ->
   let w' := snd (Routes.signup E e pw w) in
   (exists resp, fst (Routes.signup E e pw w) = Ok resp /\ status resp = 201 /\
                 In ("refreshToken", JString rtok) (body resp)) /\
   (exists row,
      auth_users (db w') = (auth_users (db w) ++ [row])%list /\
      userByEmail (toLowerCase e) (db w') = Some row /\
      id row = uid /\ email row = toLowerCase e /\ email_verified row = false /\
      password_hash row =
        bcrypt_hash E pw (BCRYPT_ROUNDS E) (takeBytes 16 (entropy w)) /\
      email_verification_token row = Some vtok /\ isHex256 vtok = true /\
      email_verification_expires row =
        Some (now w + EMAIL_VERIFICATION_EXPIRY_HOURS E * 3600000) /\
      failed_login_attempts row = Some 0 /\ locked_until row = None) /\
   In (Mail "Verify Your Email Address" e) (trace w') /\
   auth_refresh_tokens (db w') =
     (auth_refresh_tokens (db w) ++
      [mkRefresh rid uid rtok (now w + 30 * 86400000) (now w) false])%list).
Proof.
  intros Hf. split.
  - intros u Hu. rewrite (signup_conflict_run E e pw w u Hu) by now rewrite Hf.
    repeat split.
  - intros Hnone uid rid vtok rtok Hfresh Hrfresh w'. subst w'.
    rewrite (signup_run E e pw w Hf Hnone Hfresh Hrfresh).
    cbn [fst snd db trace auth_users auth_refresh_tokens]. fold uid rid vtok rtok.
    split; [|split; [|split]].
    + eexists. split; [reflexivity|]. split; [reflexivity|]. cbn [body In]. tauto.
    + eexists. split; [reflexivity|]. split.
      { apply userByEmail_appended; [exact Hnone|reflexivity]. }
      do 5 (split; [reflexivity|]).
      split; [apply toHex_32_isHex256, takeBytes_length|]. repeat split.
    + cbn [In]. tauto.
    + reflexivity.
Qed.

(** X14.  A second sign-up for the same address, in any upper- or
    lower-case spelling, fails with 409 "Email already registered" and
    stores nothing. *)
Theorem signup_twice_conflicts (E : Env) (e e' pw pw' : string) (w : World) :
  faults w = [] ->
  userByEmail (toLowerCase e) (db w) = None ->
  existsb (hasId (uuidStringify (uuidStamp (takeBytes 16 (pg_entropy w)))))
          (auth_users (db w)) = false ->
  existsb (fun r => (rt_id r =? uuidStringify (uuidStamp (takeBytes 16
                                  (skipn 16 (pg_entropy w)))))%string ||
                    RefreshToken.hasToken
                      (uuidStringify (uuidStamp (takeBytes 16
                         (skipn 32 (skipn 16 (entropy w)))))) r)
          (auth_refresh_tokens (db w)) = false ->
  toLowerCase e' = toLowerCase e ->
  (exists resp, fst (Routes.signup E e pw w) = Ok resp) /\
  forall v, db v = db (snd (Routes.signup E e pw w)) -> hd false (faults v) = false ->
    fst (Routes.signup E e' pw' v) = Throw (ConflictError "Email already registered") /\
    db (snd (Routes.signup E e' pw' v)) = db v.
Proof.
  intros Hf Hnone Hfresh Hrfresh Hcase.
  rewrite (signup_run E e pw w Hf Hnone Hfresh Hrfresh). cbn [fst snd db].
  split; [eexists; reflexivity|]. intros v Hdb Hfv.
  match type of Hdb with
  | _ = mkDb (_ ++ [?r])%list _ _ => set (row := r) in *
  end.
  assert (Hrow : userByEmail (toLowerCase e') (db v) = Some row).
  { rewrite Hdb, Hcase. apply userByEmail_appended; [exact Hnone|reflexivity]. }
  rewrite (signup_conflict_run E e' pw' v row Hrow Hfv). split; reflexivity.
Qed.

(** X15.  After a sign-up, a sign-in with the same password, and the
    address in any upper- or lower-case spelling, succeeds with 200,
    provided the hasher accepts the password against the hash it made. *)
Theorem signup_then_signin (E : Env) (e e' pw : string) (w : World) :
  faults w = [] ->
  primaryKey (db w) ->
  userByEmail (toLowerCase e) (db w) = None ->
  existsb (hasId (uuidStringify (uuidStamp (takeBytes 16 (pg_entropy w)))))
          (auth_users (db w)) = false ->
  existsb (fun r => (rt_id r =? uuidStringify (uuidStamp (takeBytes 16
                                  (skipn 16 (pg_entropy w)))))%string ||
                    RefreshToken.hasToken
                      (uuidStringify (uuidStamp (takeBytes 16
                         (skipn 32 (skipn 16 (entropy w)))))) r)
          (auth_refresh_tokens (db w)) = false ->
  bcrypt_compare E pw
    (bcrypt_hash E pw (BCRYPT_ROUNDS E) (takeBytes 16 (entropy w))) = true ->
  toLowerCase e' = toLowerCase e ->
  forall v,
    db v = db (snd (Routes.signup E e pw w)) ->
    faults v = [] ->
    existsb (fun r => (rt_id r =? uuidStringify (uuidStamp (takeBytes 16
                                    (pg_entropy v))))%string ||
                      RefreshToken.hasToken
                        (uuidStringify (uuidStamp (takeBytes 16 (entropy v)))) r)
            (auth_refresh_tokens (db v)) = false ->
    exists resp, fst (Routes.signin E e' pw v) = Ok resp /\ status resp = 200.
Proof.
  intros Hf Hpk Hnone Hfresh Hrfresh Hbcrypt Hcase v Hdb Hfv Hvfresh.
  rewrite (signup_run E e pw w Hf Hnone Hfresh Hrfresh) in Hdb. cbn [snd db] in Hdb.
  match type of Hdb with
  | _ = mkDb (_ ++ [?r])%list _ _ => set (row := r) in *
  end.
  assert (Hrow : userByEmail (toLowerCase e') (db v) = Some row).
  { rewrite Hdb, Hcase. apply userByEmail_appended; [exact Hnone|reflexivity]. }
  assert (Hpkv : primaryKey (db v)).
  { unfold primaryKey in *. rewrite Hdb. cbn [auth_users]. rewrite map_app.
    apply NoDup_app; [exact Hpk|repeat constructor; intros []|].
    intros x Hin [<-|[]]. apply in_map_iff in Hin. destruct Hin as (a & Ha & Hin).
    pose proof (existsb_false_forall _ _ Hfresh a Hin) as Hno.
    unfold hasId in Hno. cbn in Ha. rewrite Ha, String.eqb_refl in Hno. discriminate. }
  destruct (signin_success_run E e' pw v row Hpkv Hrow eq_refl Hbcrypt Hfv Hvfresh)
    as (Hresp & _).
  eexists. split; [exact Hresp|reflexivity].
Qed.

Lemma signup_outcomes_witness :
  exists resp,
    fst (Routes.signup exampleEnv "Bob@Example.com" "Secret123" signupWorld) = Ok resp /\
    status resp = 201.
Proof.
  destruct (signup_outcomes exampleEnv "Bob@Example.com" "Secret123" signupWorld eq_refl)
    as [_ H].
  destruct (H eq_refl eq_refl eq_refl) as ((resp & Hresp & Hstatus & _) & _).
  exists resp. split; assumption.
Defined.

Lemma signup_twice_conflicts_witness :
  fst (Routes.signup exampleEnv "BOB@example.com" "Other1234" afterSignupWorld) =
  Throw (ConflictError "Email already registered").
Proof.
  destruct (signup_twice_conflicts exampleEnv "Bob@Example.com" "BOB@example.com"
              "Secret123" "Other1234" signupWorld eq_refl eq_refl eq_refl eq_refl eq_refl)
    as [_ H].
  apply (H afterSignupWorld); [vm_compute; reflexivity|reflexivity].
Defined.

Lemma signup_then_signin_witness :
  exists resp,
    fst (Routes.signin exampleEnv "BOB@example.com" "Secret123" afterSignupWorld) = Ok resp /\
    status resp = 200.
Proof.
  assert (Hpk : primaryKey (db signupWorld)) by constructor.
  assert (Hfresh :
    existsb (fun r => (rt_id r =? uuidStringify (uuidStamp (takeBytes 16
                                    (pg_entropy afterSignupWorld))))%string ||
                      RefreshToken.hasToken
                        (uuidStringify (uuidStamp (takeBytes 16
                                    (entropy afterSignupWorld)))) r)
            (auth_refresh_tokens (db afterSignupWorld)) = false)
    by (vm_compute; reflexivity).
  assert (Hdb : db afterSignupWorld =
                db (snd (Routes.signup exampleEnv "Bob@Example.com" "Secret123"
                                       signupWorld)))
    by (vm_compute; reflexivity).
  exact (signup_then_signin exampleEnv "Bob@Example.com" "BOB@example.com" "Secret123"
           signupWorld eq_refl Hpk eq_refl eq_refl eq_refl eq_refl eq_refl
           afterSignupWorld Hdb eq_refl Hfresh).
Defined.

Lemma create_lowercases_or_rejects_witness :
  fst (User.create exampleEnv "Alice@Example.com" "Secret123" signinWorld) =
  Throw (JsError "Email already exists").
Proof.
  destruct (create_lowercases_or_rejects exampleEnv "Alice@Example.com" "Secret123"
              signinWorld eq_refl) as [H _].
  exact (proj1 (H (alice (Some 0) None) eq_refl)).
Defined.

Lemma create_then_findByEmail_witness :
  exists row,
    fst (User.create exampleEnv "Bob@Example.com" "Secret123" signinWorld) = Ok row /\
    fst (User.findByEmail "BOB@EXAMPLE.COM"
           (snd (User.create exampleEnv "Bob@Example.com" "Secret123" signinWorld))) =
    Ok (Some row).
Proof.
  eexists. split; [vm_compute; reflexivity|].
  apply (create_then_findByEmail exampleEnv "Bob@Example.com" "BOB@EXAMPLE.COM" "Secret123"
           signinWorld (snd (User.create exampleEnv "Bob@Example.com" "Secret123"
                                         signinWorld)));
    try reflexivity.
Defined.

(* ================================================================== *)
(** ** The helpers of utils/jwt.js *)

Lemma prefix_app (p t : string) : String.prefix p (p ++ t) = true.
Proof.
  induction p as [|c p IH]; simpl; [now destruct t|].
  destruct (ascii_dec c c) as [_|Hne]; [exact IH|now elim Hne].
Qed.

Lemma substring_all (s : string) : substring 0 (String.length s) s = s.
Proof. induction s as [|c s IH]; simpl; [reflexivity|now rewrite IH]. Qed.

Lemma substring_after_prefix (p t : string) :
  substring (String.length p) (String.length (p ++ t) - String.length p) (p ++ t) = t.
Proof.
  induction p as [|c p IH]; simpl.
  - rewrite Nat.sub_0_r. apply substring_all.
  - exact IH.
Qed.

Lemma prefix_split (p h : string) :
  String.prefix p h = true ->
  h = p ++ substring (String.length p) (String.length h - String.length p) h.
Proof.
  revert h. induction p as [|c p IH]; intros h Hp; simpl in *.
  - rewrite Nat.sub_0_r. now rewrite substring_all.
  - destruct h as [|c' h]; [discriminate|]. simpl in Hp.
    destruct (ascii_dec c c') as [->|]; [|discriminate].
    simpl. f_equal. apply IH, Hp.
Qed.

(** X16.  [extractTokenFromHeader] returns a token exactly for a header
    that is "Bearer " followed by that token: nothing is trimmed, the
    scheme is matched with its case and its single space, and a header
    that is absent or has another scheme gives nothing. *)
Theorem extractTokenFromHeader_bearer (h t : string) :
  Jwt.extractTokenFromHeader (Some h) = Some t <-> h = "Bearer " ++ t.
Proof.
  unfold Jwt.extractTokenFromHeader. split.
  - destruct (String.prefix "Bearer " h) eqn:Hp; [|discriminate].
    intros Ht. injection Ht as <-. apply (prefix_split "Bearer " h Hp).
  - intros ->. rewrite prefix_app. f_equal.
    apply (substring_after_prefix "Bearer " t).
Qed.

(** X17.  [isTokenExpired] and [getTokenExpiration] agree: a token with
    no expiry date ([jwt.decode] gives nothing, or no [exp] claim, or an
    [exp] of 0) counts as expired, and a token with expiry date [d]
    counts as expired from one full second after [d] on, because the
    clock is rounded down to the second before the comparison. *)
Theorem isTokenExpired_by_expiration (decoded : option (option Z)) (nowMs : Date) :
  match Jwt.getTokenExpiration decoded with
  | None => Jwt.isTokenExpired decoded nowMs = true
  | Some d => Jwt.isTokenExpired decoded nowMs = true <-> d + 1000 <= nowMs
  end.
Proof.
  unfold Jwt.getTokenExpiration, Jwt.isTokenExpired.
  destruct decoded as [[ex|]|]; [|reflexivity|reflexivity].
  destruct (ex =? 0); [reflexivity|].
  rewrite Z.ltb_lt.
  pose proof (Z.div_mod nowMs 1000 ltac:(lia)) as Hdm.
  pose proof (Z.mod_pos_bound nowMs 1000 ltac:(lia)) as Hb.
  lia.
Qed.

(* ================================================================== *)
(** ** Deleting a credential *)

Lemma find_all_false {A : Type} (p : A -> bool) (l : list A) :
  (forall a, In a l -> p a = false) -> find p l = None.
Proof.
  induction l as [|a l IH]; intros H; simpl; [reflexivity|].
  rewrite (H a) by now left. apply IH. intros b Hb. apply H. now right.
Qed.

Lemma filter_all_false {A : Type} (p : A -> bool) (l : list A) :
  (forall a, In a l -> p a = false) -> filter p l = [].
Proof.
  induction l as [|a l IH]; intros H; simpl; [reflexivity|].
  rewrite (H a) by now left. apply IH. intros b Hb. apply H. now right.
Qed.

Lemma delete_run (uid : string) (w : World) :
  hd false (faults w) = false ->
  User.delete uid w =
  (Ok tt,
   mkWorld (mkDb (filter (fun u => negb (hasId uid u)) (auth_users (db w)))
                 (filter (fun r => negb (rt_user_id r =? uid)%string)
                         (auth_refresh_tokens (db w)))
                 (filter (fun r => negb (pr_user_id r =? uid)%string)
                         (auth_password_resets (db w))))
           (now w) (tl (faults w)) (entropy w) (pg_entropy w)
           (Sql DeleteUser :: trace w)).
Proof. intros Hf. unfold User.delete. now rewrite query_run by exact Hf. Qed.

Lemma negb_eqb_neq (a b : string) : negb (a =? b)%string = true <-> a <> b.
Proof.
  destruct (String.eqb_spec a b) as [->|Hne]; cbn; split; intros H;
    try discriminate; try reflexivity; try assumption. now elim H.
Qed.

(** X18.  [User.delete] removes the credential and, by the cascade of
    the schema, every refresh token and every reset token that refers
    to it; the rows of other credentials stay, and the tables still
    satisfy the primary key and the foreign key of the reset tokens. *)
Theorem delete_cascades (uid : string) (w : World) :
  hd false (faults w) = false ->
  let d' := db (snd (User.delete uid w)) in
  fst (User.delete uid w) = Ok tt /\
  (forall u, In u (auth_users d') <-> In u (auth_users (db w)) /\ id u <> uid) /\
  (forall r, In r (auth_refresh_tokens d') <->
             In r (auth_refresh_tokens (db w)) /\ rt_user_id r <> uid) /\
  (forall r, In r (auth_password_resets d') <->
             In r (auth_password_resets (db w)) /\ pr_user_id r <> uid) /\
  (primaryKey (db w) -> primaryKey d') /\
  (resetsReferUsers (db w) -> resetsReferUsers d').
Proof.
  intros Hf d'. subst d'. rewrite (delete_run uid w Hf).
  cbn [fst snd db auth_users auth_refresh_tokens auth_password_resets].
  split; [reflexivity|].
  assert (Hu : forall u, In u (filter (fun u => negb (hasId uid u)) (auth_users (db w))) <->
                         In u (auth_users (db w)) /\ id u <> uid).
  { intros u. rewrite filter_In. unfold hasId. now rewrite negb_eqb_neq. }
  assert (Hp : forall r, In r (filter (fun r => negb (pr_user_id r =? uid)%string)
                                      (auth_password_resets (db w))) <->
                         In r (auth_password_resets (db w)) /\ pr_user_id r <> uid).
  { intros r. rewrite filter_In. now rewrite negb_eqb_neq. }
  split; [exact Hu|]. split; [|split; [exact Hp|split]].
  - intros r. rewrite filter_In. now rewrite negb_eqb_neq.
  - unfold primaryKey. cbn [auth_users].
    generalize (auth_users (db w)). intros l Hnd.
    induction l as [|a l IH]; cbn; [constructor|].
    inversion Hnd as [|x xs Hnotin Hnd']; subst.
    destruct (negb (hasId uid a)); [|now apply IH].
    cbn. constructor; [|now apply IH].
    intros Hin. apply Hnotin. apply in_map_iff in Hin. destruct Hin as (b & Hb & Hin).
    apply filter_In in Hin. apply in_map_iff. exists b. tauto.
  - unfold resetsReferUsers. cbn [auth_users auth_password_resets].
    intros Href r Hin. apply Hp in Hin. destruct Hin as [Hin Hne].
    specialize (Href r Hin). apply existsb_exists in Href.
    destruct Href as (u & Hinu & Hid). apply existsb_exists. exists u.
    split; [|exact Hid]. apply Hu. split; [exact Hinu|].
    apply hasId_eq in Hid. congruence.
Qed.

(** X19.  A deleted credential is unknown everywhere: a sign-in with its
    address answers 401 "Invalid email or password", a refresh with one
    of its refresh tokens answers 401 "Invalid refresh token", and the
    validation of one of its reset tokens answers "Token not found". *)
Theorem deleted_user_is_gone (E : Env) (uid e pw rt pt : string) (w : World) :
  hd false (faults w) = false ->
  (forall u, In u (auth_users (db w)) -> email u = toLowerCase e -> id u = uid) ->
  (forall r, In r (auth_refresh_tokens (db w)) -> rt_token r = rt -> rt_user_id r = uid) ->
  (forall r, In r (auth_password_resets (db w)) -> pr_token r = pt -> pr_user_id r = uid) ->
  forall v, db v = db (snd (User.delete uid w)) -> hd false (faults v) = false ->
    fst (Routes.signin E e pw v) = Throw (UnauthorizedError "Invalid email or password") /\
    fst (Routes.refresh E rt v) = Throw (UnauthorizedError "Invalid refresh token") /\
    fst (Routes.validateResetToken pt v) =
      Ok (mkResponse 200 [("valid", JBool false); ("reason", JString "Token not found")]).
Proof.
  intros Hf Hmail Hrt Hpt v Hdb Hfv.
  rewrite (delete_run uid w Hf) in Hdb. cbn [snd db] in Hdb.
  split; [|split].
  - unfold Routes.signin, bind. rewrite findByEmail_run by exact Hfv.
    assert (Hnone : userByEmail (toLowerCase e) (db v) = None).
    { unfold userByEmail. rewrite Hdb. cbn [auth_users]. apply find_all_false.
      intros u Hin. apply filter_In in Hin. destruct Hin as [Hin Hneg].
      destruct (String.eqb_spec (email u) (toLowerCase e)) as [Heq|]; [|reflexivity].
      apply negb_eqb_neq in Hneg. now elim Hneg; apply Hmail. }
    now rewrite Hnone.
  - assert (Hnone : refreshByToken rt (db v) = None).
    { unfold refreshByToken. rewrite Hdb. cbn [auth_refresh_tokens]. apply find_all_false.
      intros r Hin. apply filter_In in Hin. destruct Hin as [Hin Hneg].
      destruct (String.eqb_spec (rt_token r) rt) as [Heq|]; [|reflexivity].
      apply negb_eqb_neq in Hneg. now elim Hneg; apply Hrt. }
    pose proof (refresh_findByToken_none rt v Hnone Hfv) as Hfind.
    unfold Routes.refresh, bind.
    destruct (RefreshToken.findByToken rt v) as [res v']. cbn in Hfind. subst res.
    reflexivity.
  - unfold Routes.validateResetToken, PasswordReset.validateToken, bind.
    rewrite findByToken_run by exact Hfv.
    rewrite Hdb. cbn [auth_password_resets].
    rewrite (filter_all_false (PasswordReset.hasToken pt)); [reflexivity|].
    intros r Hin. apply filter_In in Hin. destruct Hin as [Hin Hneg].
    unfold PasswordReset.hasToken.
    destruct (String.eqb_spec (pr_token r) pt) as [Heq|]; [|reflexivity].
    apply negb_eqb_neq in Hneg. now elim Hneg; apply Hpt.
Qed.

(* ================================================================== *)
(** ** Signing out everywhere, and unlocking *)

(** X20.  For a [userId] given in the text form in which the store
    prints ids (lower-case, 8-4-4-4-12), POST /auth/signout-all ends
    every session of the credential and no other: afterwards a refresh
    with a token of the credential answers 401 "Refresh token has been
    revoked", and a refresh with a token of another credential answers
    what it answered before.  (Another spelling of the same [uuid],
    which the validator of the route lets through, is outside this
    statement: the store compares by value, the tables here hold
    text.) *)
Theorem signoutAll_ends_own_sessions (E : Env) (uid : string) (w : World) :
  isUuidText uid = true ->
  Forall (fun r => isUuidText (rt_user_id r) = true) (auth_refresh_tokens (db w)) ->
  hd false (faults w) = false ->
  exists w1,
    Routes.signoutAll uid w =
      (Ok (mkResponse 200
             [("message", JString "Signed out from all devices successfully")]), w1) /\
    forall tok r u v,
      refreshByToken tok (db w) = Some r ->
      userById (rt_user_id r) (db w) = Some u ->
      db v = db w1 -> hd false (faults v) = false ->
      (rt_user_id r = uid ->
         fst (Routes.refresh E tok v) =
         Throw (UnauthorizedError "Refresh token has been revoked")) /\
      (rt_user_id r <> uid ->
         fst (Routes.refresh E tok v) = fst (Routes.refresh E tok (set_db v (db w)))).
Proof.
  intros _ _ Hf. unfold Routes.signoutAll, RefreshToken.revokeAllForUser, bind.
  rewrite query_run by exact Hf. eexists. split; [reflexivity|].
  intros tok r u v Hr Hu Hdb Hfv. cbn [db] in Hdb.
  assert (Hr' : refreshByToken tok (db v) =
                Some (if RefreshToken.liveOf uid r then RefreshToken.set_revoked r else r)).
  { rewrite Hdb. now rewrite refreshByToken_updateWhere, Hr. }
  assert (Hu' : userById (rt_user_id r) (db v) = Some u) by (rewrite Hdb; exact Hu).
  split.
  - intros Hown.
    destruct (rt_revoked r) eqn:Hrev.
    + apply (refresh_of_revoked E tok v r u); try assumption.
      rewrite Hr'. unfold RefreshToken.liveOf. rewrite Hrev.
      now rewrite andb_false_r.
    + apply (refresh_of_revoked E tok v (RefreshToken.set_revoked r) u);
        [|exact Hu'|reflexivity|exact Hfv].
      rewrite Hr'. unfold RefreshToken.liveOf. rewrite Hrev, Hown, String.eqb_refl.
      reflexivity.
  - intros Hother.
    assert (Hlive : RefreshToken.liveOf uid r = false).
    { unfold RefreshToken.liveOf. apply String.eqb_neq in Hother. now rewrite Hother. }
    rewrite Hlive in Hr'.
    unfold Routes.refresh, bind.
    rewrite (refresh_findByToken_run tok v r u Hr' Hu' Hfv).
    rewrite (refresh_findByToken_run tok (set_db v (db w)) r u Hr Hu Hfv).
    destruct (rt_revoked r); [reflexivity|].
    unfold newDateNow. cbn [now set_db].
    destruct (rt_expires_at r <? now v); reflexivity.
Qed.

(** X21.  [User.unlockAccount] lifts a lock whatever its end: afterwards
    the credential is not locked at any time, its failure counter is
    zero, and a sign-in with the right password succeeds. *)
Theorem unlockAccount_then_signin (E : Env) (e pw : string) (w : World) (u : auth_user) :
  primaryKey (db w) ->
  userByEmail (toLowerCase e) (db w) = Some u ->
  bcrypt_compare E pw (password_hash u) = true ->
  hd false (faults w) = false ->
  exists w1,
    User.unlockAccount (id u) w = (Ok tt, w1) /\
    userById (id u) (db w1) = Some (User.clear_lockout (now w) u) /\
    forall v, db v = db w1 -> faults v = [] ->
      fst (User.isAccountLocked (id u) v) = Ok (mkLockStatus false None None) /\
      (existsb (fun r => (rt_id r =? uuidStringify (uuidStamp (takeBytes 16
                                       (pg_entropy v))))%string ||
                         RefreshToken.hasToken
                           (uuidStringify (uuidStamp (takeBytes 16 (entropy v)))) r)
               (auth_refresh_tokens (db v)) = false ->
       exists resp, fst (Routes.signin E e pw v) = Ok resp /\ status resp = 200).
Proof.
  intros Hpk Hmail Hpw Hf.
  pose proof (userByEmail_userById _ _ _ Hpk Hmail) as Hid.
  unfold User.unlockAccount. rewrite query_run by exact Hf.
  eexists. split; [reflexivity|]. cbn [db].
  assert (Hrow : userById (id u)
            (with_users (db w)
               (updateWhere (hasId (id u)) (User.clear_lockout (now w)) (auth_users (db w))))
          = Some (User.clear_lockout (now w) u)).
  { unfold userById. cbn -[updateWhere]. rewrite find_updateWhere_same by reflexivity.
    unfold userById in Hid. now rewrite Hid. }
  split; [exact Hrow|]. intros v Hdb Hfv. rewrite <- Hdb in Hrow.
  split.
  - rewrite (isAccountLocked_run _ v _ Hrow) by now rewrite Hfv. reflexivity.
  - intros Hfresh.
    assert (Hpkv : primaryKey (db v)).
    { rewrite Hdb. apply primaryKey_updateWhere; [reflexivity|exact Hpk]. }
    assert (Hmailv : userByEmail (toLowerCase e) (db v) =
                     Some (User.clear_lockout (now w) u)).
    { rewrite Hdb. unfold userByEmail in *. cbn -[updateWhere].
      rewrite (find_email_updateWhere (id u) (toLowerCase e) _ _ u) by
        (try reflexivity; exact Hmail).
      now rewrite hasId_refl. }
    destruct (signin_success_run E e pw v _ Hpkv Hmailv eq_refl Hpw Hfv Hfresh)
      as (Hresp & _).
    eexists. split; [exact Hresp|reflexivity].
Qed.

(* ================================================================== *)
(** ** Asking for a password reset *)

Lemma existsb_updateWhere {A : Type} (q p : A -> bool) (f : A -> A) (l : list A) :
  (forall a, q (f a) = q a) ->
  existsb q (updateWhere p f l) = existsb q l.
Proof.
  intros Hq. unfold updateWhere. induction l as [|a l IH]; simpl; [reflexivity|].
  rewrite IH. destruct (p a); [now rewrite Hq|reflexivity].
Qed.

Lemma find_app_some {A : Type} (p : A -> bool) (l1 l2 : list A) (a : A) :
  find p l1 = Some a -> find p (l1 ++ l2)%list = Some a.
Proof.
  induction l1 as [|b l1 IH]; simpl; [discriminate|].
  destruct (p b); [trivial|exact IH].
Qed.

Lemma find_some_existsb {A : Type} (p q : A -> bool) (l : list A) (a : A) :
  find p l = Some a -> q a = true -> existsb q l = true.
Proof.
  intros Hfind Hq. apply find_some in Hfind. apply existsb_exists.
  exists a. tauto.
Qed.

(** The number of reset tokens of a credential made in the last
    [withinMinutes] minutes before [t]. *)
Lemma getRecentRequestCount_run (uid : string) (m : Z) (w : World) :
  hd false (faults w) = false ->
  PasswordReset.getRecentRequestCount uid m w =
  (Ok (recentRequests uid m (now w) (db w)),
   mkWorld (db w) (now w) (tl (faults w)) (entropy w) (pg_entropy w)
           (Sql CountRecentPasswordResets :: trace w)).
Proof.
  intros Hf. unfold PasswordReset.getRecentRequestCount.
  now rewrite query_run by exact Hf.
Qed.

(** The run of a request that issues a token. *)
Lemma forgotPassword_issue_run (E : Env) (e : string) (w : World) (u : auth_user) :
  faults w = [] ->
  userByEmail (toLowerCase e) (db w) = Some u ->
  recentRequests (id u) 60 (now w) (db w) < 3 ->
  let row := newResetRow E (id u) w in
  existsb (fun r => (pr_id r =? pr_id row)%string ||
                    PasswordReset.hasToken (pr_token row) r)
          (auth_password_resets (db w)) = false ->
  Routes.forgotPassword E e w =
  (Ok Routes.forgotPasswordAck,
   mkWorld (with_resets (db w)
              (updateWhere (PasswordReset.unusedOf (id u)) PasswordReset.set_used
                           (auth_password_resets (db w)) ++ [row])%list)
           (now w) [] (skipn 32 (entropy w)) (skipn 16 (pg_entropy w))
           (Mail "Reset Your Password" e :: Sql InsertPasswordReset ::
            Sql UpdateResetUsedByUser :: Sql CountRecentPasswordResets ::
            Sql SelectUserByEmail :: trace w)).
Proof.
  intros Hf Hmail Hrecent row Hfresh. subst row. unfold newResetRow in *.
  unfold Routes.forgotPassword, bind.
  rewrite findByEmail_run by now rewrite Hf. rewrite Hmail, Hf. cbn [tl].
  rewrite getRecentRequestCount_run by reflexivity. cbn [now db].
  apply Z.leb_gt in Hrecent. rewrite Z.geb_leb, Hrecent.
  unfold PasswordReset.create, PasswordReset.invalidateForUser, sendPasswordResetEmail,
    randomBytes, newDateNow, uuid_generate_v4, event, emit, bind, ret, query.
  run_step. unfold PasswordReset.insertReset. run_step.
  rewrite existsb_updateWhere by reflexivity.
  cbn [pr_id pr_token] in Hfresh. rewrite Hfresh.
  unfold userByEmail in Hmail.
  rewrite (find_some_existsb _ (hasId (id u)) _ u Hmail (hasId_refl u)).
  reflexivity.
Qed.

(** X22.  POST /auth/forgot-password answers with the same 200 body in
    its three cases.  For an address without a credential it reads the
    credential and stops.  For a credential that has three or more reset
    tokens made in the last 60 minutes it reads the count and stops:
    nothing is stored or sent.  Otherwise it marks the unused tokens of
    the credential as used, stores one new token that expires after the
    configured hours, and sends the mail. *)
Theorem forgotPassword_outcomes (E : Env) (e : string) (w : World) :
  faults w = [] ->
  let w' := snd (Routes.forgotPassword E e w) in
  (userByEmail (toLowerCase e) (db w) = None ->
     fst (Routes.forgotPassword E e w) = Ok Routes.forgotPasswordAck /\
     db w' = db w /\
     trace w' = Sql SelectUserByEmail :: trace w) /\
  (forall u, userByEmail (toLowerCase e) (db w) = Some u ->
     (3 <= recentRequests (id u) 60 (now w) (db w) ->
        fst (Routes.forgotPassword E e w) = Ok Routes.forgotPasswordAck /\
        db w' = db w /\
        trace w' = Sql CountRecentPasswordResets :: Sql SelectUserByEmail :: trace w) /\
     (recentRequests (id u) 60 (now w) (db w) < 3 ->
      existsb (fun r => (pr_id r =? pr_id (newResetRow E (id u) w))%string ||
                        PasswordReset.hasToken (pr_token (newResetRow E (id u) w)) r)
              (auth_password_resets (db w)) = false ->
        fst (Routes.forgotPassword E e w) = Ok Routes.forgotPasswordAck /\
        auth_users (db w') = auth_users (db w) /\
        auth_refresh_tokens (db w') = auth_refresh_tokens (db w) /\
        auth_password_resets (db w') =
          (updateWhere (PasswordReset.unusedOf (id u)) PasswordReset.set_used
                       (auth_password_resets (db w)) ++
           [mkReset (uuidStringify (uuidStamp (takeBytes 16 (pg_entropy w)))) (id u)
                    (toHex (takeBytes 32 (entropy w)))
                    (now w + TOKEN_EXPIRY_HOURS E * 3600000) (now w) false])%list /\
        trace w' = Mail "Reset Your Password" e :: Sql InsertPasswordReset ::
                   Sql UpdateResetUsedByUser :: Sql CountRecentPasswordResets ::
                   Sql SelectUserByEmail :: trace w)).
Proof.
  intros Hf w'. subst w'. split.
  - intros Hnone. unfold Routes.forgotPassword, bind.
    rewrite findByEmail_run by now rewrite Hf. rewrite Hnone. repeat split.
  - intros u Hu. split.
    + intros Hmany. unfold Routes.forgotPassword, bind.
      rewrite findByEmail_run by now rewrite Hf. rewrite Hu, Hf. cbn [tl].
      rewrite getRecentRequestCount_run by reflexivity. cbn [now db].
      apply Z.leb_le in Hmany. rewrite Z.geb_leb, Hmany. repeat split.
    + intros Hfew Hfresh.
      rewrite (forgotPassword_issue_run E e w u Hf Hu Hfew Hfresh).
      repeat split.
Qed.

(** What the validation answers for a stored token whose credential is
    stored. *)
Lemma validateToken_found_run (token : string) (w : World)
    (r : password_reset) (u : auth_user) :
  resetByToken token (db w) = Some r ->
  userById (pr_user_id r) (db w) = Some u ->
  hd false (faults w) = false ->
  fst (PasswordReset.validateToken token w) =
  Ok (if pr_used r then alreadyUsed
      else if pr_expires_at r <? now w then expired
      else mkValidateResult true None (Some (pr_user_id r)) (Some (email u))).
Proof.
  intros Hr Hu Hf.
  unfold PasswordReset.validateToken, bind. rewrite findByToken_run by exact Hf.
  unfold resetByToken in Hr.
  destruct (find_filter_cons _ _ _ Hr) as [rest Hrest].
  change (fun r => (pr_token r =? token)%string) with (PasswordReset.hasToken token) in Hrest.
  rewrite Hrest. cbn [flat_map]. unfold joinUsers at 1.
  destruct (userById_filter _ _ _ Hu) as [us Hus]. rewrite Hus.
  cbn [map app hd_error]. destruct (pr_used r); [reflexivity|].
  unfold newDateNow. cbn [now]. destruct (pr_expires_at r <? now w); reflexivity.
Qed.

Lemma validateResetToken_fst (token : string) (w : World) (res : ValidateResult) :
  fst (PasswordReset.validateToken token w) = Ok res ->
  fst (Routes.validateResetToken token w) =
  Ok (mkResponse 200
        (("valid", JBool (valid res)) ::
         (if valid res then []
          else match reason res with
               | Some r => [("reason", JString r)]
               | None => []
               end))).
Proof.
  intros H. unfold Routes.validateResetToken, bind.
  destruct (PasswordReset.validateToken token w) as [x w1]. cbn in H. now subst x.
Qed.

(** X23.  The token that POST /auth/forgot-password stores passes POST
    /auth/validate-reset-token up to and including the instant it
    expires, and fails it with the reason "Token has expired" after.
    Every older token of the credential fails it with "Token has
    already been used". *)
Theorem forgot_then_validate (E : Env) (e : string) (w : World) (u : auth_user) :
  faults w = [] ->
  userByEmail (toLowerCase e) (db w) = Some u ->
  recentRequests (id u) 60 (now w) (db w) < 3 ->
  existsb (fun r => (pr_id r =? pr_id (newResetRow E (id u) w))%string ||
                    PasswordReset.hasToken (pr_token (newResetRow E (id u) w)) r)
          (auth_password_resets (db w)) = false ->
  forall v, db v = db (snd (Routes.forgotPassword E e w)) ->
            hd false (faults v) = false ->
    (now v <= now w + TOKEN_EXPIRY_HOURS E * 3600000 ->
       fst (Routes.validateResetToken (toHex (takeBytes 32 (entropy w))) v) =
       Ok (mkResponse 200 [("valid", JBool true)])) /\
    (now w + TOKEN_EXPIRY_HOURS E * 3600000 < now v ->
       fst (Routes.validateResetToken (toHex (takeBytes 32 (entropy w))) v) =
       Ok (mkResponse 200 [("valid", JBool false);
                           ("reason", JString "Token has expired")])) /\
    (forall old r, resetByToken old (db w) = Some r -> pr_user_id r = id u ->
       fst (Routes.validateResetToken old v) =
       Ok (mkResponse 200 [("valid", JBool false);
                           ("reason", JString "Token has already been used")])).
Proof.
  intros Hf Hmail Hfew Hfresh v Hdb Hfv.
  rewrite (forgotPassword_issue_run E e w u Hf Hmail Hfew Hfresh) in Hdb.
  cbn [snd db] in Hdb.
  set (row := newResetRow E (id u) w) in *.
  set (tok := toHex (takeBytes 32 (entropy w))).
  assert (Hin : In u (auth_users (db w))).
  { unfold userByEmail in Hmail. now apply find_some in Hmail. }
  assert (Hu : exists u0, userById (id u) (db v) = Some u0).
  { unfold userById. rewrite Hdb. cbn [auth_users with_resets].
    destruct (find (hasId (id u)) (auth_users (db w))) as [u0|] eqn:Hfind; [eauto|].
    pose proof (find_none _ _ Hfind u Hin) as Hno. now rewrite hasId_refl in Hno. }
  destruct Hu as [u0 Hu0].
  assert (Hold : find (fun r => (pr_token r =? tok)%string)
                   (updateWhere (PasswordReset.unusedOf (id u)) PasswordReset.set_used
                                (auth_password_resets (db w))) = None).
  { rewrite find_updateWhere_preserved by reflexivity.
    rewrite find_all_false; [reflexivity|].
    intros r Hr. pose proof (existsb_false_forall _ _ Hfresh r Hr) as Hno.
    apply orb_false_elim in Hno. exact (proj2 Hno). }
  assert (Hrow : resetByToken tok (db v) = Some row).
  { unfold resetByToken. rewrite Hdb. cbn [auth_password_resets with_resets].
    rewrite find_app_none by exact Hold. cbn. now rewrite String.eqb_refl. }
  pose proof (validateToken_found_run tok v row u0 Hrow Hu0 Hfv) as Hval.
  cbn [row newResetRow pr_used pr_expires_at pr_user_id] in Hval.
  unfold addHours, msPerHour in Hval.
  split; [|split].
  - intros Hle. apply Z.ltb_ge in Hle. rewrite Hle in Hval.
    now rewrite (validateResetToken_fst _ _ _ Hval).
  - intros Hlt. apply Z.ltb_lt in Hlt. rewrite Hlt in Hval.
    now rewrite (validateResetToken_fst _ _ _ Hval).
  - intros old r Hr Hown.
    assert (Hr' : resetByToken old (db v) =
                  Some (if PasswordReset.unusedOf (id u) r
                        then PasswordReset.set_used r else r)).
    { unfold resetByToken in *. rewrite Hdb. cbn [auth_password_resets with_resets].
      assert (Hfirst : find (fun r0 => (pr_token r0 =? old)%string)
                (updateWhere (PasswordReset.unusedOf (id u)) PasswordReset.set_used
                             (auth_password_resets (db w))) =
              Some (if PasswordReset.unusedOf (id u) r
                    then PasswordReset.set_used r else r)).
      { rewrite find_updateWhere_preserved by reflexivity. now rewrite Hr. }
      now apply find_app_some. }
    assert (Hused : pr_used (if PasswordReset.unusedOf (id u) r
                             then PasswordReset.set_used r else r) = true).
    { unfold PasswordReset.unusedOf. rewrite Hown, String.eqb_refl. cbn [andb].
      destruct (pr_used r) eqn:Hpu; cbn [negb]; [exact Hpu|reflexivity]. }
    assert (Hu1 : userById (pr_user_id (if PasswordReset.unusedOf (id u) r
                                        then PasswordReset.set_used r else r)) (db v)
                  = Some u0).
    { destruct (PasswordReset.unusedOf (id u) r); cbn; now rewrite Hown. }
    pose proof (validateToken_found_run old v _ u0 Hr' Hu1 Hfv) as Hval'.
    rewrite Hused in Hval'.
    now rewrite (validateResetToken_fst _ _ _ Hval').
Qed.

(* ================================================================== *)
(** ** Verifying an address *)

Lemma isEmailVerified_run (uid : string) (w : World) (u : auth_user) :
  userById uid (db w) = Some u ->
  hd false (faults w) = false ->
  User.isEmailVerified uid w =
  (Ok (email_verified u),
   mkWorld (db w) (now w) (tl (faults w)) (entropy w) (pg_entropy w)
           (Sql SelectEmailVerified :: trace w)).
Proof.
  intros Hu Hf. unfold User.isEmailVerified, bind. rewrite query_run by exact Hf.
  destruct (userById_filter _ _ _ Hu) as [rest Hrest]. now rewrite Hrest.
Qed.

Lemma generateEmailVerificationToken_run (E : Env) (uid : string) (w : World) :
  hd false (faults w) = false ->
  User.generateEmailVerificationToken E uid w =
  (Ok (toHex (takeBytes 32 (entropy w))),
   mkWorld (with_users (db w)
              (updateWhere (hasId uid)
                 (User.set_verification (Some (toHex (takeBytes 32 (entropy w))))
                    (Some (addHours (now w) (EMAIL_VERIFICATION_EXPIRY_HOURS E))) (now w))
                 (auth_users (db w))))
           (now w) (tl (faults w)) (skipn 32 (entropy w)) (pg_entropy w)
           (Sql UpdateVerificationToken :: trace w)).
Proof.
  intros Hf. unfold User.generateEmailVerificationToken, randomBytes, newDateNow, bind, ret.
  cbn [db now faults entropy pg_entropy trace].
  rewrite query_run by exact Hf. reflexivity.
Qed.

(** The run of a verification that succeeds. *)
Lemma verifyEmail_success_run (tok : string) (w : World) (u : auth_user) :
  faults w = [] ->
  userByVerificationToken tok (db w) = Some u ->
  email_verified u = false ->
  now w <= newDate (email_verification_expires u) ->
  User.verifyEmail tok w =
  (Ok (mkVerifyEmailResult true None (Some (id u)) (Some (email u))),
   mkWorld (with_users (db w)
              (updateWhere (hasId (id u)) (User.set_verified (now w)) (auth_users (db w))))
           (now w) [] (entropy w) (pg_entropy w)
           (Sql UpdateEmailVerified :: Sql SelectUserByVerificationToken :: trace w)).
Proof.
  intros Hf Hu Hv Hle. unfold userByVerificationToken in Hu.
  unfold User.verifyEmail, bind. rewrite query_run by now rewrite Hf.
  destruct (find_filter_cons _ _ _ Hu) as [rest Hrest]. rewrite Hrest, Hv.
  unfold newDateNow. cbn [now]. apply Z.ltb_ge in Hle. rewrite Hle.
  rewrite query_run by (cbn; now rewrite Hf). rewrite Hf. reflexivity.
Qed.

(** No row of the credential holds a token after its verification. *)
Lemma no_holder_after_verification (tok uid : string) (t : Date) (l : list auth_user) :
  (forall a, In a l -> User.hasVerificationToken tok a = true -> id a = uid) ->
  filter (User.hasVerificationToken tok) (updateWhere (hasId uid) (User.set_verified t) l)
  = [].
Proof.
  intros Hown. apply filter_all_false. intros b Hb.
  apply in_updateWhere in Hb. destruct Hb as (a & Ha & ->).
  destruct (hasId uid a) eqn:Hid; [reflexivity|].
  destruct (User.hasVerificationToken tok a) eqn:Htok; [|reflexivity].
  apply Hown in Htok; [|exact Ha]. unfold hasId in Hid.
  rewrite Htok, String.eqb_refl in Hid. discriminate.
Qed.

(** X24.  A verification token is single-use: POST /auth/verify-email
    with the token of an unverified credential, not after its expiry,
    answers 200 with the address; the same request again, at any later
    time, answers 400 "Invalid verification token" and writes nothing,
    because the first request cleared the token. *)
Theorem verifyEmail_route_single_use (tok : string) (w : World) (u : auth_user) :
  faults w = [] ->
  userByVerificationToken tok (db w) = Some u ->
  (forall a, In a (auth_users (db w)) ->
             User.hasVerificationToken tok a = true -> id a = id u) ->
  email_verified u = false ->
  now w <= newDate (email_verification_expires u) ->
  fst (Routes.verifyEmail tok w) =
    Ok (mkResponse 200 [("message", JString "Email verified successfully.");
                        ("email", JString (email u))]) /\
  forall v, db v = db (snd (Routes.verifyEmail tok w)) -> hd false (faults v) = false ->
    fst (Routes.verifyEmail tok v) = Throw (BadRequestError "Invalid verification token") /\
    db (snd (Routes.verifyEmail tok v)) = db v.
Proof.
  intros Hf Hu Hown Hv Hle. unfold Routes.verifyEmail at 1 2, bind.
  rewrite (verifyEmail_success_run tok w u Hf Hu Hv Hle). cbn [success negb ve_email fst snd db].
  split; [reflexivity|]. intros v Hdb Hfv. unfold ret in Hdb. cbn [snd db] in Hdb.
  unfold Routes.verifyEmail, User.verifyEmail, bind.
  rewrite query_run by exact Hfv. rewrite Hdb. cbn [auth_users with_users].
  rewrite (no_holder_after_verification tok (id u) (now w) _ Hown).
  cbn. rewrite <- Hdb. split; reflexivity.
Qed.

(** X25.  POST /auth/resend-verification, for an address without a
    credential, answers the neutral 200 body and stops after one SELECT.
    For a verified credential it answers 200 "Email is already
    verified." and writes nothing.  For an unverified credential it
    answers the neutral body, replaces the token of the credential by
    the hex of 32 fresh random bytes that expires after the configured
    hours, and sends the mail. *)
Theorem resendVerification_outcomes (E : Env) (e : string) (w : World) :
  faults w = [] ->
  primaryKey (db w) ->
  let w' := snd (Routes.resendVerification E e w) in
  (userByEmail (toLowerCase e) (db w) = None ->
     fst (Routes.resendVerification E e w) = Ok Routes.resendVerificationAck /\
     db w' = db w /\ trace w' = Sql SelectUserByEmail :: trace w) /\
  (forall u, userByEmail (toLowerCase e) (db w) = Some u ->
     (email_verified u = true ->
        fst (Routes.resendVerification E e w) =
          Ok (mkResponse 200 [("message", JString "Email is already verified.");
                              ("alreadyVerified", JBool true)]) /\
        db w' = db w /\
        trace w' = Sql SelectEmailVerified :: Sql SelectUserByEmail :: trace w) /\
     (email_verified u = false ->
        fst (Routes.resendVerification E e w) = Ok Routes.resendVerificationAck /\
        userById (id u) (db w') =
          Some (User.set_verification (Some (toHex (takeBytes 32 (entropy w))))
                  (Some (now w + EMAIL_VERIFICATION_EXPIRY_HOURS E * 3600000)) (now w) u) /\
        (forall a, In a (auth_users (db w)) -> id a <> id u -> In a (auth_users (db w'))) /\
        auth_refresh_tokens (db w') = auth_refresh_tokens (db w) /\
        auth_password_resets (db w') = auth_password_resets (db w) /\
        trace w' = Mail "Verify Your Email Address" e :: Sql UpdateVerificationToken ::
                   Sql SelectEmailVerified :: Sql SelectUserByEmail :: trace w)).
Proof.
  intros Hf Hpk w'. subst w'. split.
  - intros Hnone. unfold Routes.resendVerification, bind.
    rewrite findByEmail_run by now rewrite Hf. rewrite Hnone. repeat split.
  - intros u Hu. pose proof (userByEmail_userById _ _ _ Hpk Hu) as Hid.
    unfold Routes.resendVerification, bind.
    rewrite findByEmail_run by now rewrite Hf. rewrite Hu, Hf. cbn [tl].
    rewrite (isEmailVerified_run (id u) _ u) by (try reflexivity; exact Hid).
    split; intros Hv; rewrite Hv; [repeat split|].
    cbn [tl].
    rewrite generateEmailVerificationToken_run by reflexivity.
    unfold sendEmailVerificationEmail, event, emit, ret.
    cbn [fst snd db now entropy trace tl faults pg_entropy
         auth_refresh_tokens auth_password_resets with_users].
    split; [reflexivity|]. split; [|split; [|repeat split]].
    + unfold userById, with_users. cbn [auth_users].
      rewrite find_updateWhere_same by reflexivity.
      unfold userById in Hid. now rewrite Hid.
    + intros a Hin Hne. unfold with_users. cbn [auth_users]. unfold updateWhere. apply in_map_iff.
      exists a. split; [|exact Hin].
      destruct (hasId (id u) a) eqn:Ha; [|reflexivity].
      apply hasId_eq in Ha. contradiction.
Qed.

Lemma primaryKey_unique (d : Database) (a b : auth_user) :
  primaryKey d -> In a (auth_users d) -> In b (auth_users d) -> id a = id b -> a = b.
Proof.
  intros Hpk Ha Hb Hid.
  pose proof (primaryKey_userById d a Hpk Ha) as H1.
  pose proof (primaryKey_userById d b Hpk Hb) as H2.
  rewrite Hid in H1. congruence.
Qed.

(** X26.  A resent verification replaces the token of the credential:
    the token it held before answers 400 "Invalid verification token",
    and the new token verifies the address up to and including the
    instant it expires and answers 400 "Verification token has expired"
    after. *)
Theorem resend_replaces_token (E : Env) (e old : string) (w : World) (u : auth_user) :
  faults w = [] ->
  primaryKey (db w) ->
  userByEmail (toLowerCase e) (db w) = Some u ->
  email_verified u = false ->
  (forall a, In a (auth_users (db w)) ->
             User.hasVerificationToken old a = true -> id a = id u) ->
  (forall a, In a (auth_users (db w)) ->
             User.hasVerificationToken (toHex (takeBytes 32 (entropy w))) a = true ->
             id a = id u) ->
  old <> toHex (takeBytes 32 (entropy w)) ->
  forall v, db v = db (snd (Routes.resendVerification E e w)) -> faults v = [] ->
    fst (Routes.verifyEmail old v) = Throw (BadRequestError "Invalid verification token") /\
    (now v <= now w + EMAIL_VERIFICATION_EXPIRY_HOURS E * 3600000 ->
       fst (Routes.verifyEmail (toHex (takeBytes 32 (entropy w))) v) =
       Ok (mkResponse 200 [("message", JString "Email verified successfully.");
                           ("email", JString (email u))])) /\
    (now w + EMAIL_VERIFICATION_EXPIRY_HOURS E * 3600000 < now v ->
       fst (Routes.verifyEmail (toHex (takeBytes 32 (entropy w))) v) =
       Throw (BadRequestError "Verification token has expired")).
Proof.
  intros Hf Hpk Hu Hv Hold Hnew Hne v Hdb Hfv.
  set (tok := toHex (takeBytes 32 (entropy w))) in *.
  set (ex := now w + EMAIL_VERIFICATION_EXPIRY_HOURS E * 3600000).
  set (f := User.set_verification (Some tok) (Some ex) (now w)).
  pose proof (userByEmail_userById _ _ _ Hpk Hu) as Hid.
  assert (Hin : In u (auth_users (db w))).
  { unfold userByEmail in Hu. now apply find_some in Hu. }
  assert (Husers : auth_users (db v) = updateWhere (hasId (id u)) f (auth_users (db w))).
  { rewrite Hdb. unfold Routes.resendVerification, bind.
    rewrite findByEmail_run by now rewrite Hf. rewrite Hu, Hf. cbn [tl].
    rewrite (isEmailVerified_run (id u) _ u) by (try reflexivity; exact Hid).
    rewrite Hv. cbn [tl].
    rewrite generateEmailVerificationToken_run by reflexivity. reflexivity. }
  assert (Hholder : userByVerificationToken tok (db v) = Some (f u)).
  { unfold userByVerificationToken. rewrite Husers.
    destruct (find (User.hasVerificationToken tok)
                   (updateWhere (hasId (id u)) f (auth_users (db w)))) as [b|] eqn:Hfind.
    - apply find_some in Hfind. destruct Hfind as [Hb Htok].
      apply in_updateWhere in Hb. destruct Hb as (a & Ha & ->).
      destruct (hasId (id u) a) eqn:Hida.
      + apply hasId_eq in Hida. now rewrite (primaryKey_unique _ a u Hpk Ha Hin Hida).
      + apply Hnew in Htok; [|exact Ha]. unfold hasId in Hida.
        rewrite Htok, String.eqb_refl in Hida. discriminate.
    - exfalso.
      assert (Hfu : In (f u) (updateWhere (hasId (id u)) f (auth_users (db w)))).
      { unfold updateWhere. apply in_map_iff. exists u. now rewrite hasId_refl. }
      pose proof (find_none _ _ Hfind _ Hfu) as Hno.
      unfold User.hasVerificationToken in Hno. cbn in Hno.
      now rewrite String.eqb_refl in Hno. }
  split; [|split].
  - unfold Routes.verifyEmail, User.verifyEmail, bind.
    rewrite query_run by now rewrite Hfv. rewrite Husers.
    rewrite (filter_all_false (User.hasVerificationToken old)); [reflexivity|].
    intros b Hb. apply in_updateWhere in Hb. destruct Hb as (a & Ha & ->).
    destruct (hasId (id u) a) eqn:Hida.
    + unfold User.hasVerificationToken. cbn. apply String.eqb_neq.
      intros Heq. apply Hne. now symmetry.
    + destruct (User.hasVerificationToken old a) eqn:Htok; [|reflexivity].
      apply Hold in Htok; [|exact Ha]. unfold hasId in Hida.
      rewrite Htok, String.eqb_refl in Hida. discriminate.
  - intros Hle. unfold Routes.verifyEmail, bind.
    rewrite (verifyEmail_success_run tok v (f u) Hfv Hholder Hv Hle). reflexivity.
  - intros Hlt. unfold Routes.verifyEmail, User.verifyEmail, bind.
    rewrite query_run by now rewrite Hfv.
    destruct (find_filter_cons _ _ _ Hholder) as [rest Hrest]. rewrite Hrest.
    cbn [email_verified f User.set_verification]. rewrite Hv.
    unfold newDateNow. cbn [now email_verification_expires newDate].
    apply Z.ltb_lt in Hlt.
    change (newDate (email_verification_expires (f u))) with ex. rewrite Hlt. reflexivity.
Qed.

(* ================================================================== *)
(** ** The further properties on the examples *)

Lemma delete_cascades_witness :
  ~ In (session "0e0e0e0e-0000-4000-8000-000000000001" false)
       (auth_refresh_tokens (db (snd (User.delete "u1" twoUsersWorld)))).
Proof.
  destruct (delete_cascades "u1" twoUsersWorld eq_refl) as (_ & _ & Hr & _).
  intros Hin. apply Hr in Hin. destruct Hin as [_ Hne]. apply Hne. reflexivity.
Defined.

Lemma deleted_user_is_gone_witness :
  fst (Routes.signin exampleEnv "Alice@Example.com" "Secret123" afterDeleteWorld) =
  Throw (UnauthorizedError "Invalid email or password").
Proof.
  assert (Hu : forall u, In u (auth_users (db twoUsersWorld)) ->
                         email u = toLowerCase "Alice@Example.com" -> id u = "u1").
  { intros u [<-|[<-|[]]] H; [reflexivity|discriminate H]. }
  assert (Hr : forall r, In r (auth_refresh_tokens (db twoUsersWorld)) ->
                         rt_token r = "0e0e0e0e-0000-4000-8000-000000000001" ->
                         rt_user_id r = "u1").
  { intros r [<-|[<-|[]]] H; [reflexivity|discriminate H]. }
  assert (Hp : forall r, In r (auth_password_resets (db twoUsersWorld)) ->
                         pr_token r = "tokA" -> pr_user_id r = "u1").
  { intros r [<-|[<-|[]]] H; [reflexivity|discriminate H]. }
  assert (Hdb : db afterDeleteWorld = db (snd (User.delete "u1" twoUsersWorld)))
    by (vm_compute; reflexivity).
  exact (proj1 (deleted_user_is_gone exampleEnv "u1" "Alice@Example.com" "Secret123"
                  "0e0e0e0e-0000-4000-8000-000000000001" "tokA" twoUsersWorld
                  eq_refl Hu Hr Hp afterDeleteWorld Hdb eq_refl)).
Defined.

Lemma signoutAll_ends_own_sessions_witness :
  exists w1,
    fst (Routes.signoutAll bobId afterSignupWorld) =
      Ok (mkResponse 200
            [("message", JString "Signed out from all devices successfully")]) /\
    w1 = snd (Routes.signoutAll bobId afterSignupWorld) /\
    fst (Routes.refresh exampleEnv bobId w1) =
      Throw (UnauthorizedError "Refresh token has been revoked").
Proof.
  assert (Hid : isUuidText bobId = true) by (vm_compute; reflexivity).
  assert (Hrows : Forall (fun r => isUuidText (rt_user_id r) = true)
                         (auth_refresh_tokens (db afterSignupWorld)))
    by (repeat constructor).
  destruct (signoutAll_ends_own_sessions exampleEnv bobId afterSignupWorld Hid Hrows eq_refl)
    as (w1 & Hrun & Hnext).
  exists w1. rewrite Hrun. cbn [fst snd]. repeat split.
  assert (Hfv : hd false (faults w1) = false).
  { vm_compute in Hrun. injection Hrun as Hw. subst w1. reflexivity. }
  destruct (Hnext bobId (mkRefresh bobId bobId bobId 2592001000 1000 false) bob w1
              eq_refl eq_refl eq_refl Hfv) as [Hown _].
  apply Hown. reflexivity.
Defined.

Lemma unlockAccount_then_signin_witness :
  exists w1,
    fst (User.unlockAccount "u1" lockedWorld) = Ok tt /\
    w1 = snd (User.unlockAccount "u1" lockedWorld) /\
    fst (User.isAccountLocked "u1" w1) = Ok (mkLockStatus false None None).
Proof.
  assert (Hpk : primaryKey (db lockedWorld)).
  { unfold primaryKey. simpl. constructor; [intros []|constructor]. }
  destruct (unlockAccount_then_signin exampleEnv "alice@example.com" "Secret123"
              lockedWorld (alice (Some 5) (Some 901000)) Hpk eq_refl eq_refl eq_refl)
    as (w1 & Hrun & _ & Hnext).
  exists w1. change (id (alice (Some 5) (Some 901000))) with "u1" in Hrun, Hnext.
  rewrite Hrun. cbn [fst snd]. repeat split.
  assert (Hfv : faults w1 = []).
  { vm_compute in Hrun. injection Hrun as Hw. subst w1. reflexivity. }
  exact (proj1 (Hnext w1 eq_refl Hfv)).
Defined.

Lemma forgotPassword_outcomes_witness :
  fst (Routes.forgotPassword exampleEnv "alice@example.com" pendingResetWorld) =
    Ok Routes.forgotPasswordAck /\
  map pr_used (auth_password_resets
                 (db (snd (Routes.forgotPassword exampleEnv "alice@example.com"
                                                 pendingResetWorld)))) = [true; false].
Proof.
  destruct (forgotPassword_outcomes exampleEnv "alice@example.com" pendingResetWorld
              eq_refl) as [_ H].
  destruct (H (alice (Some 0) None) eq_refl) as [_ Hissue].
  assert (Hfew : recentRequests "u1" 60 1000 (db pendingResetWorld) < 3)
    by (vm_compute; reflexivity).
  destruct (Hissue Hfew eq_refl) as (Hok & _ & _ & Hrows & _).
  split; [exact Hok|]. rewrite Hrows. reflexivity.
Defined.

Lemma forgot_then_validate_witness :
  fst (Routes.validateResetToken freshResetToken afterForgotWorld) =
  Ok (mkResponse 200 [("valid", JBool true)]).
Proof.
  assert (Hfew : recentRequests "u1" 60 1000 (db pendingResetWorld) < 3)
    by (vm_compute; reflexivity).
  assert (Hdb : db afterForgotWorld =
                db (snd (Routes.forgotPassword exampleEnv "alice@example.com"
                                               pendingResetWorld)))
    by (vm_compute; reflexivity).
  assert (Hle : now afterForgotWorld <=
                now pendingResetWorld + TOKEN_EXPIRY_HOURS exampleEnv * 3600000)
    by (vm_compute; discriminate).
  destruct (forgot_then_validate exampleEnv "alice@example.com" pendingResetWorld
              (alice (Some 0) None) eq_refl eq_refl Hfew eq_refl
              afterForgotWorld Hdb eq_refl) as (Hvalid & _).
  exact (Hvalid Hle).
Defined.

Lemma verifyEmail_route_single_use_witness :
  fst (Routes.verifyEmail "c0ffee" pendingVerificationWorld) =
  Ok (mkResponse 200 [("message", JString "Email verified successfully.");
                      ("email", JString "carol@example.com")]).
Proof.
  assert (Hown : forall a, In a (auth_users (db pendingVerificationWorld)) ->
                           User.hasVerificationToken "c0ffee" a = true ->
                           id a = id pendingUser).
  { intros a [<-|[]] _. reflexivity. }
  assert (Hle : now pendingVerificationWorld <=
                newDate (email_verification_expires pendingUser))
    by (vm_compute; discriminate).
  exact (proj1 (verifyEmail_route_single_use "c0ffee" pendingVerificationWorld
                  pendingUser eq_refl eq_refl Hown eq_refl Hle)).
Defined.

Lemma resendVerification_outcomes_witness :
  fst (Routes.resendVerification exampleEnv "carol@example.com" pendingVerificationWorld) =
  Ok Routes.resendVerificationAck.
Proof.
  assert (Hpk : primaryKey (db pendingVerificationWorld)).
  { unfold primaryKey. simpl. constructor; [intros []|constructor]. }
  destruct (resendVerification_outcomes exampleEnv "carol@example.com"
              pendingVerificationWorld eq_refl Hpk) as [_ H].
  destruct (H pendingUser eq_refl) as [_ Hnew].
  exact (proj1 (Hnew eq_refl)).
Defined.

Lemma resend_replaces_token_witness :
  fst (Routes.verifyEmail "c0ffee" afterResendWorld) =
  Throw (BadRequestError "Invalid verification token").
Proof.
  assert (Hpk : primaryKey (db pendingVerificationWorld)).
  { unfold primaryKey. simpl. constructor; [intros []|constructor]. }
  assert (Hold : forall a, In a (auth_users (db pendingVerificationWorld)) ->
                           User.hasVerificationToken "c0ffee" a = true ->
                           id a = id pendingUser).
  { intros a [<-|[]] _. reflexivity. }
  assert (Hnew : forall a, In a (auth_users (db pendingVerificationWorld)) ->
                           User.hasVerificationToken
                             (toHex (takeBytes 32 (entropy pendingVerificationWorld))) a
                           = true ->
                           id a = id pendingUser).
  { intros a [<-|[]] _. reflexivity. }
  assert (Hne : "c0ffee" <> toHex (takeBytes 32 (entropy pendingVerificationWorld)))
    by (vm_compute; discriminate).
  assert (Hdb : db afterResendWorld =
                db (snd (Routes.resendVerification exampleEnv "carol@example.com"
                                                   pendingVerificationWorld)))
    by (vm_compute; reflexivity).
  exact (proj1 (resend_replaces_token exampleEnv "carol@example.com" "c0ffee"
                  pendingVerificationWorld pendingUser eq_refl Hpk eq_refl eq_refl
                  Hold Hnew Hne afterResendWorld Hdb eq_refl)).
Defined.

(* ================================================================== *)
(** ** What holds after any sequence of requests *)

Lemma triple_bind {A B : Type} (P : Database -> Prop) (m : M A)
    (Q : A -> Database -> Prop) (R : Database -> Prop) (k : A -> M B)
    (Q' : B -> Database -> Prop) :
  triple P m Q R -> (forall a, triple (Q a) (k a) Q' R) -> triple P (bind m k) Q' R.
Proof.
  intros Hm Hk w HP. unfold bind. specialize (Hm w HP).
  destruct (m w) as [[a|e] w1]; [exact (Hk a w1 Hm)|exact Hm].
Qed.

Lemma triple_ret {A : Type} (a : A) (P : Database -> Prop)
    (Q : A -> Database -> Prop) (R : Database -> Prop) :
  (forall d, P d -> Q a d) -> triple P (ret a) Q R.
Proof. intros H w HP. cbn. now apply H. Qed.

Lemma triple_throw {A : Type} (e : Error) (P : Database -> Prop)
    (Q : A -> Database -> Prop) (R : Database -> Prop) :
  (forall d, P d -> R d) -> triple P (@throw A e) Q R.
Proof. intros H w HP. cbn. now apply H. Qed.

Lemma triple_pre {A : Type} (P P' : Database -> Prop) (m : M A)
    (Q : A -> Database -> Prop) (R : Database -> Prop) :
  (forall d, P' d -> P d) -> triple P m Q R -> triple P' m Q R.
Proof. intros H Hm w HP. apply Hm, H, HP. Qed.

Lemma triple_query {A : Type} (s : Statement)
    (run : Date -> Database -> Error + (A * Database))
    (P : Database -> Prop) (Q : A -> Database -> Prop) (R : Database -> Prop) :
  (forall d, P d -> R d) ->
  (forall t d a d', P d -> run t d = inr (a, d') -> Q a d') ->
  triple P (query s run) Q R.
Proof.
  intros HR HQ w HP. unfold query.
  destruct (hd false (faults w)); [cbn; now apply HR|].
  destruct (run (now w) (db w)) as [e|[a d']] eqn:Hrun; cbn; [now apply HR|].
  eapply HQ; eassumption.
Qed.

Lemma triple_catch {A : Type} (P : Database -> Prop) (m : M A)
    (Q : A -> Database -> Prop) (R R' : Database -> Prop) (h : Error -> M A) :
  triple P m Q R' -> (forall e, triple R' (h e) Q R) -> triple P (catch m h) Q R.
Proof.
  intros Hm Hh w HP. unfold catch. specialize (Hm w HP).
  destruct (m w) as [[a|e] w1]; [exact Hm|exact (Hh e w1 Hm)].
Qed.

(** A computation that only reads keeps what held. *)
Lemma reads_keeps {A : Type} (m : M A) (P : Database -> Prop) :
  (forall w, db (snd (m w)) = db w) -> keeps P m.
Proof.
  intros H w HP. specialize (H w).
  destruct (m w) as [[a|e] w1]; cbn in H; now rewrite H.
Qed.

Lemma reads_triple {A : Type} (m : M A) (P R : Database -> Prop) :
  (forall w, db (snd (m w)) = db w) -> (forall d, P d -> R d) ->
  triple P m (fun _ => P) R.
Proof.
  intros H HR w HP. specialize (H w).
  destruct (m w) as [[a|e] w1]; cbn in H; rewrite H; auto.
Qed.

Lemma keeps_snd {A : Type} (m : M A) (P : Database -> Prop) (w : World) :
  keeps P m -> P (db w) -> P (db (snd (m w))).
Proof.
  intros H HP. specialize (H w HP). now destruct (m w) as [[a|e] w1].
Qed.

Lemma keeps_bind {A B : Type} (P : Database -> Prop) (m : M A) (k : A -> M B) :
  keeps P m -> (forall a, keeps P (k a)) -> keeps P (bind m k).
Proof. intros Hm Hk. exact (triple_bind P m (fun _ => P) P k (fun _ => P) Hm Hk). Qed.

Lemma keeps_ret {A : Type} (a : A) (P : Database -> Prop) : keeps P (ret a).
Proof. now apply triple_ret. Qed.

Lemma keeps_throw {A : Type} (e : Error) (P : Database -> Prop) : keeps P (@throw A e).
Proof. now apply triple_throw. Qed.

Lemma findByEmail_reads (e : string) (w : World) :
  db (snd (User.findByEmail e w)) = db w.
Proof.
  unfold User.findByEmail, bind, query. now destruct (hd false (faults w)).
Qed.

Lemma isEmailVerified_reads (uid : string) (w : World) :
  db (snd (User.isEmailVerified uid w)) = db w.
Proof.
  unfold User.isEmailVerified, bind, query. now destruct (hd false (faults w)).
Qed.

Lemma credentialsInv_users (d d' : Database) :
  auth_users d' = auth_users d -> credentialsInv d -> credentialsInv d'.
Proof.
  unfold credentialsInv, primaryKey, verifiedHoldsNoToken. intros ->. trivial.
Qed.

(** A statement on the token tables. *)
Lemma keeps_token_query {A : Type} (s : Statement)
    (run : Date -> Database -> Error + (A * Database)) :
  (forall t d a d', run t d = inr (a, d') -> auth_users d' = auth_users d) ->
  keeps credentialsInv (query s run).
Proof.
  intros H. apply triple_query; [trivial|].
  intros t d a d' Hinv Hrun. apply (credentialsInv_users d d'); [|exact Hinv].
  eapply H; eassumption.
Qed.

(** An UPDATE of the rows of [auth_users] that keeps the ids and does
    not verify a row without clearing its token. *)
Lemma credentialsInv_updateWhere (p : auth_user -> bool) (f : auth_user -> auth_user)
    (d : Database) :
  (forall u, id (f u) = id u) ->
  (forall u, In u (auth_users d) -> p u = true ->
     (email_verified u = true -> email_verification_token u = None) ->
     email_verified (f u) = true -> email_verification_token (f u) = None) ->
  credentialsInv d ->
  credentialsInv (with_users d (updateWhere p f (auth_users d))).
Proof.
  intros Hid Hf [Hpk Hv]. split; [now apply primaryKey_updateWhere|].
  intros b Hb. cbn [with_users auth_users] in Hb.
  apply in_updateWhere in Hb. destruct Hb as (a & Ha & ->).
  destruct (p a) eqn:Hp; [|now apply Hv].
  apply Hf; [exact Ha|exact Hp|now apply Hv].
Qed.

Lemma keeps_users_update (s : Statement) (p : auth_user -> bool)
    (f : Date -> auth_user -> auth_user) :
  (forall t u, id (f t u) = id u) ->
  (forall t u, (email_verified u = true -> email_verification_token u = None) ->
     email_verified (f t u) = true -> email_verification_token (f t u) = None) ->
  keeps credentialsInv
    (query s (fun t d => inr (tt, with_users d (updateWhere p (f t) (auth_users d))))).
Proof.
  intros Hid Hf. apply triple_query; [trivial|].
  intros t d a d' Hinv Hrun. injection Hrun as _ <-.
  apply credentialsInv_updateWhere; [apply Hid| |exact Hinv].
  intros u _ _. apply Hf.
Qed.

Lemma keeps_recordFailedLoginAttempt (E : Env) (uid : string) :
  keeps credentialsInv (User.recordFailedLoginAttempt E uid).
Proof.
  unfold User.recordFailedLoginAttempt. apply keeps_bind.
  - apply triple_query; [trivial|]. intros t d a d' Hinv Hrun. injection Hrun as _ <-.
    apply credentialsInv_updateWhere; [reflexivity| |exact Hinv].
    intros u _ _ H. exact H.
  - intros rows. destruct rows as [|row rest]; [apply keeps_throw|].
    destruct (COALESCE row 0 >=? MAX_LOGIN_ATTEMPTS E); [|apply keeps_ret].
    apply keeps_bind; [apply reads_keeps; reflexivity|]. intros d0.
    apply keeps_bind; [|intros; apply keeps_ret].
    apply (keeps_users_update UpdateLockedUntil (hasId uid)
             (fun t => User.set_locked_until _ t)); [reflexivity|].
    intros t u H. exact H.
Qed.

Lemma keeps_resetFailedLoginAttempts (uid : string) :
  keeps credentialsInv (User.resetFailedLoginAttempts uid).
Proof.
  unfold User.resetFailedLoginAttempts.
  apply (keeps_users_update UpdateResetFailedAttempts (hasId uid) User.clear_lockout);
    [reflexivity|]. intros t u H. exact H.
Qed.

Lemma keeps_updatePassword (E : Env) (uid pw : string) :
  keeps credentialsInv (User.updatePassword E uid pw).
Proof.
  unfold User.updatePassword.
  apply keeps_bind; [apply reads_keeps; reflexivity|]. intros salt.
  apply keeps_bind; [apply reads_keeps; reflexivity|]. intros _.
  apply (keeps_users_update UpdatePasswordHash (hasId uid)
           (fun t => User.set_password _ t)); [reflexivity|].
  intros t u H. exact H.
Qed.

Lemma keeps_verifyEmail (tok : string) : keeps credentialsInv (User.verifyEmail tok).
Proof.
  unfold User.verifyEmail. apply keeps_bind.
  - apply triple_query; [trivial|]. intros t d a d' Hinv Hrun. now injection Hrun as _ <-.
  - intros rows. destruct rows as [|user rest]; [apply keeps_ret|].
    destruct (email_verified user); [apply keeps_ret|].
    apply keeps_bind; [apply reads_keeps; reflexivity|]. intros d0.
    destruct (newDate (email_verification_expires user) <? d0); [apply keeps_ret|].
    apply keeps_bind; [|intros; apply keeps_ret].
    apply (keeps_users_update UpdateEmailVerified (hasId (id user)) User.set_verified);
      [reflexivity|]. intros t u _ _. reflexivity.
Qed.

(** [User.create] leaves the new credential unverified. *)
Lemma triple_create (E : Env) (mail password : string) :
  triple credentialsInv (User.create E mail password)
         (fun user d => credentialsInv d /\ unverifiedId (id user) d) credentialsInv.
Proof.
  unfold User.create.
  apply (triple_catch _ _ _ _ credentialsInv).
  - apply (triple_bind _ _ (fun _ => credentialsInv));
      [apply reads_keeps; reflexivity|]. intros salt.
    apply (triple_bind _ _ (fun _ => credentialsInv));
      [apply reads_keeps; reflexivity|]. intros _.
    apply (triple_bind _ _ (fun _ => credentialsInv));
      [apply reads_keeps; reflexivity|]. intros uid.
    apply triple_query; [trivial|].
    intros t d a d' [Hpk Hv] Hrun. unfold User.insertUser in Hrun.
    destruct (existsb _ (auth_users d)) eqn:Hex; [discriminate|].
    injection Hrun as <- <-. cbn [id].
    assert (Hnew : forall u, In u (auth_users d) -> id u <> uid).
    { intros u Hu Hid. pose proof (existsb_false_forall _ _ Hex u Hu) as Hno.
      cbn [id email] in Hno. apply orb_false_elim in Hno. destruct Hno as [Hno _].
      unfold hasId in Hno. rewrite Hid, String.eqb_refl in Hno. discriminate. }
    split; [split|].
    + unfold primaryKey in *. cbn [with_users auth_users]. rewrite map_app.
      apply NoDup_app; [exact Hpk|repeat constructor; intros []|].
      intros x Hin [<-|[]]. apply in_map_iff in Hin. destruct Hin as (u & Hid & Hu).
      exact (Hnew u Hu Hid).
    + intros u Hu. cbn [with_users auth_users] in Hu. apply in_app_iff in Hu.
      destruct Hu as [Hu|[<-|[]]]; [now apply Hv|discriminate].
    + intros u Hu Hid. cbn [with_users auth_users] in Hu. apply in_app_iff in Hu.
      destruct Hu as [Hu|[<-|[]]]; [now elim (Hnew u Hu)|reflexivity].
  - intros e. destruct e as [code| | |]; try (now apply triple_throw).
    destruct (code =? unique_violation)%string; now apply triple_throw.
Qed.

(** A token may be set on a credential that is not verified. *)
Lemma triple_generateEmailVerificationToken (E : Env) (uid : string) :
  triple (fun d => credentialsInv d /\ unverifiedId uid d)
         (User.generateEmailVerificationToken E uid)
         (fun _ => credentialsInv) credentialsInv.
Proof.
  unfold User.generateEmailVerificationToken.
  apply (triple_bind _ _ (fun _ d => credentialsInv d /\ unverifiedId uid d));
    [apply reads_triple; [reflexivity|tauto]|]. intros bytes.
  apply (triple_bind _ _ (fun _ d => credentialsInv d /\ unverifiedId uid d));
    [apply reads_triple; [reflexivity|tauto]|]. intros d0.
  apply (triple_bind _ _ (fun _ => credentialsInv)); [|intros; now apply triple_ret].
  apply triple_query; [tauto|].
  intros t d a d' [Hinv Hun] Hrun. injection Hrun as _ <-.
  apply credentialsInv_updateWhere; [reflexivity| |exact Hinv].
  intros u Hu Hp _ Hver. cbn in Hver. apply hasId_eq in Hp.
  rewrite (Hun u Hu Hp) in Hver. discriminate.
Qed.

(** When [User.isEmailVerified] answers no, no row with the id is
    verified. *)
Lemma triple_isEmailVerified (uid : string) :
  triple credentialsInv (User.isEmailVerified uid)
         (fun b d => credentialsInv d /\ (b = false -> unverifiedId uid d)) credentialsInv.
Proof.
  unfold User.isEmailVerified.
  apply (triple_bind _ _
           (fun rows d => credentialsInv d /\
                          rows = map email_verified (filter (hasId uid) (auth_users d)))).
  - apply triple_query; [trivial|]. intros t d a d' Hinv Hrun.
    injection Hrun as <- <-. now split.
  - intros rows. apply triple_ret. intros d [Hinv ->]. split; [exact Hinv|].
    intros Hb u Hu Hid.
    pose proof (primaryKey_userById d u (proj1 Hinv) Hu) as Hfind.
    rewrite Hid in Hfind. destruct (userById_filter _ _ _ Hfind) as [rest Hrest].
    rewrite Hrest in Hb. exact Hb.
Qed.

Lemma keeps_refresh_create (uid : string) (days : Z) :
  keeps credentialsInv (RefreshToken.create uid days).
Proof.
  unfold RefreshToken.create, uuidv4.
  apply keeps_bind; [apply reads_keeps; reflexivity|]. intros token.
  apply keeps_bind; [apply reads_keeps; reflexivity|]. intros d0.
  apply keeps_bind; [apply reads_keeps; reflexivity|]. intros rid.
  apply keeps_token_query. intros t d a d' Hrun. unfold RefreshToken.insertRefresh in Hrun.
  destruct (existsb _ (auth_refresh_tokens d)); [discriminate|].
  destruct (existsb _ (auth_users d)); [|discriminate].
  now injection Hrun as _ <-.
Qed.

Lemma keeps_reset_create (E : Env) (uid : string) :
  keeps credentialsInv (PasswordReset.create E uid).
Proof.
  unfold PasswordReset.create, PasswordReset.invalidateForUser.
  apply keeps_bind.
  { apply keeps_token_query. intros t d a d' Hrun. now injection Hrun as _ <-. }
  intros _.
  apply keeps_bind; [apply reads_keeps; reflexivity|]. intros bytes.
  apply keeps_bind; [apply reads_keeps; reflexivity|]. intros d0.
  apply keeps_bind; [apply reads_keeps; reflexivity|]. intros rid.
  apply keeps_token_query. intros t d a d' Hrun. unfold PasswordReset.insertReset in Hrun.
  destruct (existsb _ (auth_password_resets d)); [discriminate|].
  destruct (existsb _ (auth_users d)); [|discriminate].
  now injection Hrun as _ <-.
Qed.

Lemma keeps_revokeAllForUser (uid : string) :
  keeps credentialsInv (RefreshToken.revokeAllForUser uid).
Proof.
  apply keeps_token_query. intros t d a d' Hrun. now injection Hrun as _ <-.
Qed.

Lemma keeps_signin (E : Env) (e pw : string) : keeps credentialsInv (Routes.signin E e pw).
Proof.
  unfold Routes.signin.
  apply keeps_bind; [apply reads_keeps, findByEmail_reads|]. intros [user|];
    [|apply keeps_throw].
  apply keeps_bind; [apply reads_keeps, isAccountLocked_reads|]. intros lockStatus.
  destruct (locked lockStatus); [apply keeps_throw|].
  apply keeps_bind; [apply reads_keeps; reflexivity|]. intros isValid.
  destruct (negb isValid).
  - apply keeps_bind; [apply keeps_recordFailedLoginAttempt|]. intros attemptResult.
    destruct (ar_locked attemptResult); [|apply keeps_throw].
    apply keeps_bind; [apply reads_keeps; reflexivity|]. intros _. apply keeps_throw.
  - apply keeps_bind; [apply keeps_resetFailedLoginAttempts|]. intros _.
    apply keeps_bind; [apply reads_keeps; reflexivity|]. intros accessToken.
    apply keeps_bind; [apply keeps_refresh_create|]. intros refreshToken.
    apply keeps_bind; [apply reads_keeps, isEmailVerified_reads|]. intros emailVerified.
    apply keeps_ret.
Qed.

Lemma keeps_signup (E : Env) (e pw : string) : keeps credentialsInv (Routes.signup E e pw).
Proof.
  unfold Routes.signup.
  apply keeps_bind; [apply reads_keeps, findByEmail_reads|]. intros [existing|];
    [apply keeps_throw|].
  apply (triple_bind _ _ (fun user d => credentialsInv d /\ unverifiedId (id user) d));
    [apply triple_create|]. intros user.
  apply (triple_bind _ _ (fun _ => credentialsInv));
    [apply triple_generateEmailVerificationToken|]. intros verificationToken.
  apply keeps_bind; [apply reads_keeps; reflexivity|]. intros _.
  apply keeps_bind; [apply reads_keeps; reflexivity|]. intros accessToken.
  apply keeps_bind; [apply keeps_refresh_create|]. intros refreshToken.
  apply keeps_ret.
Qed.

Lemma keeps_resendVerification (E : Env) (e : string) :
  keeps credentialsInv (Routes.resendVerification E e).
Proof.
  unfold Routes.resendVerification.
  apply keeps_bind; [apply reads_keeps, findByEmail_reads|]. intros [user|];
    [|apply keeps_ret].
  apply (triple_bind _ _ (fun b d => credentialsInv d /\
                                     (b = false -> unverifiedId (id user) d)));
    [apply triple_isEmailVerified|]. intros [|].
  - apply triple_ret. tauto.
  - apply (triple_bind _ _ (fun _ => credentialsInv)).
    + apply (triple_pre (fun d => credentialsInv d /\ unverifiedId (id user) d));
        [|apply triple_generateEmailVerificationToken].
      intros d [Hinv Hun]. split; [exact Hinv|now apply Hun].
    + intros verificationToken.
      apply keeps_bind; [apply reads_keeps; reflexivity|]. intros _. apply keeps_ret.
Qed.

Lemma keeps_forgotPassword (E : Env) (e : string) :
  keeps credentialsInv (Routes.forgotPassword E e).
Proof.
  unfold Routes.forgotPassword.
  apply keeps_bind; [apply reads_keeps, findByEmail_reads|]. intros [user|];
    [|apply keeps_ret].
  apply keeps_bind.
  { apply keeps_token_query. intros t d a d' Hrun. now injection Hrun as _ <-. }
  intros recentRequests. destruct (recentRequests >=? 3); [apply keeps_ret|].
  apply keeps_bind; [apply keeps_reset_create|]. intros resetToken.
  apply keeps_bind; [apply reads_keeps; reflexivity|]. intros _. apply keeps_ret.
Qed.

Lemma keeps_resetPassword (E : Env) (token pw : string) :
  keeps credentialsInv (Routes.resetPassword E token pw).
Proof.
  unfold Routes.resetPassword.
  apply keeps_bind; [apply reads_keeps, validateToken_reads|]. intros validation.
  destruct (negb (valid validation)); [apply keeps_throw|].
  destruct (userId validation) as [uid|]; [|apply keeps_throw].
  apply keeps_bind; [apply keeps_updatePassword|]. intros _.
  apply keeps_bind.
  { apply keeps_token_query. intros t d a d' Hrun. now injection Hrun as _ <-. }
  intros _.
  apply keeps_bind; [apply keeps_revokeAllForUser|]. intros _.
  apply keeps_bind; [apply keeps_resetFailedLoginAttempts|]. intros _.
  apply keeps_ret.
Qed.

Lemma keeps_verifyEmail_route (tok : string) :
  keeps credentialsInv (Routes.verifyEmail tok).
Proof.
  unfold Routes.verifyEmail.
  apply keeps_bind; [apply keeps_verifyEmail|]. intros result.
  destruct (negb (success result)); [apply keeps_throw|apply keeps_ret].
Qed.

Lemma keeps_cleanup : keeps credentialsInv cleanupExpiredTokens.
Proof.
  unfold cleanupExpiredTokens.
  apply (triple_catch _ _ _ _ credentialsInv); [|intros e; apply keeps_ret].
  apply keeps_bind.
  { apply keeps_token_query. intros t d a d' Hrun. now injection Hrun as _ <-. }
  intros _. apply keeps_bind; [|intros; apply keeps_ret].
  apply keeps_token_query. intros t d a d' Hrun. now injection Hrun as _ <-.
Qed.

Lemma handle_keeps (E : Env) (r : Request) (w : World) :
  credentialsInv (db w) -> credentialsInv (db (handle E r w)).
Proof.
  intros Hinv. destruct r; cbn [handle]; apply keeps_snd; try exact Hinv.
  - apply keeps_signup.
  - apply keeps_signin.
  - apply reads_keeps, refresh_reads.
  - unfold Routes.signout, RefreshToken.revoke.
    apply keeps_bind; [|intros; apply keeps_ret].
    apply keeps_token_query. intros t d a d' Hrun. now injection Hrun as _ <-.
  - unfold Routes.signoutAll.
    apply keeps_bind; [apply keeps_revokeAllForUser|intros; apply keeps_ret].
  - apply keeps_forgotPassword.
  - apply keeps_resetPassword.
  - unfold Routes.validateResetToken.
    apply keeps_bind; [apply reads_keeps, validateToken_reads|intros; apply keeps_ret].
  - apply keeps_verifyEmail_route.
  - apply keeps_resendVerification.
  - apply keeps_cleanup.
Qed.

Lemma served_credentialsInv (E : Env) (d : Database) :
  served E d -> credentialsInv d.
Proof.
  induction 1 as [|r w _ IH].
  - split; [constructor|intros u []].
  - now apply handle_keeps.
Qed.

(** In tables that requests served one after the other leave, the
    check "Email already verified" of [User.verifyEmail] does not
    fire. *)
Lemma served_never_already_verified (E : Env) (w : World) (tok : string) :
  served E (db w) ->
  primaryKey (db w) /\
  verifiedHoldsNoToken (db w) /\
  fst (User.verifyEmail tok w) <> Ok alreadyVerified /\
  fst (Routes.verifyEmail tok w) <> Throw (BadRequestError "Email already verified").
Proof.
  intros Hs. destruct (served_credentialsInv E (db w) Hs) as [Hpk Hv]. split; [exact Hpk|]. split; [exact Hv|].
  assert (Hmodel : forall res, fst (User.verifyEmail tok w) = Ok res ->
                               ve_reason res <> Some "Email already verified").
  { unfold User.verifyEmail, bind, query.
    destruct (hd false (faults w)); [discriminate|]. cbn -[filter].
    destruct (filter (User.hasVerificationToken tok) (auth_users (db w)))
      as [|user rest] eqn:Hrows.
    - cbn. intros res [= <-]. discriminate.
    - assert (Hin : In user (filter (User.hasVerificationToken tok) (auth_users (db w))))
        by (rewrite Hrows; now left).
      apply filter_In in Hin. destruct Hin as [Hin Htok].
      destruct (email_verified user) eqn:Hver.
      + apply Hv in Hver; [|exact Hin]. unfold User.hasVerificationToken in Htok.
        rewrite Hver in Htok. discriminate.
      + cbn -[filter]. destruct (newDate (email_verification_expires user) <? now w).
        * cbn. intros res [= <-]. discriminate.
        * cbn -[updateWhere]. destruct (hd false (tl (faults w))); cbn -[updateWhere].
          -- discriminate.
          -- intros res [= <-]. discriminate. }
  split.
  - intros Heq. apply (Hmodel _ Heq). reflexivity.
  - unfold Routes.verifyEmail, bind.
    destruct (User.verifyEmail tok w) as [[res|e] w1] eqn:Hrun; cbn [fst] in *.
    + specialize (Hmodel res eq_refl).
      destruct (success res); cbn [negb]; [discriminate|].
      cbn. intros [= Heq]. destruct (ve_reason res) as [r|]; [|discriminate].
      apply Hmodel. now rewrite Heq.
    + cbn. intros [= ->].
      revert Hrun. unfold User.verifyEmail, bind, query.
      destruct (hd false (faults w)); [discriminate|]. cbn -[filter].
      destruct (filter (User.hasVerificationToken tok) (auth_users (db w)))
        as [|user rest]; [discriminate|].
      destruct (email_verified user); [discriminate|]. cbn -[filter].
      destruct (newDate (email_verification_expires user) <? now w); [discriminate|].
      cbn -[updateWhere]. destruct (hd false (tl (faults w))); discriminate.
Qed.

(** POST /auth/resend-verification is its lookup, its check and what
    follows the check, with an [await] after each. *)
Lemma resendVerification_splits (E : Env) (e : string) :
  Routes.resendVerification E e =
  (found <- User.findByEmail e ;;
   match found with
   | None => ret Routes.resendVerificationAck
   | Some user =>
       isVerified <- User.isEmailVerified (id user) ;;
       resendAfterCheck E e user isVerified
   end).
Proof. reflexivity. Qed.

(** A verify-email request served between the check of a
    resend-verification request and its UPDATE. *)
Lemma resendWithVerifyBetween_run (E : Env) (e tok : string) (w : World) (u : auth_user) :
  faults w = [] ->
  primaryKey (db w) ->
  userByEmail (toLowerCase e) (db w) = Some u ->
  userByVerificationToken tok (db w) = Some u ->
  email_verified u = false ->
  now w <= newDate (email_verification_expires u) ->
  let tok' := toHex (takeBytes 32 (entropy w)) in
  let ex := addHours (now w) (EMAIL_VERIFICATION_EXPIRY_HOURS E) in
  fst (resendWithVerifyBetween E e tok w) = Ok Routes.resendVerificationAck /\
  auth_users (db (snd (resendWithVerifyBetween E e tok w))) =
    updateWhere (hasId (id u))
      (fun a => User.set_verification (Some tok') (Some ex) (now w)
                  (User.set_verified (now w) a))
      (auth_users (db w)).
Proof.
  intros Hf Hpk Hu Htok Hv Hle tok' ex.
  pose proof (userByEmail_userById _ _ _ Hpk Hu) as Hid.
  unfold resendWithVerifyBetween.
  rewrite findByEmail_run by now rewrite Hf. rewrite Hu, Hf. cbn [tl].
  rewrite (isEmailVerified_run (id u) _ u) by (try reflexivity; exact Hid).
  rewrite Hv. cbn [tl faults db now entropy pg_entropy trace].
  match goal with |- context [Routes.verifyEmail tok ?x] => set (w2 := x) end.
  assert (Hrun : snd (Routes.verifyEmail tok w2) =
                 mkWorld (with_users (db w)
                            (updateWhere (hasId (id u)) (User.set_verified (now w))
                                         (auth_users (db w))))
                         (now w) [] (entropy w) (pg_entropy w)
                         (Sql UpdateEmailVerified :: Sql SelectUserByVerificationToken ::
                          trace w2)).
  { unfold Routes.verifyEmail, bind.
    rewrite (verifyEmail_success_run tok w2 u); [reflexivity|reflexivity| | |];
      assumption. }
  rewrite Hrun. unfold resendAfterCheck, bind.
  rewrite generateEmailVerificationToken_run by reflexivity.
  unfold sendEmailVerificationEmail, event, emit, ret.
  cbn [fst snd db now entropy]. unfold with_users. cbn [auth_users].
  split; [reflexivity|].
  now rewrite updateWhere_compose by reflexivity.
Qed.

(** X27.  The answer "Email already verified" of POST /auth/verify-email
    is given only after requests that overlapped.  When the requests to
    the routes (sign-up, sign-in, refresh, sign-out, sign-out
    everywhere, forgot-password, reset-password, validate-reset-token,
    verify-email, resend-verification) and the hourly cleanup are served
    one after the other, from empty tables and whatever the store did,
    ids are unique, no verified credential holds a verification token,
    and verify-email does not give that answer.  When a verify-email
    request is served between the check of a resend-verification
    request and its UPDATE, which is sent without a condition on
    [email_verified], the credential is left verified and holding the
    new token, and verify-email with that token gives that answer. *)
Theorem already_verified_only_by_overlap (E : Env) (e tok : string) (w : World)
    (u : auth_user) :
  (served E (db w) ->
     primaryKey (db w) /\ verifiedHoldsNoToken (db w) /\
     forall t, fst (Routes.verifyEmail t w) <>
               Throw (BadRequestError "Email already verified")) /\
  (faults w = [] ->
   primaryKey (db w) ->
   userByEmail (toLowerCase e) (db w) = Some u ->
   userByVerificationToken tok (db w) = Some u ->
   email_verified u = false ->
   now w <= newDate (email_verification_expires u) ->
   let tok' := toHex (takeBytes 32 (entropy w)) in
   (forall a, In a (auth_users (db w)) ->
              User.hasVerificationToken tok' a = true -> id a = id u) ->
   let w' := snd (resendWithVerifyBetween E e tok w) in
   fst (resendWithVerifyBetween E e tok w) = Ok Routes.resendVerificationAck /\
   (exists u', userById (id u) (db w') = Some u' /\
               email_verified u' = true /\ email_verification_token u' = Some tok') /\
   ~ verifiedHoldsNoToken (db w') /\
   forall v, db v = db w' -> hd false (faults v) = false ->
     fst (Routes.verifyEmail tok' v) = Throw (BadRequestError "Email already verified")).
Proof.
  split.
  - intros Hs. split; [|split].
    + apply (served_never_already_verified E w tok Hs).
    + apply (served_never_already_verified E w tok Hs).
    + intros t. apply (served_never_already_verified E w t Hs).
  - intros Hf Hpk Hu Htok Hv Hle tok' Hfresh w'.
    destruct (resendWithVerifyBetween_run E e tok w u Hf Hpk Hu Htok Hv Hle)
      as [Hres Husers].
    fold tok' in Husers. fold w' in Husers.
    set (f := fun a => User.set_verification (Some tok')
                         (Some (addHours (now w) (EMAIL_VERIFICATION_EXPIRY_HOURS E)))
                         (now w) (User.set_verified (now w) a)) in *.
    pose proof (userByEmail_userById _ _ _ Hpk Hu) as Hid.
    assert (Hrow : userById (id u) (db w') = Some (f u)).
    { unfold userById. rewrite Husers. rewrite find_updateWhere_same by reflexivity.
      unfold userById in Hid. now rewrite Hid. }
    split; [exact Hres|]. split; [exists (f u); repeat split; exact Hrow|].
    split.
    + intros Hno. unfold userById in Hrow. apply find_some in Hrow.
      specialize (Hno (f u) (proj1 Hrow) eq_refl). discriminate Hno.
    + intros v Hdb Hfv. unfold Routes.verifyEmail, User.verifyEmail, bind.
      rewrite query_run by exact Hfv. rewrite Hdb, Husers.
      destruct (filter (User.hasVerificationToken tok')
                       (updateWhere (hasId (id u)) f (auth_users (db w))))
        as [|x rest] eqn:Hrows.
      * exfalso.
        assert (Hin : In (f u) (filter (User.hasVerificationToken tok')
                                  (updateWhere (hasId (id u)) f (auth_users (db w))))).
        { apply filter_In. split.
          - unfold updateWhere. apply in_map_iff. exists u. split.
            + now rewrite hasId_refl.
            + unfold userByEmail in Hu. now apply find_some in Hu.
          - unfold User.hasVerificationToken. cbn. apply String.eqb_refl. }
        rewrite Hrows in Hin. destruct Hin.
      * assert (Hin : In x (filter (User.hasVerificationToken tok')
                              (updateWhere (hasId (id u)) f (auth_users (db w)))))
          by (rewrite Hrows; now left).
        apply filter_In in Hin. destruct Hin as [Hin Hx].
        apply in_updateWhere in Hin. destruct Hin as (a & Ha & ->).
        destruct (hasId (id u) a) eqn:Hida; [reflexivity|].
        apply Hfresh in Hx; [|exact Ha]. unfold hasId in Hida.
        rewrite Hx, String.eqb_refl in Hida. discriminate.
Qed.

(** What every request keeps, for a property of the credentials that
    survives an UPDATE which keeps ids and addresses and does not
    unverify, and an INSERT. *)
Section RoutesKeep.

Variable P : Database -> Prop.
Hypothesis P_users : forall d d', auth_users d' = auth_users d -> P d -> P d'.
Hypothesis P_update :
  forall (p : auth_user -> bool) (f : auth_user -> auth_user) (d : Database),
    (forall u, id (f u) = id u) ->
    (forall u, email (f u) = email u) ->
    (forall u, email_verified u = true -> email_verified (f u) = true) ->
    P d -> P (with_users d (updateWhere p f (auth_users d))).
Hypothesis P_insert :
  forall (row r : auth_user) (d d' : Database),
    User.insertUser row d = inr (r, d') -> P d -> P d'.

Lemma kept_token_query {A : Type} (s : Statement)
    (run : Date -> Database -> Error + (A * Database)) :
  (forall t d a d', run t d = inr (a, d') -> auth_users d' = auth_users d) ->
  keeps P (query s run).
Proof.
  intros H. apply triple_query; [trivial|].
  intros t d a d' HP Hrun. apply (P_users d d'); [|exact HP]. eapply H; eassumption.
Qed.

Lemma kept_users_update {A : Type} (s : Statement) (p : auth_user -> bool)
    (f : Date -> auth_user -> auth_user) (res : Date -> Database -> A) :
  (forall t u, id (f t u) = id u) ->
  (forall t u, email (f t u) = email u) ->
  (forall t u, email_verified u = true -> email_verified (f t u) = true) ->
  keeps P
    (query s (fun t d =>
                inr (res t d, with_users d (updateWhere p (f t) (auth_users d))))).
Proof.
  intros Hid Hmail Hf. apply triple_query; [trivial|].
  intros t d a d' HP Hrun. injection Hrun as _ <-.
  apply P_update; [apply Hid|apply Hmail|apply Hf|exact HP].
Qed.

Ltac kept :=
  repeat first
    [ apply keeps_ret
    | apply keeps_throw
    | apply reads_keeps, findByEmail_reads
    | apply reads_keeps, isAccountLocked_reads
    | apply reads_keeps, isEmailVerified_reads
    | apply reads_keeps, validateToken_reads
    | apply reads_keeps, refresh_reads
    | apply reads_keeps; reflexivity
    | apply kept_users_update; [reflexivity|reflexivity|intros ? ? H; exact H]
    | apply kept_token_query; intros ? ? ? ? Hrun; now injection Hrun as _ <-
    | apply keeps_bind; [|intros ?]
    | match goal with
      | |- keeps _ (match ?x with _ => _ end) => destruct x
      end ].

Lemma kept_refresh_create (uid : string) (days : Z) :
  keeps P (RefreshToken.create uid days).
Proof.
  unfold RefreshToken.create, uuidv4.
  do 3 (apply keeps_bind; [apply reads_keeps; reflexivity|intros ?]).
  apply kept_token_query. intros t d r d' Hrun. unfold RefreshToken.insertRefresh in Hrun.
  destruct (existsb _ (auth_refresh_tokens d)); [discriminate|].
  destruct (existsb _ (auth_users d)); [|discriminate].
  now injection Hrun as _ <-.
Qed.

Lemma kept_reset_create (E : Env) (uid : string) :
  keeps P (PasswordReset.create E uid).
Proof.
  unfold PasswordReset.create, PasswordReset.invalidateForUser.
  apply keeps_bind; [kept|intros _].
  do 3 (apply keeps_bind; [apply reads_keeps; reflexivity|intros ?]).
  apply kept_token_query. intros t d r d' Hrun. unfold PasswordReset.insertReset in Hrun.
  destruct (existsb _ (auth_password_resets d)); [discriminate|].
  destruct (existsb _ (auth_users d)); [|discriminate].
  now injection Hrun as _ <-.
Qed.

Lemma kept_create (E : Env) (mail password : string) :
  keeps P (User.create E mail password).
Proof.
  unfold User.create. apply (triple_catch _ _ _ _ P).
  - do 3 (apply keeps_bind; [apply reads_keeps; reflexivity|intros ?]).
    apply triple_query; [trivial|]. intros t d r d' HP Hrun.
    eapply P_insert; eassumption.
  - intros e. destruct e as [code| | |]; try apply keeps_throw.
    destruct (code =? unique_violation)%string; apply keeps_throw.
Qed.

Lemma kept_recordFailedLoginAttempt (E : Env) (uid : string) :
  keeps P (User.recordFailedLoginAttempt E uid).
Proof.
  unfold User.recordFailedLoginAttempt. apply keeps_bind.
  - apply (kept_users_update _ _ User.increment_attempts); [reflexivity|reflexivity|].
    intros t u H. exact H.
  - intros [|row rest]; [apply keeps_throw|].
    destruct (COALESCE row 0 >=? MAX_LOGIN_ATTEMPTS E); [|apply keeps_ret].
    apply keeps_bind; [apply reads_keeps; reflexivity|intros d0].
    apply keeps_bind; [|intros; apply keeps_ret].
    apply (kept_users_update _ _ (fun t => User.set_locked_until _ t)); [reflexivity|reflexivity|].
    intros t u H. exact H.
Qed.

Lemma kept_verifyEmail (tok : string) : keeps P (User.verifyEmail tok).
Proof.
  unfold User.verifyEmail. apply keeps_bind; [kept|].
  intros [|user rest]; [apply keeps_ret|].
  destruct (email_verified user); [apply keeps_ret|].
  apply keeps_bind; [apply reads_keeps; reflexivity|intros d0].
  destruct (newDate (email_verification_expires user) <? d0); [apply keeps_ret|].
  apply keeps_bind; [|intros; apply keeps_ret].
  apply (kept_users_update _ _ User.set_verified); reflexivity.
Qed.

Lemma kept_generateEmailVerificationToken (E : Env) (uid : string) :
  keeps P (User.generateEmailVerificationToken E uid).
Proof.
  unfold User.generateEmailVerificationToken.
  do 2 (apply keeps_bind; [apply reads_keeps; reflexivity|intros ?]).
  apply keeps_bind; [|intros; apply keeps_ret].
  apply (kept_users_update _ _ (fun t => User.set_verification _ _ t)); [reflexivity|reflexivity|].
  intros t u H. exact H.
Qed.

Lemma kept_updatePassword (E : Env) (uid pw : string) :
  keeps P (User.updatePassword E uid pw).
Proof.
  unfold User.updatePassword.
  do 2 (apply keeps_bind; [apply reads_keeps; reflexivity|intros ?]).
  apply (kept_users_update _ _ (fun t => User.set_password _ t)); [reflexivity|reflexivity|].
  intros t u H. exact H.
Qed.

Lemma kept_resetFailedLoginAttempts (uid : string) :
  keeps P (User.resetFailedLoginAttempts uid).
Proof.
  unfold User.resetFailedLoginAttempts.
  apply (kept_users_update _ _ User.clear_lockout); [reflexivity|reflexivity|].
  intros t u H. exact H.
Qed.

Lemma handle_kept (E : Env) (r : Request) (w : World) :
  P (db w) -> P (db (handle E r w)).
Proof.
  intros HP. destruct r; cbn [handle]; apply keeps_snd; try exact HP.
  - unfold Routes.signup.
    apply keeps_bind; [kept|]. intros [existing|]; [apply keeps_throw|].
    apply keeps_bind; [apply kept_create|intros user].
    apply keeps_bind; [apply kept_generateEmailVerificationToken|intros tok].
    do 2 (apply keeps_bind; [apply reads_keeps; reflexivity|intros ?]).
    apply keeps_bind; [apply kept_refresh_create|intros; apply keeps_ret].
  - unfold Routes.signin.
    apply keeps_bind; [kept|]. intros [user|]; [|apply keeps_throw].
    apply keeps_bind; [kept|intros lockStatus].
    destruct (locked lockStatus); [apply keeps_throw|].
    apply keeps_bind; [apply reads_keeps; reflexivity|intros isValid].
    destruct (negb isValid).
    + apply keeps_bind; [apply kept_recordFailedLoginAttempt|intros attemptResult].
      destruct (ar_locked attemptResult); [|apply keeps_throw].
      apply keeps_bind; [apply reads_keeps; reflexivity|intros; apply keeps_throw].
    + apply keeps_bind; [apply kept_resetFailedLoginAttempts|intros _].
      apply keeps_bind; [apply reads_keeps; reflexivity|intros accessToken].
      apply keeps_bind; [apply kept_refresh_create|intros refreshToken].
      apply keeps_bind; [kept|intros; apply keeps_ret].
  - kept.
  - unfold Routes.signout, RefreshToken.revoke. kept.
  - unfold Routes.signoutAll, RefreshToken.revokeAllForUser. kept.
  - unfold Routes.forgotPassword.
    apply keeps_bind; [kept|]. intros [user|]; [|apply keeps_ret].
    apply keeps_bind; [unfold PasswordReset.getRecentRequestCount; kept|intros n].
    destruct (n >=? 3); [apply keeps_ret|].
    apply keeps_bind; [apply kept_reset_create|intros resetToken].
    apply keeps_bind; [apply reads_keeps; reflexivity|intros; apply keeps_ret].
  - unfold Routes.resetPassword.
    apply keeps_bind; [kept|intros validation].
    destruct (negb (valid validation)); [apply keeps_throw|].
    destruct (userId validation) as [uid|]; [|apply keeps_throw].
    apply keeps_bind; [apply kept_updatePassword|intros _].
    apply keeps_bind; [unfold PasswordReset.markAsUsed; kept|intros _].
    apply keeps_bind; [unfold RefreshToken.revokeAllForUser; kept|intros _].
    apply keeps_bind; [apply kept_resetFailedLoginAttempts|intros; apply keeps_ret].
  - unfold Routes.validateResetToken. kept.
  - unfold Routes.verifyEmail.
    apply keeps_bind; [apply kept_verifyEmail|intros result].
    destruct (negb (success result)); [apply keeps_throw|apply keeps_ret].
  - unfold Routes.resendVerification.
    apply keeps_bind; [kept|]. intros [user|]; [|apply keeps_ret].
    apply keeps_bind; [kept|]. intros [|]; [apply keeps_ret|].
    apply keeps_bind; [apply kept_generateEmailVerificationToken|intros tok].
    apply keeps_bind; [apply reads_keeps; reflexivity|intros; apply keeps_ret].
  - unfold cleanupExpiredTokens.
    apply (triple_catch _ _ _ _ P); [|intros e; apply keeps_ret].
    unfold RefreshToken.deleteExpired, PasswordReset.deleteExpired. kept.
Qed.

Lemma later_kept (E : Env) (d d' : Database) : later E d d' -> P d -> P d'.
Proof.
  induction 1 as [|r w _ IH]; intros HP; [exact HP|]. apply handle_kept, IH, HP.
Qed.

End RoutesKeep.

Lemma verifiedId_update (uid : string) (p : auth_user -> bool)
    (f : auth_user -> auth_user) (d : Database) :
  (forall u, id (f u) = id u) ->
  (forall u, email (f u) = email u) ->
  (forall u, email_verified u = true -> email_verified (f u) = true) ->
  verifiedId uid d -> verifiedId uid (with_users d (updateWhere p f (auth_users d))).
Proof.
  intros Hid _ Hf [(u & Hu & Hown) Hall]. cbn [with_users auth_users]. split.
  - exists (if p u then f u else u). split.
    + unfold updateWhere. apply in_map_iff. now exists u.
    + destruct (p u); [now rewrite Hid|exact Hown].
  - intros b Hb Hb_id. apply in_updateWhere in Hb. destruct Hb as (a & Ha & ->).
    destruct (p a); [|now apply Hall].
    apply Hf, Hall; [exact Ha|now rewrite <- Hid].
Qed.

Lemma verifiedId_insert (uid : string) (row r : auth_user) (d d' : Database) :
  User.insertUser row d = inr (r, d') -> verifiedId uid d -> verifiedId uid d'.
Proof.
  unfold User.insertUser. intros Hins [(u & Hu & Hown) Hall].
  destruct (existsb _ (auth_users d)) eqn:Hex; [discriminate|].
  injection Hins as _ <-. cbn [with_users auth_users]. split.
  - exists u. split; [apply in_app_iff; now left|exact Hown].
  - intros b Hb Hb_id. apply in_app_iff in Hb. destruct Hb as [Hb|[<-|[]]];
      [now apply Hall|].
    pose proof (existsb_false_forall _ _ Hex u Hu) as Hno.
    apply orb_false_elim in Hno. destruct Hno as [Hno _].
    unfold hasId in Hno. rewrite Hown, <- Hb_id, String.eqb_refl in Hno. discriminate.
Qed.

Lemma primaryKey_insert (row r : auth_user) (d d' : Database) :
  User.insertUser row d = inr (r, d') -> primaryKey d -> primaryKey d'.
Proof.
  unfold User.insertUser, primaryKey. intros Hins Hpk.
  destruct (existsb _ (auth_users d)) eqn:Hex; [discriminate|].
  injection Hins as _ <-. cbn [with_users auth_users]. rewrite map_app.
  apply NoDup_app; [exact Hpk|repeat constructor; intros []|].
  intros x Hin [<-|[]]. apply in_map_iff in Hin. destruct Hin as (u & Hid & Hu).
  pose proof (existsb_false_forall _ _ Hex u Hu) as Hno.
  apply orb_false_elim in Hno. destruct Hno as [Hno _].
  unfold hasId in Hno. rewrite Hid, String.eqb_refl in Hno. discriminate.
Qed.

(** X28.  Verification is permanent: no request and no cleanup removes
    a credential or unverifies it.  Once a credential is verified it is
    stored and verified after any further sequence of requests,
    whatever the store did, and POST /auth/resend-verification for its
    address answers 200 "Email is already verified." and writes
    nothing. *)
Theorem verified_stays_verified (E : Env) (d d' : Database) (uid : string) :
  primaryKey d ->
  verifiedId uid d ->
  later E d d' ->
  verifiedId uid d' /\
  forall w e u,
    db w = d' -> faults w = [] ->
    userByEmail (toLowerCase e) (db w) = Some u -> id u = uid ->
    fst (Routes.resendVerification E e w) =
      Ok (mkResponse 200 [("message", JString "Email is already verified.");
                          ("alreadyVerified", JBool true)]) /\
    db (snd (Routes.resendVerification E e w)) = db w.
Proof.
  intros Hpk Hv Hl.
  assert (Hv' : verifiedId uid d').
  { apply (later_kept (verifiedId uid)) with (E := E) (d := d); try assumption.
    - unfold verifiedId. intros d1 d2 ->. trivial.
    - intros p f d0. apply verifiedId_update.
    - intros row r d1 d2. apply verifiedId_insert. }
  assert (Hpk' : primaryKey d').
  { apply (later_kept primaryKey) with (E := E) (d := d); try assumption.
    - unfold primaryKey. intros d1 d2 ->. trivial.
    - intros p f d0 Hid _ _. now apply primaryKey_updateWhere.
    - intros row r d1 d2. apply primaryKey_insert. }
  split; [exact Hv'|]. intros w e u Hdb Hf Hu Hown.
  subst d'. pose proof (userByEmail_userById _ _ _ Hpk' Hu) as Hid.
  assert (Hver : email_verified u = true).
  { apply (proj2 Hv'); [|exact Hown]. unfold userByEmail in Hu.
    now apply find_some in Hu. }
  unfold Routes.resendVerification, bind.
  rewrite findByEmail_run by now rewrite Hf. rewrite Hu, Hf. cbn [tl].
  rewrite (isEmailVerified_run (id u) _ u) by (try reflexivity; exact Hid).
  rewrite Hver. split; reflexivity.
Qed.

(** X29.  No request and no cleanup removes a credential or changes its
    id or its address: a credential that is stored is stored, under the
    same id and address, after any further sequence of requests,
    whatever the store did, and a sign-up for its address, in any
    upper- or lower-case spelling, answers 409 "Email already
    registered" and writes nothing. *)
Theorem credentials_persist (E : Env) (d d' : Database) (u : auth_user) :
  In u (auth_users d) ->
  later E d d' ->
  (exists u', In u' (auth_users d') /\ id u' = id u /\ email u' = email u) /\
  forall w e pw,
    db w = d' -> hd false (faults w) = false -> toLowerCase e = email u ->
    fst (Routes.signup E e pw w) = Throw (ConflictError "Email already registered") /\
    db (snd (Routes.signup E e pw w)) = db w.
Proof.
  intros Hin Hl.
  assert (Hkept : exists u', In u' (auth_users d') /\ id u' = id u /\ email u' = email u).
  { apply (later_kept (fun d0 => exists u', In u' (auth_users d0) /\ id u' = id u /\
                                            email u' = email u))
      with (E := E) (d := d); try assumption.
    - intros d1 d2 ->. trivial.
    - intros p f d0 Hid Hmail _ (a & Ha & Haid & Hamail). cbn [with_users auth_users].
      exists (if p a then f a else a). split.
      + unfold updateWhere. apply in_map_iff. now exists a.
      + destruct (p a); [now rewrite Hid, Hmail|tauto].
    - intros row r d1 d2 Hins (a & Ha & Hrest). unfold User.insertUser in Hins.
      destruct (existsb _ (auth_users d1)); [discriminate|].
      injection Hins as _ <-. exists a. split; [|exact Hrest].
      cbn [with_users auth_users]. apply in_app_iff. now left.
    - now exists u. }
  split; [exact Hkept|]. intros w e pw Hdb Hf Hcase. subst d'.
  destruct Hkept as (u' & Hu' & _ & Hmail).
  destruct (userByEmail (toLowerCase e) (db w)) as [x|] eqn:Hfind.
  - rewrite (signup_conflict_run E e pw w x Hfind Hf). split; reflexivity.
  - exfalso. unfold userByEmail in Hfind.
    pose proof (find_none _ _ Hfind u' Hu') as Hno. cbn in Hno.
    rewrite Hmail, Hcase, String.eqb_refl in Hno. discriminate.
Qed.

Lemma already_verified_only_by_overlap_witness :
  fst (Routes.verifyEmail bobToken afterSignupWorld) <>
    Throw (BadRequestError "Email already verified") /\
  fst (Routes.verifyEmail freshResetToken
         (snd (resendWithVerifyBetween exampleEnv "carol@example.com" "c0ffee"
                                       pendingVerificationWorld))) =
    Throw (BadRequestError "Email already verified").
Proof.
  split.
  - assert (Hs : served exampleEnv (db afterSignupWorld)).
    { assert (Heq : db afterSignupWorld =
                    db (handle exampleEnv (PostSignup "Bob@Example.com" "Secret123")
                               signupWorld))
        by (vm_compute; reflexivity).
      rewrite Heq. apply served_next. apply served_fresh. }
    destruct (already_verified_only_by_overlap exampleEnv "bob@example.com" bobToken
                afterSignupWorld bob) as [Hseq _].
    exact (proj2 (proj2 (Hseq Hs)) bobToken).
  - assert (Hpk : primaryKey (db pendingVerificationWorld)).
    { unfold primaryKey. simpl. constructor; [intros []|constructor]. }
    assert (Hle : now pendingVerificationWorld <=
                  newDate (email_verification_expires pendingUser))
      by (vm_compute; discriminate).
    assert (Hfresh : forall a, In a (auth_users (db pendingVerificationWorld)) ->
               User.hasVerificationToken
                 (toHex (takeBytes 32 (entropy pendingVerificationWorld))) a = true ->
               id a = id pendingUser).
    { intros a [<-|[]] _. reflexivity. }
    destruct (already_verified_only_by_overlap exampleEnv "carol@example.com" "c0ffee"
                pendingVerificationWorld pendingUser) as [_ Hrace].
    destruct (Hrace eq_refl Hpk eq_refl eq_refl eq_refl Hle Hfresh) as (_ & _ & _ & Hv).
    assert (Hfv : hd false (faults (snd (resendWithVerifyBetween exampleEnv
                      "carol@example.com" "c0ffee" pendingVerificationWorld))) = false)
      by (vm_compute; reflexivity).
    exact (Hv _ eq_refl Hfv).
Defined.

Lemma verified_stays_verified_witness :
  fst (Routes.resendVerification exampleEnv "Bob@example.com"
         (handle exampleEnv (PostSignin "bob@example.com" "nope") verifiedBobWorld)) =
  Ok (mkResponse 200 [("message", JString "Email is already verified.");
                      ("alreadyVerified", JBool true)]).
Proof.
  set (w' := handle exampleEnv (PostSignin "bob@example.com" "nope") verifiedBobWorld).
  assert (Hpk : primaryKey (db verifiedBobWorld)).
  { unfold primaryKey. simpl. constructor; [intros []|constructor]. }
  assert (Hv : verifiedId bobId (db verifiedBobWorld)).
  { split.
    - eexists. split; [left; reflexivity|reflexivity].
    - intros u [<-|[]] _. reflexivity. }
  assert (Hl : later exampleEnv (db verifiedBobWorld) (db w')).
  { apply later_next. apply later_now. }
  assert (Hf : faults w' = []) by (vm_compute; reflexivity).
  assert (Hu : userByEmail (toLowerCase "Bob@example.com") (db w') =
               Some (mkUser bobId "bob@example.com" "$2a$0102$Secret123" true None None
                            (Some 1) None 1000 3000))
    by (vm_compute; reflexivity).
  destruct (verified_stays_verified exampleEnv (db verifiedBobWorld) (db w') bobId
              Hpk Hv Hl) as [_ H].
  exact (proj1 (H w' "Bob@example.com" _ eq_refl Hf Hu eq_refl)).
Defined.

Lemma credentials_persist_witness :
  fst (Routes.signup exampleEnv "BOB@example.com" "Other1234"
         (handle exampleEnv (PostSignin "bob@example.com" "nope") verifiedBobWorld)) =
  Throw (ConflictError "Email already registered").
Proof.
  set (w' := handle exampleEnv (PostSignin "bob@example.com" "nope") verifiedBobWorld).
  assert (Hin : In (mkUser bobId "bob@example.com" "$2a$0102$Secret123" true None None
                           (Some 0) None 1000 2000)
                   (auth_users (db verifiedBobWorld))) by (left; reflexivity).
  assert (Hl : later exampleEnv (db verifiedBobWorld) (db w')).
  { apply later_next. apply later_now. }
  assert (Hf : hd false (faults w') = false) by (vm_compute; reflexivity).
  destruct (credentials_persist exampleEnv (db verifiedBobWorld) (db w') _ Hin Hl)
    as [_ H].
  exact (proj1 (H w' "BOB@example.com" "Other1234" eq_refl Hf eq_refl)).
Defined.
